(** * PageTurner: chapter traversal, navigation and extraction

    A shallow embedding of the PageTurner web-novel crawler
    ([pageturner.py], [src/core/chapter_navigator.py],
    [src/core/content_extractor.py]) and the properties its specification
    states about it.

    Conventions of the embedding.
    - A Python [str] is a [string]; the text is taken to be ASCII, so
      [str.lower], the class [\w] and the class [\d] are the ASCII ones.
    - A Python [int] is a [Z] (unbounded); the interpreter's limit on the
      number of digits converted by [int()] and [str()] is not modelled.
    - [None] is [None]; a value tested for truth ([if x:]) goes through an
      explicit [truthy] function.
    - A call that may raise returns an [outcome]: [Returned v] or
      [Raised e]; [try]/[except] is a match on the exception.
    - The libraries the program calls ([re], [bs4]/[soupsieve], [requests])
      are section variables with the interface the program relies on;
      small executable instances of them are given for concrete runs. *)

From Stdlib Require Import ZArith Ascii String List Bool Lia.
From stdpp Require Import base decidable option list gmap strings.

Local Open Scope string_scope.
Local Open Scope Z_scope.

(** ** Python values the program manipulates *)

Module Py.

(** Exceptions that occur in the modelled code. *)
Inductive exn : Type :=
| ValueError
| IndexError
| TypeError
| ReError               (* re.error: the pattern does not compile *)
| SelectorSyntaxError.  (* soupsieve: the selector does not compile *)

Inductive outcome (A : Type) : Type :=
| Returned (a : A)
| Raised (e : exn).
Arguments Returned {A} a.
Arguments Raised {A} e.

Definition bind {A B} (m : outcome A) (k : A -> outcome B) : outcome B :=
  match m with
  | Returned a => k a
  | Raised e => Raised e
  end.

(** [truthy s]: [bool(s)] for a string. *)
Definition truthy (s : string) : bool :=
  match s with
  | EmptyString => false
  | String _ _ => true
  end.

(** [bool(x)] for [x : str | None]. *)
Definition truthy_opt (o : option string) : bool :=
  match o with
  | Some s => truthy s
  | None => false
  end.

Definition in_range (lo hi c : ascii) : bool :=
  ((nat_of_ascii lo <=? nat_of_ascii c)%nat && (nat_of_ascii c <=? nat_of_ascii hi)%nat)%bool.

Definition is_digit (c : ascii) : bool := in_range "0" "9" c.
Definition is_upper (c : ascii) : bool := in_range "A" "Z" c.
Definition is_lower (c : ascii) : bool := in_range "a" "z" c.

(** The class [\w]. *)
Definition is_word (c : ascii) : bool :=
  (is_digit c || is_upper c || is_lower c || Ascii.eqb c "_")%bool.

(** White space for [int()]: the six characters of C's [isspace]. *)
Definition is_space (c : ascii) : bool :=
  match nat_of_ascii c with
  | 9%nat | 10%nat | 11%nat | 12%nat | 13%nat | 32%nat => true
  | _ => false
  end.

(** White space for [str.strip()] and the class [\s]: [str.isspace],
    which also holds of the four separators 28 to 31. *)
Definition is_pyspace (c : ascii) : bool :=
  (is_space c || in_range (ascii_of_nat 28) (ascii_of_nat 31) c)%bool.

Definition lower_char (c : ascii) : ascii :=
  if is_upper c then ascii_of_nat (nat_of_ascii c + 32) else c.

Fixpoint map_chars (f : ascii -> ascii) (s : string) : string :=
  match s with
  | EmptyString => EmptyString
  | String c s' => String (f c) (map_chars f s')
  end.

Fixpoint filter_chars (p : ascii -> bool) (s : string) : string :=
  match s with
  | EmptyString => EmptyString
  | String c s' => if p c then String c (filter_chars p s') else filter_chars p s'
  end.

(** [s.lower()] *)
Definition lower (s : string) : string := map_chars lower_char s.

(** [s.replace(a, b)] for single characters [a] and [b]. *)
Definition replace_char (a b : ascii) (s : string) : string :=
  map_chars (fun c => if Ascii.eqb c a then b else c) s.

(** [re.sub(c+, c, s)] for one character [c]: every run of [c] becomes
    a single [c]. *)
Fixpoint squeeze (c : ascii) (s : string) : string :=
  match s with
  | EmptyString => EmptyString
  | String x s' =>
      if Ascii.eqb x c then
        match s' with
        | String y _ => if Ascii.eqb y c then squeeze c s' else String x (squeeze c s')
        | EmptyString => String x EmptyString
        end
      else String x (squeeze c s')
  end.

Fixpoint lstrip (p : ascii -> bool) (s : string) : string :=
  match s with
  | EmptyString => EmptyString
  | String c s' => if p c then lstrip p s' else s
  end.

Fixpoint rstrip (p : ascii -> bool) (s : string) : string :=
  match s with
  | EmptyString => EmptyString
  | String c s' =>
      match rstrip p s' with
      | EmptyString => if p c then EmptyString else String c EmptyString
      | r => String c r
      end
  end.

(** [s.strip(chars)], [chars] given as a predicate. *)
Definition strip (p : ascii -> bool) (s : string) : string := rstrip p (lstrip p s).

Fixpoint starts_with (p s : string) : bool :=
  match p, s with
  | EmptyString, _ => true
  | String a p', String b s' => (Ascii.eqb a b && starts_with p' s')%bool
  | String _ _, EmptyString => false
  end.

Fixpoint drop (n : nat) (s : string) : string :=
  match n, s with
  | O, _ => s
  | S n', String _ s' => drop n' s'
  | S _, EmptyString => EmptyString
  end.

(** [s.replace(old, new, 1)]: the first occurrence of [old], if any, is
    replaced; an empty [old] occurs at position 0. *)
Fixpoint replace_first (old new s : string) : string :=
  if starts_with old s then new ++ drop (String.length old) s
  else match s with
       | EmptyString => EmptyString
       | String c s' => String c (replace_first old new s')
       end.

End Py.

Import Py.

(** ** [pageturner.py]: the output file name *)

(** [_sanitize_filename(title)] *)
Definition _sanitize_filename (title : string) : string :=
  let filename := lower title in
  let filename := replace_char " " "_" filename in
  let filename := filter_chars (fun c => (is_word c || Ascii.eqb c "-")%bool) filename in
  let filename := squeeze "_" filename in
  let filename := squeeze "-" filename in
  let filename := strip (fun c => (Ascii.eqb c "_" || Ascii.eqb c "-")%bool) filename in
  filename ++ ".epub".

(** ** Integers and their decimal text *)

Module PyInt.

Definition digit_value (c : ascii) : Z := Z.of_nat (nat_of_ascii c) - 48.

(** Decimal digits, single underscores allowed between two digits.
    [prev] tells whether the previous character was a digit. *)
Fixpoint parse_digits (acc : Z) (prev : bool) (s : string) : option Z :=
  match s with
  | EmptyString => if prev then Some acc else None
  | String c s' =>
      if is_digit c then parse_digits (acc * 10 + digit_value c) true s'
      else if (Ascii.eqb c "_" && prev)%bool then parse_digits acc false s'
      else None
  end.

(** [int(s)]: [None] stands for [ValueError]. *)
Definition int_of_str (s : string) : option Z :=
  match strip is_space s with
  | String "+" r => parse_digits 0 false r
  | String "-" r => Z.opp <$> parse_digits 0 false r
  | r => parse_digits 0 false r
  end.

Definition digit_char (d : Z) : ascii := ascii_of_nat (Z.to_nat d + 48).

Fixpoint digits_of (fuel : nat) (n : Z) (acc : string) : string :=
  match fuel with
  | O => acc
  | S fuel' =>
      let acc' := String (digit_char (n mod 10)) acc in
      if n <? 10 then acc' else digits_of fuel' (n / 10) acc'
  end.

(** [str(n)] *)
Definition str_of_int (n : Z) : string :=
  if n <? 0 then String "-" (digits_of (Z.to_nat (Z.log2 (- n)) + 1) (- n) EmptyString)
  else digits_of (Z.to_nat (Z.log2 n) + 1) n EmptyString.

End PyInt.

Import PyInt.

(** ** The regular expressions of [re], as the navigator uses them *)

Module Re.

(** What [re.search] hands back on success: the text of the groups
    1, 2, ... ([None] for a group that took no part in the match). *)
Record Match : Type := { groups : list (option string) }.

(** [match.group(k)] for [k >= 1]. *)
Definition group (m : Match) (k : nat) : outcome (option string) :=
  match nth_error (groups m) (Nat.pred k) with
  | Some g => Returned g
  | None => Raised IndexError
  end.

(** [re.sub("(\d+)", repl, s, count=1)]: the first run of digits of [s]
    is replaced by [repl] (which holds no backslash here). *)
Fixpoint skip_digits (s : string) : string :=
  match s with
  | String c s' => if is_digit c then skip_digits s' else s
  | EmptyString => EmptyString
  end.

Fixpoint sub_first_digits (repl s : string) : string :=
  match s with
  | EmptyString => EmptyString
  | String c s' =>
      if is_digit c then repl ++ skip_digits s'
      else String c (sub_first_digits repl s')
  end.

(** *** An executable engine for a fragment of the pattern language

    Literal characters, [.], the classes [\d \w \s \D \W \S], escaped
    punctuation, capturing groups, [|] and the greedy [*], [+], [?].
    An iteration of [*] that consumes no character is not taken. *)

Inductive regex : Type :=
| Eps
| Chr (p : ascii -> bool)
| Seq (r1 r2 : regex)
| Alt (r1 r2 : regex)
| Star (r : regex)
| Grp (k : nat) (r : regex).

Definition caps : Type := list (nat * string).

Fixpoint take (n : nat) (s : string) : string :=
  match n, s with
  | S n', String c s' => String c (take n' s')
  | _, _ => EmptyString
  end.

(** Backtracking matcher in continuation-passing style: [k] receives
    the rest of the input and the groups captured so far. *)
Fixpoint exec (r : regex) (s : string) (c : caps)
         (k : string -> caps -> option caps) {struct r} : option caps :=
  match r with
  | Eps => k s c
  | Chr p =>
      match s with
      | String x s' => if p x then k s' c else None
      | EmptyString => None
      end
  | Seq r1 r2 => exec r1 s c (fun s' c' => exec r2 s' c' k)
  | Alt r1 r2 =>
      match exec r1 s c k with
      | Some res => Some res
      | None => exec r2 s c k
      end
  | Star r' =>
      (fix star (n : nat) (s : string) (c : caps) : option caps :=
         match n with
         | O => k s c
         | S n' =>
             match exec r' s c (fun s' c' =>
                     if (String.length s' <? String.length s)%nat
                     then star n' s' c' else None) with
             | Some res => Some res
             | None => k s c
             end
         end) (String.length s) s c
  | Grp g r' =>
      exec r' s c (fun s' c' =>
        k s' ((g, take (String.length s - String.length s') s) :: c'))
  end.

Fixpoint lookup_cap (g : nat) (c : caps) : option string :=
  match c with
  | [] => None
  | (g', t) :: c' => if Nat.eqb g g' then Some t else lookup_cap g c'
  end.

(** Leftmost match: the start positions are tried from left to right. *)
Fixpoint search_from (r : regex) (s : string) : option caps :=
  match exec r s [] (fun _ c => Some c) with
  | Some c => Some c
  | None =>
      match s with
      | EmptyString => None
      | String _ s' => search_from r s'
      end
  end.

Definition search_regex (r : regex) (ngroups : nat) (s : string) : option Match :=
  match search_from r s with
  | Some c => Some {| groups := map (fun g => lookup_cap g c) (seq 1 ngroups) |}
  | None => None
  end.

End Re.

(** *** Reading a pattern of the fragment *)

Module RePattern.
Import Re.

(** One open parenthesis: its group number, the alternatives already
    closed by a [|] and the items of the current one, both latest
    first, and whether the latest item may still take a quantifier. *)
Record frame : Type := {
  f_group : nat;
  f_alts : list regex;
  f_cur : list regex;
  f_quantifiable : bool
}.

Definition new_frame (g : nat) : frame :=
  {| f_group := g; f_alts := []; f_cur := []; f_quantifiable := false |}.

Definition mk_seq (items : list regex) : regex :=
  fold_left (fun acc r => Seq r acc) items Eps.

Definition close (f : frame) : regex :=
  fold_left (fun acc a => Alt a acc) (f_alts f) (mk_seq (f_cur f)).

Definition push_item (r : regex) (stk : list frame) : list frame :=
  match stk with
  | f :: stk' =>
      {| f_group := f_group f; f_alts := f_alts f;
         f_cur := r :: f_cur f; f_quantifiable := true |} :: stk'
  | [] => []
  end.

Definition quantify (q : regex -> regex) (stk : list frame) : option (list frame) :=
  match stk with
  | f :: stk' =>
      match f_cur f, f_quantifiable f with
      | r :: items, true =>
          Some ({| f_group := f_group f; f_alts := f_alts f;
                   f_cur := q r :: items; f_quantifiable := false |} :: stk')
      | _, _ => None
      end
  | [] => None
  end.

Definition escape (c : ascii) : option (ascii -> bool) :=
  if Ascii.eqb c "d" then Some is_digit
  else if Ascii.eqb c "D" then Some (fun x => negb (is_digit x))
  else if Ascii.eqb c "w" then Some is_word
  else if Ascii.eqb c "W" then Some (fun x => negb (is_word x))
  else if Ascii.eqb c "s" then Some is_pyspace
  else if Ascii.eqb c "S" then Some (fun x => negb (is_pyspace x))
  else if (is_digit c || is_upper c || is_lower c)%bool then None
  else Some (Ascii.eqb c).

Definition unsupported (c : ascii) : bool :=
  (Ascii.eqb c "[" || Ascii.eqb c "{" || Ascii.eqb c "^" || Ascii.eqb c "$")%bool.

(** [cnt] is the number of groups opened so far. *)
Fixpoint parse_go (s : string) (stk : list frame) (cnt : nat) : option (regex * nat) :=
  match s with
  | EmptyString =>
      match stk with
      | [f] => Some (close f, cnt)
      | _ => None
      end
  | String c rest =>
      if Ascii.eqb c "\" then
        match rest with
        | String e rest' =>
            match escape e with
            | Some p => parse_go rest' (push_item (Chr p) stk) cnt
            | None => None
            end
        | EmptyString => None
        end
      else if Ascii.eqb c "(" then
        match rest with
        | String "?" _ => None
        | _ => parse_go rest (new_frame (S cnt) :: stk) (S cnt)
        end
      else if Ascii.eqb c ")" then
        match stk with
        | f :: (_ :: _) as stk' => parse_go rest (push_item (Grp (f_group f) (close f)) stk') cnt
        | _ => None
        end
      else if Ascii.eqb c "|" then
        match stk with
        | f :: stk' =>
            parse_go rest
              ({| f_group := f_group f; f_alts := mk_seq (f_cur f) :: f_alts f;
                  f_cur := []; f_quantifiable := false |} :: stk') cnt
        | [] => None
        end
      else if Ascii.eqb c "*" then
        match quantify Star stk with
        | Some stk' => parse_go rest stk' cnt
        | None => None
        end
      else if Ascii.eqb c "+" then
        match quantify (fun r => Seq r (Star r)) stk with
        | Some stk' => parse_go rest stk' cnt
        | None => None
        end
      else if Ascii.eqb c "?" then
        match quantify (fun r => Alt r Eps) stk with
        | Some stk' => parse_go rest stk' cnt
        | None => None
        end
      else if Ascii.eqb c "." then
        parse_go rest (push_item (Chr (fun x => negb (Ascii.eqb x (ascii_of_nat 10)))) stk) cnt
      else if unsupported c then None
      else parse_go rest (push_item (Chr (Ascii.eqb c)) stk) cnt
  end.

Definition parse (pattern : string) : option (regex * nat) :=
  parse_go pattern [new_frame 0] 0.

(** [re.search(pattern, s)] on the fragment.  A pattern the reader
    rejects gives [Raised ReError]: that is what [re] does with an
    ill-formed pattern; a well-formed pattern outside the fragment is
    not covered by this instance. *)
Definition search (pattern s : string) : outcome (option Match) :=
  match parse pattern with
  | Some (r, n) => Returned (search_regex r n s)
  | None => Raised ReError
  end.

End RePattern.

(** ** [chapter_navigator.py] *)

Record URLChapterNavigator : Type := {
  start_url : string;
  url_pattern : string;
  increment_by : Z
}.

Section Navigator.

(** [re.search]: raises on an ill-formed pattern, returns [None] when
    the pattern is found nowhere in the text, a match object else. *)
Variable re_search : string -> string -> outcome (option Re.Match).

Variable self : URLChapterNavigator.

Definition get_start_url : string := start_url self.

(** [int(x)] for [x : str | None]. *)
Definition py_int (x : option string) : outcome Z :=
  match x with
  | None => Raised TypeError
  | Some s =>
      match int_of_str s with
      | Some n => Returned n
      | None => Raised ValueError
      end
  end.

(** [re.sub("(\d+)", repl, x, count=1)] for [x : str | None]. *)
Definition re_sub_digits (repl : string) (x : option string) : outcome string :=
  match x with
  | None => Raised TypeError
  | Some s => Returned (Re.sub_first_digits repl s)
  end.

(** [current_url.replace(old, new, 1)] for [old : str | None]. *)
Definition str_replace1 (current_url : string) (old : option string) (new : string)
  : outcome string :=
  match old with
  | None => Raised TypeError
  | Some o => Returned (replace_first o new current_url)
  end.

(** The group holding the chapter number: the second when the pattern
    has more than one group, the first otherwise. *)
Definition number_group (m : Re.Match) : outcome (option string) :=
  if (1 <? length (Re.groups m))%nat then Re.group m 2 else Re.group m 1.

(** The body of the [try] block (lines 48-69). *)
Definition next_url_body (m : Re.Match) (current_url : string) : outcome (option string) :=
  bind (number_group m) (fun g =>
  bind (py_int g) (fun current_chapter_num =>
  let next_chapter_num := current_chapter_num + increment_by self in
  bind (Re.group m 1) (fun segment_to_replace =>
  bind (re_sub_digits (str_of_int next_chapter_num) segment_to_replace) (fun new_segment =>
  bind (str_replace1 current_url segment_to_replace new_segment) (fun next_url =>
  if String.eqb next_url current_url then Returned None
  else Returned (Some next_url)))))).

(** [except ValueError] and [except IndexError] return [None]; any
    other exception leaves the method. *)
Definition catch_value_index (r : outcome (option string)) : outcome (option string) :=
  match r with
  | Raised ValueError => Returned None
  | Raised IndexError => Returned None
  | _ => r
  end.

Definition get_next_chapter_url (current_url : string) : outcome (option string) :=
  match re_search (url_pattern self) current_url with
  | Raised e => Raised e
  | Returned None => Returned None
  | Returned (Some m) => catch_value_index (next_url_body m current_url)
  end.

(** *** The ways a call ends, told apart

    Each is a test on the same inputs as [get_next_chapter_url]. *)

(** The pattern is found nowhere in the URL. *)
Definition pattern_unmatched (current_url : string) : bool :=
  match re_search (url_pattern self) current_url with
  | Returned None => true
  | _ => false
  end.

(** The pattern is found but has no capturing group. *)
Definition lacks_group (current_url : string) : bool :=
  match re_search (url_pattern self) current_url with
  | Returned (Some m) => match Re.groups m with [] => true | _ => false end
  | _ => false
  end.

(** The text of the number group is not the text of an integer. *)
Definition number_unparsable (current_url : string) : bool :=
  match re_search (url_pattern self) current_url with
  | Returned (Some m) =>
      match number_group m with
      | Returned (Some g) => bool_decide (int_of_str g = None)
      | _ => false
      end
  | _ => false
  end.

(** The next URL as the specification computes it: the number plus the
    increment replaces the first run of digits of the first group, and
    the result replaces the first occurrence of that group in the URL. *)
Definition computed_next_url (current_url : string) : option string :=
  match re_search (url_pattern self) current_url with
  | Returned (Some m) =>
      match number_group m, Re.group m 1 with
      | Returned (Some g), Returned (Some segment) =>
          match int_of_str g with
          | Some n =>
              Some (replace_first segment
                      (Re.sub_first_digits (str_of_int (n + increment_by self)) segment)
                      current_url)
          | None => None
          end
      | _, _ => None
      end
  | _ => None
  end.

(** The computed next URL is the current URL. *)
Definition next_url_unchanged (current_url : string) : bool :=
  bool_decide (computed_next_url current_url = Some current_url).

(** The pattern compiles and, when it is found, its first two groups
    (as far as it has them) took part in the match. *)
Definition groups_took_part (current_url : string) : bool :=
  match re_search (url_pattern self) current_url with
  | Returned (Some m) => forallb (fun g => bool_decide (is_Some g)) (firstn 2 (Re.groups m))
  | Returned None => true
  | Raised _ => false
  end.

End Navigator.

(** ** The parsed document ([bs4]) *)

Module Dom.

(** An element carries an identity [id] (the Python object), its tag
    name, its attributes and its children in document order. *)
#[local] Set Warnings "-register-all".
Inductive node : Type :=
| Text (s : string)
| Elem (id : nat) (name : string) (attrs : list (string * string)) (children : list node).

Definition children_of (n : node) : list node :=
  match n with
  | Text _ => []
  | Elem _ _ _ cs => cs
  end.

Definition is_elem (n : node) : bool :=
  match n with
  | Text _ => false
  | Elem _ _ _ _ => true
  end.

Definition node_id (n : node) : nat :=
  match n with
  | Text _ => O
  | Elem i _ _ _ => i
  end.

(** The elements strictly below [n], in document order. *)
Fixpoint subtrees (n : node) : list node :=
  match n with
  | Text _ => []
  | Elem _ _ _ cs =>
      (fix go (l : list node) : list node :=
         match l with
         | [] => []
         | c :: l' =>
             ((if is_elem c then c :: subtrees c else []) ++ go l')%list
         end) cs
  end.

Definition ids_below (n : node) : list nat := map node_id (subtrees n).

(** [e.decompose()] seen from an ancestor [n] of [e]: the element with
    identity [e] leaves the tree together with everything below it. *)
Fixpoint decompose (e : nat) (n : node) : node :=
  match n with
  | Text s => Text s
  | Elem i nm at_ cs =>
      Elem i nm at_
        ((fix go (l : list node) : list node :=
            match l with
            | [] => []
            | c :: l' =>
                if (is_elem c && Nat.eqb (node_id c) e)%bool then go l'
                else decompose e c :: go l'
            end) cs)
  end.

(** What one child contributes to the elements below its parent, and
    what [decompose e] leaves of one child. *)
Definition below_child (c : node) : list nat :=
  if is_elem c then node_id c :: ids_below c else [].

Definition pruned_child (e : nat) (c : node) : list node :=
  if (is_elem c && Nat.eqb (node_id c) e)%bool then [] else [decompose e c].

(** [tag.get_text(strip=True)]: the text pieces below [tag], each
    stripped of surrounding white space, the empty ones left out. *)
Fixpoint get_text_strip (n : node) : string :=
  match n with
  | Text s => strip is_pyspace s
  | Elem _ _ _ cs =>
      (fix go (l : list node) : string :=
         match l with
         | [] => EmptyString
         | c :: l' => get_text_strip c ++ go l'
         end) cs
  end.

(** *** [str(tag)] *)

Fixpoint escape_text (s : string) : string :=
  match s with
  | EmptyString => EmptyString
  | String c s' =>
      (if Ascii.eqb c "&" then "&amp;"
       else if Ascii.eqb c "<" then "&lt;"
       else if Ascii.eqb c ">" then "&gt;"
       else String c EmptyString) ++ escape_text s'
  end.

Definition void_elements : list string :=
  ["area"; "base"; "br"; "col"; "embed"; "hr"; "img"; "input"; "link"; "meta";
   "param"; "source"; "track"; "wbr"].

Definition is_void (name : string) : bool :=
  existsb (String.eqb name) void_elements.

Definition quote : string := String (ascii_of_nat 34) EmptyString.

Fixpoint str_attrs (l : list (string * string)) : string :=
  match l with
  | [] => EmptyString
  | (k, v) :: l' => " " ++ k ++ "=" ++ quote ++ v ++ quote ++ str_attrs l'
  end.

Fixpoint str (n : node) : string :=
  match n with
  | Text s => escape_text s
  | Elem _ nm at_ cs =>
      match cs with
      | [] =>
          if is_void nm then "<" ++ nm ++ str_attrs at_ ++ "/>"
          else "<" ++ nm ++ str_attrs at_ ++ "></" ++ nm ++ ">"
      | _ =>
          "<" ++ nm ++ str_attrs at_ ++ ">"
          ++ (fix go (l : list node) : string :=
                match l with
                | [] => EmptyString
                | c :: l' => str c ++ go l'
                end) cs
          ++ "</" ++ nm ++ ">"
      end
  end.

End Dom.

(** ** [content_extractor.py] *)

(** One entry of [content_selectors]: a dictionary read with
    [.get('type')] and [.get('selector')]; [None] is a missing key. *)
Record SelectorRule : Type := {
  rule_type : option string;
  rule_selector : option string
}.

Record ContentExtractor : Type := {
  content_selectors : list SelectorRule;
  remove_elements : list string;
  chapter_title_selector : option string
}.

(** [ContentExtractor.__init__] *)
Definition new_ContentExtractor (content_selectors : list SelectorRule)
    (remove_elements : option (list string)) (chapter_title_selector : option string)
  : outcome ContentExtractor :=
  match content_selectors with
  | [] => Raised ValueError
  | _ =>
      Returned {| content_selectors := content_selectors;
                  remove_elements := default [] remove_elements;
                  chapter_title_selector := chapter_title_selector |}
  end.

Section Extractor.
Import Dom.

(** [BeautifulSoup(html, 'lxml')]: the document object. *)
Variable parse_html : string -> node.

(** The selector engine: a selector that does not compile makes
    [select] and [select_one] raise; a compiled selector decides, for
    the document as it is now, whether the element [id] matches. *)
Variable css : string -> option (node -> nat -> bool).

(** [soup.select_one(sel)]: the first element below the document, in
    document order, that matches. *)
Definition select_one (sel : string) (soup : node) : outcome (option node) :=
  match css sel with
  | None => Raised SelectorSyntaxError
  | Some m => Returned (head (List.filter (fun t => m soup (node_id t)) (subtrees soup)))
  end.

(** [tag.select(sel)]: the elements strictly below [tag] that match,
    in document order, computed before any of them is removed. *)
Definition select (sel : string) (soup tag : node) : outcome (list nat) :=
  match css sel with
  | None => Raised SelectorSyntaxError
  | Some m => Returned (List.filter (m soup) (ids_below tag))
  end.

(** The inner loop of [_remove_unwanted_elements].  The document and
    the content tag are two views of one object graph: an element
    that is decomposed leaves both. *)
Definition decompose_all (es : list nat) (st : node * node) : node * node :=
  fold_left (fun st e => (decompose e (fst st), decompose e (snd st))) es st.

(** [_remove_unwanted_elements(content_tag)], the selectors taken in
    order; the state is the document and the content tag. *)
Fixpoint _remove_unwanted_elements (sels : list string) (st : node * node)
  : outcome (node * node) :=
  match sels with
  | [] => Returned st
  | sel :: rest =>
      match select sel (fst st) (snd st) with
      | Raised e => Raised e
      | Returned es => _remove_unwanted_elements rest (decompose_all es st)
      end
  end.

(** The loop over [content_selectors] (lines 60-78): the content tag
    or [None]. *)
Fixpoint find_main_content (rules : list SelectorRule) (soup : node)
  : outcome (option node) :=
  match rules with
  | [] => Returned None
  | selector_config :: rest =>
      let selector_type := rule_type selector_config in
      let selector_value := rule_selector selector_config in
      if (negb (truthy_opt selector_type) || negb (truthy_opt selector_value))%bool
      then find_main_content rest soup
      else if bool_decide (selector_type = Some "css_selector") then
        match select_one (default EmptyString selector_value) soup with
        | Raised e => Raised e
        | Returned (Some found_tag) => Returned (Some found_tag)
        | Returned None => find_main_content rest soup
        end
      else find_main_content rest soup
  end.

(** The optional title (lines 50-58). *)
Definition extract_title (self : ContentExtractor) (soup : node) : outcome (option string) :=
  if truthy_opt (chapter_title_selector self) then
    match select_one (default EmptyString (chapter_title_selector self)) soup with
    | Raised e => Raised e
    | Returned (Some title_tag) => Returned (Some (get_text_strip title_tag))
    | Returned None => Returned None
    end
  else Returned None.

(** [extract_content(html_content)]: the pair (title, content). *)
Definition extract_content (self : ContentExtractor) (html_content : string)
  : outcome (option string * option string) :=
  if negb (truthy html_content) then Returned (None, None)
  else
    let soup := parse_html html_content in
    bind (extract_title self soup) (fun extracted_title =>
    bind (find_main_content (content_selectors self) soup) (fun main_content_tag =>
    match main_content_tag with
    | None => Returned (extracted_title, None)
    | Some tag =>
        bind (_remove_unwanted_elements (remove_elements self) (soup, tag)) (fun st =>
        Returned (extracted_title, Some (str (snd st))))
    end)).

(** *** Rules that yield nothing, rules that yield the content *)

(** The rule is passed over without a query: a field is missing or
    empty, or the type is not [css_selector]. *)
Definition rule_skipped (r : SelectorRule) : bool :=
  (negb (truthy_opt (rule_type r)) || negb (truthy_opt (rule_selector r))
   || negb (bool_decide (rule_type r = Some "css_selector")))%bool.

(** The rule leaves the loop going: it is skipped, or its query finds
    no element. *)
Definition rule_misses (soup : node) (r : SelectorRule) : bool :=
  (rule_skipped r
   || match select_one (default EmptyString (rule_selector r)) soup with
      | Returned None => true
      | _ => false
      end)%bool.

(** The rule is queried and finds [tag]. *)
Definition rule_hits (soup : node) (r : SelectorRule) (tag : node) : Prop :=
  rule_skipped r = false ∧
  select_one (default EmptyString (rule_selector r)) soup = Returned (Some tag).

(** The selector compiles. *)
Definition compiles (sel : string) : bool :=
  match css sel with
  | Some _ => true
  | None => false
  end.

(** Is some element of [tag], [tag] included, matched by a selector of
    [sels] in the document [soup]? *)
Definition some_element_matches (sels : list string) (soup tag : node) : bool :=
  existsb (fun sel =>
    match css sel with
    | Some m => existsb (m soup) (node_id tag :: ids_below tag)
    | None => false
    end) sels.

End Extractor.

(** *** An executable selector engine for compound selectors

    [tag], [.class], [#id], the pseudo-class [:empty] and their
    juxtapositions ([div.ad], [p#x.y], [p:empty]); a selector with any
    other character or pseudo-class is rejected here. *)

Module SimpleCss.
Import Dom.

Record compound : Type := {
  c_tag : option string;
  c_classes : list string;
  c_ids : list string;
  c_empty : bool
}.

Inductive part : Type := PTag | PClass | PId | PPseudo.

Definition add_part (k : part) (w : string) (c : compound) : option compound :=
  match k, w with
  | PTag, EmptyString => Some c
  | _, EmptyString => None
  | PTag, _ =>
      Some {| c_tag := Some w; c_classes := c_classes c; c_ids := c_ids c;
              c_empty := c_empty c |}
  | PClass, _ =>
      Some {| c_tag := c_tag c; c_classes := w :: c_classes c; c_ids := c_ids c;
              c_empty := c_empty c |}
  | PId, _ =>
      Some {| c_tag := c_tag c; c_classes := c_classes c; c_ids := w :: c_ids c;
              c_empty := c_empty c |}
  | PPseudo, _ =>
      if String.eqb w "empty" then
        Some {| c_tag := c_tag c; c_classes := c_classes c; c_ids := c_ids c;
                c_empty := true |}
      else None
  end.

Definition is_ident_char (c : ascii) : bool := (is_word c || Ascii.eqb c "-")%bool.

Definition part_of (x : ascii) : option part :=
  if Ascii.eqb x "." then Some PClass
  else if Ascii.eqb x "#" then Some PId
  else if Ascii.eqb x ":" then Some PPseudo
  else None.

(** [k] and [w]: the kind of the part being read and its text so far,
    latest character first. *)
Fixpoint parse_go (s : string) (k : part) (w : string) (c : compound) : option compound :=
  match s with
  | EmptyString => add_part k (String.rev w) c
  | String x s' =>
      if is_ident_char x then parse_go s' k (String x w) c
      else
        match part_of x, add_part k (String.rev w) c with
        | Some k', Some c' => parse_go s' k' EmptyString c'
        | _, _ => None
        end
  end.

Definition parse (sel : string) : option compound :=
  match sel with
  | EmptyString => None
  | _ =>
      parse_go sel PTag EmptyString
        {| c_tag := None; c_classes := []; c_ids := []; c_empty := false |}
  end.

Fixpoint attr (k : string) (l : list (string * string)) : option string :=
  match l with
  | [] => None
  | (k', v) :: l' => if String.eqb k k' then Some v else attr k l'
  end.

Definition has_class (at_ : list (string * string)) (c : string) : bool :=
  match attr "class" at_ with
  | Some v => existsb (String.eqb c) (String.words v)
  | None => false
  end.

(** [:empty]: no element child and no text but the white space of CSS
    (space, tab, line feed, form feed, carriage return). *)
Definition is_css_space (c : ascii) : bool :=
  match nat_of_ascii c with
  | 9%nat | 10%nat | 12%nat | 13%nat | 32%nat => true
  | _ => false
  end.

Definition is_blank (n : node) : bool :=
  match n with
  | Text s => negb (truthy (filter_chars (fun c => negb (is_css_space c)) s))
  | Elem _ _ _ _ => false
  end.

Definition matches_node (c : compound) (n : node) : bool :=
  match n with
  | Text _ => false
  | Elem _ nm at_ cs =>
      (match c_tag c with Some t => String.eqb t nm | None => true end
       && forallb (has_class at_) (c_classes c)
       && forallb (fun i => bool_decide (attr "id" at_ = Some i)) (c_ids c)
       && (negb (c_empty c) || forallb is_blank cs))%bool
  end.

(** Does the element with identity [i] of [soup] match? *)
Definition matches (c : compound) (soup : node) (i : nat) : bool :=
  match List.find (fun t => Nat.eqb (node_id t) i) (subtrees soup) with
  | Some t => matches_node c t
  | None => false
  end.

Definition css (sel : string) : option (node -> nat -> bool) :=
  matches <$> parse sel.

End SimpleCss.

(** ** [pageturner.py]: the traversal loop of [main] *)

Record ChapterRecord : Type := {
  title : string;
  html_content : string
}.

(** What the loop does to the outside world and to the visited set, in
    the order it does it. *)
Inductive event : Type :=
| EvAdd (url : string)      (* processed_urls.add(url) *)
| EvFetch (url : string).   (* loader.fetch_page(url) *)

(** The variables of the loop; [trace] is a ghost field holding the
    events so far, latest first. *)
Record TraversalState : Type := {
  current_chapter_url : string;
  processed_urls : gset string;
  chapter_number : Z;
  chapter_contents : list ChapterRecord;
  consecutive_empty_chapters : Z;
  trace : list event
}.

Inductive stop_reason : Type :=
| WhileExit        (* the [while] condition is false *)
| UrlLoop          (* line 152 *)
| FetchFailed      (* line 188 *)
| EmptyStreak      (* line 177 *)
| NavigatorEnd.    (* line 183 *)

(** One pass through the loop body: the loop goes on, is left by
    [break] or by its condition, or an exception leaves [main]'s [try]. *)
Inductive step_result : Type :=
| Continue (st : TraversalState)
| Break (r : stop_reason) (st : TraversalState)
| Abort (e : exn) (st : TraversalState).

Definition state_of (r : step_result) : TraversalState :=
  match r with
  | Continue st | Break _ st | Abort _ st => st
  end.

(** The URLs fetched so far, latest first. *)
Fixpoint fetched (tr : list event) : list string :=
  match tr with
  | [] => []
  | EvFetch u :: tr' => u :: fetched tr'
  | EvAdd _ :: tr' => fetched tr'
  end.

Section Traversal.

(** [loader.fetch_page(url)]: the page text or [None]; the answer may
    depend on what was fetched before (latest first). *)
Variable fetch_page : list string -> string -> option string.

(** [extractor.extract_content] and [navigator.get_next_chapter_url]. *)
Variable extract : string -> outcome (option string * option string).
Variable next_chapter_url : string -> outcome (option string).

(** [config.get('consecutive_empty_chapters_threshold', 3)] *)
Variable empty_chapter_threshold : Z.

Definition initial_state (start : string) : TraversalState :=
  {| current_chapter_url := start;
     processed_urls := ∅;
     chapter_number := 1;
     chapter_contents := [];
     consecutive_empty_chapters := 0;
     trace := [] |}.

(** Lines 155-159: the URL joins the visited set, then is fetched. *)
Definition visit (st : TraversalState) : TraversalState :=
  let url := current_chapter_url st in
  {| current_chapter_url := url;
     processed_urls := {[ url ]} ∪ processed_urls st;
     chapter_number := chapter_number st;
     chapter_contents := chapter_contents st;
     consecutive_empty_chapters := consecutive_empty_chapters st;
     trace := EvFetch url :: EvAdd url :: trace st |}.

(** Lines 167-173. *)
Definition record_chapter (extracted_title : option string) (extracted_content : string)
    (st : TraversalState) : TraversalState :=
  let chapter_title_to_use :=
    if truthy_opt extracted_title then default EmptyString extracted_title
    else "Chapter " ++ str_of_int (chapter_number st) in
  {| current_chapter_url := current_chapter_url st;
     processed_urls := processed_urls st;
     chapter_number := chapter_number st;
     chapter_contents :=
       (chapter_contents st ++
          [{| title := chapter_title_to_use; html_content := extracted_content |}])%list;
     consecutive_empty_chapters := 0;
     trace := trace st |}.

(** Line 176. *)
Definition count_empty (st : TraversalState) : TraversalState :=
  {| current_chapter_url := current_chapter_url st;
     processed_urls := processed_urls st;
     chapter_number := chapter_number st;
     chapter_contents := chapter_contents st;
     consecutive_empty_chapters := consecutive_empty_chapters st + 1;
     trace := trace st |}.

(** Lines 186-187. *)
Definition move_to (next_url : string) (st : TraversalState) : TraversalState :=
  {| current_chapter_url := next_url;
     processed_urls := processed_urls st;
     chapter_number := chapter_number st + 1;
     chapter_contents := chapter_contents st;
     consecutive_empty_chapters := consecutive_empty_chapters st;
     trace := trace st |}.

(** Lines 182-187. *)
Definition advance (st : TraversalState) : step_result :=
  match next_chapter_url (current_chapter_url st) with
  | Raised e => Abort e st
  | Returned None => Break NavigatorEnd st
  | Returned (Some next_url) => Continue (move_to next_url st)
  end.

(** Lines 151-190: the loop condition and one pass through the body. *)
Definition loop_iteration (st : TraversalState) : step_result :=
  let url := current_chapter_url st in
  if negb (truthy url) then Break WhileExit st
  else if bool_decide (url ∈ processed_urls st) then Break UrlLoop st
  else
    let chapter_html := fetch_page (fetched (trace st)) url in
    let st := visit st in
    if truthy_opt chapter_html then
      match extract (default EmptyString chapter_html) with
      | Raised e => Abort e st
      | Returned (extracted_title, extracted_content) =>
          if truthy_opt extracted_content then
            advance (record_chapter extracted_title (default EmptyString extracted_content) st)
          else
            let st := count_empty st in
            if consecutive_empty_chapters st >=? empty_chapter_threshold
            then Break EmptyStreak st
            else advance st
      end
    else Break FetchFailed st.

(** [n] passes of the loop; [Continue st] when it is still running. *)
Fixpoint run (n : nat) (st : TraversalState) : step_result :=
  match n with
  | O => Continue st
  | S n' =>
      match loop_iteration st with
      | Continue st' => run n' st'
      | r => r
      end
  end.

(** The states a pass can end in, by what happened to the page. *)
Inductive pass : TraversalState -> TraversalState -> Prop :=
| pass_none st : pass st st
| pass_fetched st :
    truthy (current_chapter_url st) = true ->
    current_chapter_url st ∉ processed_urls st -> pass st (visit st)
| pass_chapter st t c :
    truthy (current_chapter_url st) = true ->
    current_chapter_url st ∉ processed_urls st -> pass st (record_chapter t c (visit st))
| pass_empty st :
    truthy (current_chapter_url st) = true ->
    current_chapter_url st ∉ processed_urls st -> pass st (count_empty (visit st)).

(** *** Runs of pages without content *)

(** The page at the current URL is fetched and yields no content. *)
Definition empty_page (st : TraversalState) : bool :=
  let url := current_chapter_url st in
  (truthy url && negb (bool_decide (url ∈ processed_urls st))
   && match fetch_page (fetched (trace st)) url with
      | Some html =>
          truthy html
          && match extract html with
             | Returned (_, content) => negb (truthy_opt content)
             | Raised _ => false
             end
      | None => false
      end)%bool.

(** The traversal, being at [st], meets the pages [pages] one after the
    other, none with content: each is the current URL in its turn, is
    fetched with success, and the navigator leads from it to the next. *)
Fixpoint empty_run (st : TraversalState) (pages : list string) : bool :=
  match pages with
  | [] => true
  | u :: rest =>
      (String.eqb (current_chapter_url st) u && empty_page st
       && match rest with
          | [] => true
          | u' :: _ =>
              match next_chapter_url u with
              | Returned (Some v) =>
                  String.eqb v u' && empty_run (move_to u' (count_empty (visit st))) rest
              | _ => false
              end
          end)%bool
  end.

(** Each fetch of a URL comes after the URL was added to the visited
    set and after no other fetch of it ([tr] is latest first). *)
Fixpoint added_before_fetched_once (tr : list event) : Prop :=
  match tr with
  | [] => True
  | EvFetch u :: older =>
      In (EvAdd u) older ∧ ¬ In (EvFetch u) older ∧ added_before_fetched_once older
  | EvAdd _ :: older => added_before_fetched_once older
  end.

(** What holds of the trace and the visited set between two passes:
    the temporal order of the events, every fetched URL is in the
    visited set, no URL was fetched twice, and the visited URLs are
    non-empty strings. *)
Definition visited_inv (st : TraversalState) : Prop :=
  added_before_fetched_once (trace st)
  /\ (forall u, In (EvFetch u) (trace st) -> u ∈ processed_urls st)
  /\ NoDup (fetched (trace st))
  /\ (forall u, u ∈ processed_urls st -> truthy u = true).

End Traversal.

(** The loop as [main] sets it up (lines 126-149): the navigator and
    the extractor built from the configuration, the threshold read from
    it (3 when the key is absent), the start URL as first URL. *)
Definition main_loop
    (re_search : string -> string -> outcome (option Re.Match))
    (parse_html : string -> Dom.node) (css : string -> option (Dom.node -> nat -> bool))
    (fetch_page : list string -> string -> option string)
    (navigator : URLChapterNavigator) (extractor : ContentExtractor)
    (consecutive_empty_chapters_threshold : option Z) (n : nat) : step_result :=
  run fetch_page (extract_content parse_html css extractor)
      (get_next_chapter_url re_search navigator)
      (default 3 consecutive_empty_chapters_threshold) n
      (initial_state (get_start_url navigator)).

(** ** Fixtures: a navigator, a few pages and a small site *)

Definition navigator (pattern : string) (inc : Z) : URLChapterNavigator :=
  {| start_url := "https://x.test/chapter-1.html"; url_pattern := pattern; increment_by := inc |}.

Module Fixture.
Import Dom.

Definition document (cs : list node) : node := Elem 0 "[document]" [] cs.

(** A chapter page: a heading, the text and an advertisement. *)
Definition page_full : string :=
  "<h1> One </h1><article><p>Text</p><div class='ad'>Buy</div></article>".

Definition doc_full : node :=
  document
    [Elem 1 "html" []
       [Elem 2 "body" []
          [Elem 3 "h1" [] [Text " One "];
           Elem 4 "article" []
             [Elem 5 "p" [] [Text "Text"];
              Elem 6 "div" [("class", "ad")] [Text "Buy"]]]]].

(** A page without the content block. *)
Definition page_blank : string := "<p>Coming soon</p>".

Definition doc_blank : node :=
  document [Elem 1 "html" [] [Elem 2 "body" [] [Elem 3 "p" [] [Text "Coming soon"]]]].

(** A page whose content block is a [div] holding another [div]. *)
Definition page_nested : string := "<div><p>Text</p><div class='ad'>Buy</div></div>".

Definition doc_nested : node :=
  document
    [Elem 1 "html" []
       [Elem 2 "body" []
          [Elem 3 "div" []
             [Elem 4 "p" [] [Text "Text"];
              Elem 5 "div" [("class", "ad")] [Text "Buy"]]]]].

(** A page whose content block holds a paragraph with nothing but a
    widget in it. *)
Definition page_widget : string :=
  "<article><p><span>Share</span></p><p>Text</p></article>".

Definition doc_widget : node :=
  document
    [Elem 1 "html" []
       [Elem 2 "body" []
          [Elem 3 "article" []
             [Elem 4 "p" [] [Elem 5 "span" [] [Text "Share"]];
              Elem 6 "p" [] [Text "Text"]]]]].

(** The parser on these pages. *)
Definition parse_html (html : string) : node :=
  if String.eqb html page_full then doc_full
  else if String.eqb html page_blank then doc_blank
  else if String.eqb html page_nested then doc_nested
  else if String.eqb html page_widget then doc_widget
  else document [].

Definition css_rule (sel : string) : SelectorRule :=
  {| rule_type := Some "css_selector"; rule_selector := Some sel |}.

Definition extractor : ContentExtractor :=
  {| content_selectors := [css_rule "article"];
     remove_elements := [".ad"];
     chapter_title_selector := Some "h1" |}.

Definition untitled_extractor : ContentExtractor :=
  {| content_selectors := [css_rule "article"];
     remove_elements := [".ad"];
     chapter_title_selector := None |}.

Definition widget_extractor : ContentExtractor :=
  {| content_selectors := [css_rule "article"];
     remove_elements := ["p:empty"; "span"];
     chapter_title_selector := None |}.

Definition div_extractor : ContentExtractor :=
  {| content_selectors := [css_rule "div"];
     remove_elements := ["div"];
     chapter_title_selector := None |}.

(** A site of five pages: chapters 1 and 2, two pages without content,
    chapter 5; anything else cannot be fetched.  The answers do not
    depend on the history. *)
Definition site (history : list string) (url : string) : option string :=
  if String.eqb url "https://x.test/c-1.html" then Some page_full
  else if String.eqb url "https://x.test/c-2.html" then Some page_full
  else if String.eqb url "https://x.test/c-3.html" then Some page_blank
  else if String.eqb url "https://x.test/c-4.html" then Some page_blank
  else if String.eqb url "https://x.test/c-5.html" then Some page_full
  else None.

Definition site_navigator : URLChapterNavigator :=
  {| start_url := "https://x.test/c-1.html";
     url_pattern := "(/c-(\d+)\.html)";
     increment_by := 1 |}.

End Fixture.

(** * The rest of the program *)

(** ** More of Python's strings and paths *)

Module PyStr.

Fixpoint all_chars (p : ascii -> bool) (s : string) : bool :=
  match s with
  | EmptyString => true
  | String c s' => (p c && all_chars p s')%bool
  end.

Fixpoint any_char (p : ascii -> bool) (s : string) : bool :=
  match s with
  | EmptyString => false
  | String c s' => (p c || any_char p s')%bool
  end.


(** [new] before every character of [s]. *)
Fixpoint before_each (new s : string) : string :=
  match s with
  | EmptyString => EmptyString
  | String c s' => new ++ String c (before_each new s')
  end.

(** The occurrences of a non-empty [old] from left to right, without
    overlap; [skip] characters of the occurrence just replaced are
    still to be passed over. *)
Fixpoint replace_go (old new : string) (skip : nat) (s : string) : string :=
  match s with
  | EmptyString => EmptyString
  | String c s' =>
      match skip with
      | S k => replace_go old new k s'
      | O =>
          if starts_with old s then new ++ replace_go old new (Nat.pred (String.length old)) s'
          else String c (replace_go old new O s')
      end
  end.

(** [s.replace(old, new)]; an empty [old] occurs before every character
    and at the end. *)
Definition replace_all (old new s : string) : string :=
  match old with
  | EmptyString => before_each new s ++ new
  | _ => replace_go old new O s
  end.

(** [s.split(c)[-1]] for a character [c]: what follows the last [c];
    [cur] is the part read since the last [c], latest first. *)
Fixpoint after_last_go (c : ascii) (s cur : string) : string :=
  match s with
  | EmptyString => String.rev cur
  | String x s' =>
      if Ascii.eqb x c then after_last_go c s' EmptyString
      else after_last_go c s' (String x cur)
  end.

Definition after_last (c : ascii) (s : string) : string := after_last_go c s EmptyString.

(** The suffix of [s] that starts at its last dot. *)
Fixpoint from_last_dot (s : string) : option string :=
  match s with
  | EmptyString => None
  | String c s' =>
      match from_last_dot s' with
      | Some e => Some e
      | None => if Ascii.eqb c "." then Some s else None
      end
  end.

(** [os.path.splitext(p)[1]] (POSIX): the extension of the last
    component, from its last dot, provided a character other than a
    dot comes before that dot in the component. *)
Definition splitext_ext (p : string) : string :=
  let name := after_last "/" p in
  match from_last_dot name with
  | Some e =>
      if any_char (fun c => negb (Ascii.eqb c "."))
           (Re.take (String.length name - String.length e) name)
      then e else EmptyString
  | None => EmptyString
  end.

End PyStr.

(** ** [epub_generator.py] *)

Module Epub.

(** [epub.EpubHtml(title=..., file_name=..., lang=...)] with its
    [content]. *)
Record EpubHtml : Type := {
  html_title : string;
  file_name : string;
  lang : string;
  content : string
}.

(** [epub.Link(href, title, uid)] *)
Record Link : Type := {
  href : string;
  link_title : string;
  uid : string
}.

(** The cover item given to the book. *)
Record Cover : Type := {
  cover_filename : string;
  media_type : string;
  image_bytes : string
}.

(** One entry of [chapter_data_list]: a dictionary read with
    [.get("title", ...)] and [.get("html_content")]. *)
Record ChapterData : Type := {
  data_title : option string;
  data_html_content : option string
}.

(** The generator: what [__init__] stores, what [_set_metadata] gives
    the book as identifier, the chapters and table of contents
    collected so far, and the cover once the book has one. *)
Record EpubGenerator : Type := {
  identifier : string;
  novel_title : string;
  novel_author : string;
  language : string;
  output_path : string;
  cover_image_url : option string;
  has_page_loader : bool;
  chapters : list EpubHtml;
  toc_items : list Link;
  cover : option Cover
}.

(** [__init__] with [_set_metadata]: the identifier is
    [output_path.split('/')[-1].replace('.epub', '')]. *)
Definition init (novel_title novel_author language output_path : string)
    (cover_image_url : option string) (has_page_loader : bool) : EpubGenerator :=
  {| identifier := PyStr.replace_all ".epub" EmptyString (PyStr.after_last "/" output_path);
     novel_title := novel_title;
     novel_author := novel_author;
     language := language;
     output_path := output_path;
     cover_image_url := cover_image_url;
     has_page_loader := has_page_loader;
     chapters := [];
     toc_items := [];
     cover := None |}.

Definition node_name (n : Dom.node) : string :=
  match n with
  | Dom.Text _ => EmptyString
  | Dom.Elem _ nm _ _ => nm
  end.

(** [str(soup)] for the document object: its children, no tag of its
    own. *)
Definition str_document (soup : Dom.node) : string :=
  fold_right (fun c acc => Dom.str c ++ acc) EmptyString (Dom.children_of soup).

Section Generator.

(** [BeautifulSoup(html, 'html.parser')] *)
Variable html_parser : string -> Dom.node.

(** [page_loader.fetch_image_bytes(url)] *)
Variable fetch_image_bytes : string -> option string.

(** [urlparse(url).path]; [urlparse] raises [ValueError] on some
    ill-formed URLs. *)
Variable urlparse_path : string -> outcome string.

(** [epub.write_epub(output_path, book, {})]: does the file get
    written? *)
Variable write_epub : EpubGenerator -> bool.

(** Lines 111-116: the chapter content inside a [body] tag. *)
Definition body_content (html_content : string) : string :=
  let soup := html_parser html_content in
  match head (List.filter (fun t => String.eqb (node_name t) "body") (Dom.subtrees soup)) with
  | Some body => Dom.str body
  | None => "<body>" ++ str_document soup ++ "</body>"
  end.

Definition number (i : nat) : string := str_of_int (Z.of_nat (i + 1)).

(** The loop of [add_chapters], [i] being the index [enumerate] gives
    to the head of [l]. *)
Fixpoint add_chapters_from (i : nat) (l : list ChapterData) (self : EpubGenerator)
  : EpubGenerator :=
  match l with
  | [] => self
  | chapter_data :: rest =>
      let chapter_title := default ("Chapter " ++ number i) (data_title chapter_data) in
      let html_content := data_html_content chapter_data in
      if negb (truthy_opt html_content) then add_chapters_from (S i) rest self
      else
        let chapter_id := "chap_" ++ number i in
        let chapter_file_name := "chapter_" ++ number i ++ ".xhtml" in
        let c := {| html_title := chapter_title;
                    file_name := chapter_file_name;
                    lang := language self;
                    content := body_content (default EmptyString html_content) |} in
        add_chapters_from (S i) rest
          {| identifier := identifier self;
             novel_title := novel_title self;
             novel_author := novel_author self;
             language := language self;
             output_path := output_path self;
             cover_image_url := cover_image_url self;
             has_page_loader := has_page_loader self;
             chapters := (chapters self ++ [c])%list;
             toc_items :=
               (toc_items self ++
                  [{| href := chapter_file_name; link_title := chapter_title;
                      uid := chapter_id |}])%list;
             cover := cover self |}
  end.

Definition add_chapters (chapter_data_list : list ChapterData) (self : EpubGenerator)
  : EpubGenerator :=
  add_chapters_from O chapter_data_list self.

(** Lines 71-72: the extension of the cover file. *)
Definition cover_ext (path : string) : string :=
  let ext := lower (PyStr.splitext_ext path) in
  let ext := if truthy ext then ext else ".jpg" in
  if String.eqb ext ".jpeg" then ".jpg" else ext.

(** [_add_cover_image]: the cover to add, if any. *)
Definition _add_cover_image (self : EpubGenerator) : outcome (option Cover) :=
  if (negb (truthy_opt (cover_image_url self)) || negb (has_page_loader self))%bool
  then Returned None
  else
    let url := default EmptyString (cover_image_url self) in
    let image_bytes := fetch_image_bytes url in
    if truthy_opt image_bytes then
      bind (urlparse_path url) (fun path =>
      let ext := cover_ext path in
      let media_type := "image/" ++ lstrip (fun c => Ascii.eqb c ".") ext in
      if negb (existsb (String.eqb ext) [".jpg"; ".png"; ".gif"]) then Returned None
      else
        Returned (Some {| cover_filename := "cover" ++ ext;
                          media_type := media_type;
                          image_bytes := default EmptyString image_bytes |}))
    else Returned None.

(** What [generate_epub] raises besides what [_add_cover_image] does:
    the failure of [write_epub], raised again. *)
Inductive failure : Type :=
| Exn (e : exn)
| WriteFailed.

(** [generate_epub]: the generator as written to the file, or the
    failure. *)
Definition generate_epub (self : EpubGenerator) : EpubGenerator + failure :=
  match _add_cover_image self with
  | Raised e => inr (Exn e)
  | Returned c =>
      let self :=
        {| identifier := identifier self;
           novel_title := novel_title self;
           novel_author := novel_author self;
           language := language self;
           output_path := output_path self;
           cover_image_url := cover_image_url self;
           has_page_loader := has_page_loader self;
           chapters := chapters self;
           toc_items := toc_items self;
           cover := c |} in
      if write_epub self then inl self else inr WriteFailed
  end.

End Generator.

End Epub.

(** ** [pageturner.py]: [main] from the loaded configuration on *)

(** The configuration dictionary: every key may be absent; a key that
    is present holds a value of the type the program expects. *)
Module Config.

(** One entry of [next_chapter_selectors]. *)
Record NavRule : Type := {
  type : option string;
  pattern : option string;
  increment_by : option Z
}.

Record t : Type := {
  novel_title : option string;
  start_url : option string;
  content_selectors : option (list SelectorRule);
  next_chapter_selectors : option (list NavRule);
  remove_elements : option (list string);
  chapter_title_selector : option string;
  novel_author : option string;
  language : option string;
  cover_image_url : option string;
  consecutive_empty_chapters_threshold : option Z
}.

Definition is_url_pattern (s : NavRule) : bool :=
  bool_decide (type s = Some "url_pattern").

End Config.

Definition DEFAULT_OUTPUT_FILENAME : string := "output.epub".

(** How [main] ends: [sys.exit(1)], the warning that no chapter was
    extracted, or the EPUB written.  The URLs fetched (latest first)
    and the final state of the loop are kept for the record. *)
Inductive main_result : Type :=
| SysExit1 (fetches : list string)
| NoEpub (st : TraversalState)
| Wrote (st : TraversalState) (book : Epub.EpubGenerator).

Section Main.

Variable re_search : string -> string -> outcome (option Re.Match).

(** [urlparse(url)]: scheme, netloc and path, or [ValueError]. *)
Variable urlparse : string -> outcome (string * string * string).

Variable parse_html : string -> Dom.node.
Variable css : string -> option (Dom.node -> nat -> bool).
Variable fetch_page : list string -> string -> option string.
Variable fetch_image_bytes : string -> option string.
Variable html_parser : string -> Dom.node.
Variable write_epub : Epub.EpubGenerator -> bool.

(** [URLChapterNavigator._get_base_url] *)
Definition _get_base_url (url : string) : outcome string :=
  bind (urlparse url) (fun parsed =>
  Returned (fst (fst parsed) ++ "://" ++ snd (fst parsed))).

(** [URLChapterNavigator.__init__]; the base URL is computed, stored
    and never read. *)
Definition new_URLChapterNavigator (start_url url_pattern : string) (increment_by : Z)
  : outcome URLChapterNavigator :=
  bind (_get_base_url start_url) (fun _base_url =>
  Returned {| start_url := start_url; url_pattern := url_pattern;
              increment_by := increment_by |}).

(** Lines 95-97: the keys [main] insists on. *)
Definition valid_config (config : Config.t) : bool :=
  (bool_decide (is_Some (Config.novel_title config))
   && bool_decide (is_Some (Config.start_url config))
   && bool_decide (is_Some (Config.content_selectors config))
   && match Config.next_chapter_selectors config with
      | Some rules => existsb Config.is_url_pattern rules
      | None => false
      end)%bool.

(** Lines 111-117: the output file. *)
Definition output_file (args_output : string) (config : Config.t) : string :=
  if String.eqb args_output DEFAULT_OUTPUT_FILENAME
  then _sanitize_filename (default "untitled_novel" (Config.novel_title config))
  else args_output.

(** Line 135: the first entry of type [url_pattern]. *)
Definition url_pattern_config (config : Config.t) : option Config.NavRule :=
  List.find Config.is_url_pattern (default [] (Config.next_chapter_selectors config)).

Definition chapter_data (r : ChapterRecord) : Epub.ChapterData :=
  {| Epub.data_title := Some (title r); Epub.data_html_content := Some (html_content r) |}.

(** Lines 194-206: after the loop. *)
Definition after_loop (output : string) (config : Config.t) (st : TraversalState)
  : main_result :=
  match chapter_contents st with
  | [] => NoEpub st
  | _ =>
      let generator :=
        Epub.init (default EmptyString (Config.novel_title config))
          (default "Unknown" (Config.novel_author config))
          (default "en" (Config.language config))
          output (Config.cover_image_url config) true in
      let generator :=
        Epub.add_chapters html_parser (map chapter_data (chapter_contents st)) generator in
      match Epub.generate_epub fetch_image_bytes
              (fun url => bind (urlparse url) (fun parsed => Returned (snd parsed)))
              write_epub generator with
      | inl book => Wrote st book
      | inr _ => SysExit1 (fetched (trace st))
      end
  end.

(** Lines 94-212, the loop given [n] passes: [None] when the loop is
    still running after them. *)
Definition main (args_output : string) (config : Config.t) (n : nat) : option main_result :=
  if negb (valid_config config) then Some (SysExit1 [])
  else
    let output := output_file args_output config in
    match url_pattern_config config with
    | None => Some (SysExit1 [])
    | Some rule =>
        match Config.pattern rule with
        | None => Some (SysExit1 [])
        | Some pattern =>
            match new_URLChapterNavigator (default EmptyString (Config.start_url config))
                    pattern (default 1 (Config.increment_by rule)),
                  new_ContentExtractor (default [] (Config.content_selectors config))
                    (Some (default [] (Config.remove_elements config)))
                    (Config.chapter_title_selector config) with
            | Returned navigator, Returned extractor =>
                match run fetch_page (extract_content parse_html css extractor)
                        (get_next_chapter_url re_search navigator)
                        (default 3 (Config.consecutive_empty_chapters_threshold config)) n
                        (initial_state (get_start_url navigator)) with
                | Continue _ => None
                | Break _ st => Some (after_loop output config st)
                | Abort _ st => Some (SysExit1 (fetched (trace st)))
                end
            | _, _ => Some (SysExit1 [])
            end
        end
    end.

End Main.

(** ** One pass of the loop, case by case *)

Section Iteration.

Variable fetch_page : list string -> string -> option string.
Variable extract : string -> outcome (option string * option string).
Variable next_chapter_url : string -> outcome (option string).
Variable empty_chapter_threshold : Z.

(** [iteration st r]: the pass from [st] ends as [r]. *)
Inductive iteration (st : TraversalState) : step_result -> Prop :=
| it_while_exit :
    truthy (current_chapter_url st) = false ->
    iteration st (Break WhileExit st)
| it_url_loop :
    truthy (current_chapter_url st) = true ->
    current_chapter_url st ∈ processed_urls st ->
    iteration st (Break UrlLoop st)
| it_fetch_failed :
    truthy (current_chapter_url st) = true ->
    current_chapter_url st ∉ processed_urls st ->
    truthy_opt (fetch_page (fetched (trace st)) (current_chapter_url st)) = false ->
    iteration st (Break FetchFailed (visit st))
| it_extract_raised html e :
    truthy (current_chapter_url st) = true ->
    current_chapter_url st ∉ processed_urls st ->
    fetch_page (fetched (trace st)) (current_chapter_url st) = Some html ->
    truthy html = true ->
    extract html = Raised e ->
    iteration st (Abort e (visit st))
| it_chapter html t c :
    truthy (current_chapter_url st) = true ->
    current_chapter_url st ∉ processed_urls st ->
    fetch_page (fetched (trace st)) (current_chapter_url st) = Some html ->
    truthy html = true ->
    extract html = Returned (t, Some c) ->
    truthy c = true ->
    iteration st (advance next_chapter_url (record_chapter t c (visit st)))
| it_empty_stop html t c :
    truthy (current_chapter_url st) = true ->
    current_chapter_url st ∉ processed_urls st ->
    fetch_page (fetched (trace st)) (current_chapter_url st) = Some html ->
    truthy html = true ->
    extract html = Returned (t, c) ->
    truthy_opt c = false ->
    empty_chapter_threshold <= consecutive_empty_chapters st + 1 ->
    iteration st (Break EmptyStreak (count_empty (visit st)))
| it_empty_go html t c :
    truthy (current_chapter_url st) = true ->
    current_chapter_url st ∉ processed_urls st ->
    fetch_page (fetched (trace st)) (current_chapter_url st) = Some html ->
    truthy html = true ->
    extract html = Returned (t, c) ->
    truthy_opt c = false ->
    consecutive_empty_chapters st + 1 < empty_chapter_threshold ->
    iteration st (advance next_chapter_url (count_empty (visit st))).

End Iteration.

(** ** Shapes of file names *)

(** The characters a sanitized name is made of. *)
Definition filename_char (c : ascii) : bool :=
  (is_lower c || is_digit c || Ascii.eqb c "_" || Ascii.eqb c "-")%bool.

(** The characters [strip('_-')] takes away. *)
Definition is_edge (c : ascii) : bool := (Ascii.eqb c "_" || Ascii.eqb c "-")%bool.

(** Does [c] occur twice in a row in [s]? *)
Fixpoint has_pair (c : ascii) (s : string) : bool :=
  match s with
  | String x ((String y _) as s') => ((Ascii.eqb x c && Ascii.eqb y c) || has_pair c s')%bool
  | _ => false
  end.

Definition first_char (s : string) : option ascii :=
  match s with
  | String c _ => Some c
  | EmptyString => None
  end.

Fixpoint last_char (s : string) : option ascii :=
  match s with
  | EmptyString => None
  | String c EmptyString => Some c
  | String _ s' => last_char s'
  end.

(** ** Elements at or below an element *)

(** The identities found at or below the elements of identity [e]
    inside [n]. *)
Definition within (e : nat) (n : Dom.node) : list nat :=
  flat_map (fun t => if Nat.eqb (Dom.node_id t) e then Dom.node_id t :: Dom.ids_below t else [])
    (Dom.subtrees n).

(** Every selector the extractor may come to use compiles. *)
Definition selectors_compile (css : string -> option (Dom.node -> nat -> bool))
    (self : ContentExtractor) : bool :=
  ((negb (truthy_opt (chapter_title_selector self))
    || compiles css (default EmptyString (chapter_title_selector self)))
   && forallb (fun r => rule_skipped r || compiles css (default EmptyString (rule_selector r)))
        (content_selectors self)
   && forallb (compiles css) (remove_elements self))%bool.

(** ** What the loop keeps true *)

(** A recorded chapter has a title and a content that are not empty. *)
Definition record_ok (r : ChapterRecord) : Prop :=
  truthy (title r) = true /\ truthy (html_content r) = true.

(** The visited set is the set of the URLs fetched, and no more
    chapters are recorded than pages were fetched. *)
Definition fetch_inv (st : TraversalState) : Prop :=
  (forall u, u ∈ processed_urls st <-> In u (fetched (trace st)))
  /\ (length (chapter_contents st) <= length (fetched (trace st)))%nat.

(** ** What [main] has before the loop, what [add_chapters] keeps *)

Section Setup.

Variable urlparse : string -> outcome (string * string * string).

(** Lines 94-146 in one: the navigator and the extractor [main] enters
    the loop with, or [None] when it exits before. *)
Definition setup (config : Config.t) : option (URLChapterNavigator * ContentExtractor) :=
  if negb (valid_config config) then None
  else
    match url_pattern_config config with
    | Some rule =>
        match Config.pattern rule with
        | Some pattern =>
            match new_URLChapterNavigator urlparse
                    (default EmptyString (Config.start_url config))
                    pattern (default 1 (Config.increment_by rule)),
                  new_ContentExtractor (default [] (Config.content_selectors config))
                    (Some (default [] (Config.remove_elements config)))
                    (Config.chapter_title_selector config) with
            | Returned navigator, Returned extractor => Some (navigator, extractor)
            | _, _ => None
            end
        | None => None
        end
    | None => None
    end.

(** The configuration has what the set-up needs: the required keys, a
    pattern in the first [url_pattern] entry, a start URL that
    [urlparse] accepts, and at least one content selector. *)
Definition config_ready (config : Config.t) : bool :=
  (valid_config config
   && match url_pattern_config config with
      | Some rule => bool_decide (is_Some (Config.pattern rule))
      | None => false
      end
   && match urlparse (default EmptyString (Config.start_url config)) with
      | Returned _ => true
      | Raised _ => false
      end
   && match Config.content_selectors config with
      | Some (_ :: _) => true
      | _ => false
      end)%bool.

End Setup.

(** The indices, from [i] on, of the entries [add_chapters] does not
    skip. *)
Fixpoint kept_indices (i : nat) (l : list Epub.ChapterData) : list nat :=
  match l with
  | [] => []
  | d :: rest =>
      if truthy_opt (Epub.data_html_content d) then i :: kept_indices (S i) rest
      else kept_indices (S i) rest
  end.

Definition chapter_file_name (i : nat) : string := "chapter_" ++ Epub.number i ++ ".xhtml".

(** ** Fixtures for [main] and the generator *)

Module MainFixture.

Definition generator : Epub.EpubGenerator :=
  Epub.init "The Wandering Inn" "Unknown" "en" "the_wandering_inn.epub" None true.

(** The site of [Fixture], with one entry of another type before the
    [url_pattern] entry and a second [url_pattern] entry after it. *)
Definition config : Config.t :=
  {| Config.novel_title := Some "The Wandering Inn!!";
     Config.start_url := Some "https://x.test/c-1.html";
     Config.content_selectors := Some [Fixture.css_rule "article"];
     Config.next_chapter_selectors :=
       Some [ {| Config.type := Some "css_selector"; Config.pattern := None;
                 Config.increment_by := None |};
              {| Config.type := Some "url_pattern"; Config.pattern := Some "(/c-(\d+)\.html)";
                 Config.increment_by := None |};
              {| Config.type := Some "url_pattern"; Config.pattern := Some "(\d+)";
                 Config.increment_by := Some 10 |} ];
     Config.remove_elements := Some [".ad"];
     Config.chapter_title_selector := Some "h1";
     Config.novel_author := None;
     Config.language := None;
     Config.cover_image_url := None;
     Config.consecutive_empty_chapters_threshold := Some 2 |}.

(** [urlparse] on the URLs of the site: the path follows the fourteen
    characters of scheme and host. *)
Definition urlparse (url : string) : outcome (string * string * string) :=
  Returned ("https", "x.test", Py.drop 14 url).

(** [html.parser] on the content of the chapters of the site. *)
Definition html_parser (html : string) : Dom.node :=
  if String.eqb html "<article><p>Text</p></article>"
  then Fixture.document [Dom.Elem 1 "article" [] [Dom.Elem 2 "p" [] [Dom.Text "Text"]]]
  else Fixture.document [].

(** The whole program on the site. *)
Definition main (args_output : string) (cfg : Config.t) (n : nat) : option main_result :=
  main RePattern.search urlparse Fixture.parse_html SimpleCss.css Fixture.site
    (fun _ => None) html_parser (fun _ => true) args_output cfg n.

End MainFixture.

(** The configuration with other [next_chapter_selectors]. *)
Definition with_next_chapter_selectors (config : Config.t) (rules : list Config.NavRule)
  : Config.t :=
  {| Config.novel_title := Config.novel_title config;
     Config.start_url := Config.start_url config;
     Config.content_selectors := Config.content_selectors config;
     Config.next_chapter_selectors := Some rules;
     Config.remove_elements := Config.remove_elements config;
     Config.chapter_title_selector := Config.chapter_title_selector config;
     Config.novel_author := Config.novel_author config;
     Config.language := Config.language config;
     Config.cover_image_url := Config.cover_image_url config;
     Config.consecutive_empty_chapters_threshold :=
       Config.consecutive_empty_chapters_threshold config |}.

(** The generator after the entry [d] of index [i] was added. *)
Definition with_chapter (html_parser : string -> Dom.node) (i : nat) (d : Epub.ChapterData)
    (self : Epub.EpubGenerator) : Epub.EpubGenerator :=
  let chapter_title := default ("Chapter " ++ Epub.number i) (Epub.data_title d) in
  let c := {| Epub.html_title := chapter_title;
              Epub.file_name := chapter_file_name i;
              Epub.lang := Epub.language self;
              Epub.content :=
                Epub.body_content html_parser
                  (default EmptyString (Epub.data_html_content d)) |} in
  let link := {| Epub.href := chapter_file_name i;
                 Epub.link_title := chapter_title;
                 Epub.uid := "chap_" ++ Epub.number i |} in
  {| Epub.identifier := Epub.identifier self;
     Epub.novel_title := Epub.novel_title self;
     Epub.novel_author := Epub.novel_author self;
     Epub.language := Epub.language self;
     Epub.output_path := Epub.output_path self;
     Epub.cover_image_url := Epub.cover_image_url self;
     Epub.has_page_loader := Epub.has_page_loader self;
     Epub.chapters := (Epub.chapters self ++ [c])%list;
     Epub.toc_items := (Epub.toc_items self ++ [link])%list;
     Epub.cover := Epub.cover self |}.

(** No white space at either end. *)
Definition trimmed (s : string) : Prop :=
  match first_char s with Some c => is_pyspace c = false | None => True end
  /\ match last_char s with Some c => is_pyspace c = false | None => True end.

(** * Properties *)

(** ** Concrete runs of the definitions *)

Example sanitize_ex1 : _sanitize_filename "The Wandering Inn!!" = "the_wandering_inn.epub".
Proof. reflexivity. Qed.

Example sanitize_ex2 : _sanitize_filename "  --A  B__c-- " = "a_b_c.epub".
Proof. reflexivity. Qed.

Example int_of_str_ex :
  map int_of_str
    ["7"; " 012 "; "-3"; "1_000"; "chapter-7"; "x"; "1__0"; "+"; "+ 7";
     String (ascii_of_nat 28) "7"]
  = [Some 7; Some 12; Some (-3); Some 1000; None; None; None; None; None; None].
Proof. reflexivity. Qed.

Example str_of_int_ex :
  map str_of_int [0; 8; 12; -5; 1000; 4095] = ["0"; "8"; "12"; "-5"; "1000"; "4095"].
Proof. reflexivity. Qed.

Example search_ex1 :
  RePattern.search "(/chapter-(\d+)\.html)" "https://x.test/chapter-7.html"
  = Returned (Some {| Re.groups := [Some "/chapter-7.html"; Some "7"] |}).
Proof. reflexivity. Qed.

Example search_ex2 :
  RePattern.search "(vol-)?c(\d+)" "https://x.test/c12" 
  = Returned (Some {| Re.groups := [None; Some "12"] |}).
Proof. reflexivity. Qed.

Example search_ex3 :
  RePattern.search "(a|ab)(c|bcd)(d*)" "xabcd" 
  = Returned (Some {| Re.groups := [Some "a"; Some "bcd"; Some EmptyString] |}).
Proof. reflexivity. Qed.

Example search_ex4 : RePattern.search "(x" "x" = Raised ReError.
Proof. reflexivity. Qed.

Example search_ex5 : RePattern.search "chapter-\d+" "page-3" = Returned None.
Proof. reflexivity. Qed.

Example nav_ex1 :
  get_next_chapter_url RePattern.search (navigator "(/chapter-(\d+)\.html)" 1)
    "https://x.test/chapter-7.html" = Returned (Some "https://x.test/chapter-8.html").
Proof. reflexivity. Qed.

Example nav_ex2 :
  get_next_chapter_url RePattern.search (navigator "(/chapter-(\d+)\.html)" 5)
    "https://x.test/chapter-7.html" = Returned (Some "https://x.test/chapter-12.html").
Proof. reflexivity. Qed.

Example nav_ex3 :
  get_next_chapter_url RePattern.search (navigator "chapter-\d+" 1)
    "https://x.test/chapter-7.html" = Returned None.
Proof. reflexivity. Qed.

Example nav_ex4 :
  get_next_chapter_url RePattern.search (navigator "(vol-)?chapter-(\d+)" 1)
    "https://x.test/chapter-7.html" = Raised TypeError.
Proof. reflexivity. Qed.

Example nav_ex5 :
  get_next_chapter_url RePattern.search (navigator "(/chapter-(\d+)\.html)" 0)
    "https://x.test/chapter-7.html" = Returned None.
Proof. reflexivity. Qed.

Example extract_ex1 :
  extract_content Fixture.parse_html SimpleCss.css Fixture.extractor Fixture.page_full
  = Returned (Some "One", Some "<article><p>Text</p></article>").
Proof. reflexivity. Qed.

Example extract_ex2 :
  extract_content Fixture.parse_html SimpleCss.css Fixture.extractor Fixture.page_blank
  = Returned (None, None).
Proof. reflexivity. Qed.

(** The whole site with the default threshold: the two pages without
    content do not stop the traversal, the page that cannot be fetched
    does; the chapters keep the numbers of their pages. *)
Example crawl_ex1 :
  exists st,
    main_loop RePattern.search Fixture.parse_html SimpleCss.css Fixture.site
      Fixture.site_navigator Fixture.untitled_extractor None 6
    = Break FetchFailed st
    /\ map title (chapter_contents st) = ["Chapter 1"; "Chapter 2"; "Chapter 5"]
    /\ chapter_number st = 6.
Proof. eexists. split; [vm_compute; reflexivity | split; reflexivity]. Qed.

(** With the threshold 2 the same site ends on the second page without
    content, two chapters collected. *)
Example crawl_ex2 :
  exists st,
    main_loop RePattern.search Fixture.parse_html SimpleCss.css Fixture.site
      Fixture.site_navigator Fixture.extractor (Some 2) 6
    = Break EmptyStreak st
    /\ map title (chapter_contents st) = ["One"; "One"]
    /\ current_chapter_url st = "https://x.test/c-4.html".
Proof. eexists. split; [vm_compute; reflexivity | split; reflexivity]. Qed.

(** ** Documents *)

(** Induction on documents, children included. *)
Lemma node_ind' (P : Dom.node -> Prop) :
  (forall s, P (Dom.Text s)) ->
  (forall i nm at_ cs, Forall P cs -> P (Dom.Elem i nm at_ cs)) ->
  forall n : Dom.node, P n.
Proof.
  intros HT HE.
  fix IH 1. intros [s | i nm at_ cs].
  - apply HT.
  - apply HE. induction cs as [| c cs IHcs]; constructor; [apply IH | exact IHcs].
Qed.

(** ** The output file name *)

(** C8: the novel title "The Wandering Inn!!" gives the file name
    "the_wandering_inn.epub"; on the way the title is put in lower case,
    its spaces become underscores, its punctuation is dropped, and the
    extension is appended last. *)
Theorem sanitize_filename_wandering_inn :
  lower "The Wandering Inn!!" = "the wandering inn!!"
  /\ replace_char " " "_" "the wandering inn!!" = "the_wandering_inn!!"
  /\ filter_chars (fun c => (is_word c || Ascii.eqb c "-")%bool) "the_wandering_inn!!"
     = "the_wandering_inn"
  /\ _sanitize_filename "The Wandering Inn!!" = "the_wandering_inn.epub".
Proof. repeat split; reflexivity. Qed.

(** ** The navigator *)

Section NavigatorFacts.

Variable re_search : string -> string -> outcome (option Re.Match).
Variable self : URLChapterNavigator.

Lemma get_next_unmatched url :
  re_search (url_pattern self) url = Returned None ->
  get_next_chapter_url re_search self url = Returned None.
Proof. intros H. unfold get_next_chapter_url. now rewrite H. Qed.

Lemma get_next_matched url m :
  re_search (url_pattern self) url = Returned (Some m) ->
  get_next_chapter_url re_search self url = catch_value_index (next_url_body self m url).
Proof. intros H. unfold get_next_chapter_url. now rewrite H. Qed.

Lemma get_next_raises_search url e :
  re_search (url_pattern self) url = Raised e ->
  get_next_chapter_url re_search self url = Raised e.
Proof. intros H. unfold get_next_chapter_url. now rewrite H. Qed.

(** The body of the [try] block when the groups it reads hold text. *)
Lemma next_url_body_text gs g segment url :
  number_group {| Re.groups := gs |} = Returned (Some g) ->
  Re.group {| Re.groups := gs |} 1 = Returned (Some segment) ->
  next_url_body self {| Re.groups := gs |} url =
    match int_of_str g with
    | None => Raised ValueError
    | Some n =>
        let next_url :=
          replace_first segment
            (Re.sub_first_digits (str_of_int (n + increment_by self)) segment) url in
        if String.eqb next_url url then Returned None else Returned (Some next_url)
    end.
Proof.
  intros Hg Hs. unfold next_url_body. rewrite Hg. cbn [bind py_int].
  destruct (int_of_str g) as [n |]; [| reflexivity].
  cbn [bind]. rewrite Hs. reflexivity.
Qed.

End NavigatorFacts.

(** C4: with the pattern "(/chapter-(\d+)\.html)" the match on
    "https://x.test/chapter-7.html" has the segment "/chapter-7.html" as
    group 1 and the number "7" as group 2; the number is read from
    group 2 and the segment from group 1, and the next URL is
    "https://x.test/chapter-8.html" for the increment 1 and
    "https://x.test/chapter-12.html" for the increment 5. *)
Theorem next_url_two_group_pattern :
  let pattern := "(/chapter-(\d+)\.html)" in
  let url := "https://x.test/chapter-7.html" in
  let m := {| Re.groups := [Some "/chapter-7.html"; Some "7"] |} in
  RePattern.search pattern url = Returned (Some m)
  /\ number_group m = Returned (Some "7")
  /\ Re.group m 1 = Returned (Some "/chapter-7.html")
  /\ get_next_chapter_url RePattern.search (navigator pattern 1) url
     = Returned (Some "https://x.test/chapter-8.html")
  /\ get_next_chapter_url RePattern.search (navigator pattern 5) url
     = Returned (Some "https://x.test/chapter-12.html").
Proof. repeat split; reflexivity. Qed.

(** C10: when the pattern is found in the current URL and has no
    capturing group, reading the group raises [IndexError] inside the
    [try] block, the handler catches it, and the call returns [None]. *)
Theorem next_url_no_capturing_group
    (re_search : string -> string -> outcome (option Re.Match))
    (self : URLChapterNavigator) (url : string) (m : Re.Match) :
  re_search (url_pattern self) url = Returned (Some m) ->
  Re.groups m = [] ->
  next_url_body self m url = Raised IndexError
  /\ get_next_chapter_url re_search self url = Returned None.
Proof.
  intros Hm Hg.
  assert (Hbody : next_url_body self m url = Raised IndexError).
  { unfold next_url_body, number_group, Re.group. rewrite Hg. reflexivity. }
  split; [exact Hbody |].
  rewrite (get_next_matched _ _ _ _ Hm), Hbody. reflexivity.
Qed.

Lemma next_url_no_capturing_group_witness :
  next_url_body (navigator "chapter-\d+" 1) {| Re.groups := [] |} "https://x.test/chapter-7.html"
  = Raised IndexError
  /\ get_next_chapter_url RePattern.search (navigator "chapter-\d+" 1)
       "https://x.test/chapter-7.html" = Returned None.
Proof.
  apply (next_url_no_capturing_group RePattern.search (navigator "chapter-\d+" 1)
           "https://x.test/chapter-7.html" {| Re.groups := [] |}); reflexivity.
Defined.

(** C3, as stated, fails on two inputs.  With the pattern "chapter-\d+"
    (no capturing group) the call returns [None] although the pattern is
    found, no number fails to parse and no next URL was computed.  With
    the pattern "(vol-)?chapter-(\d+)" the first group takes no part in
    the match and the call raises [TypeError] to its caller. *)
Lemma next_url_none_cases_incomplete :
  let url := "https://x.test/chapter-7.html" in
  let nav1 := navigator "chapter-\d+" 1 in
  let nav2 := navigator "(vol-)?chapter-(\d+)" 1 in
  (get_next_chapter_url RePattern.search nav1 url = Returned None
   /\ pattern_unmatched RePattern.search nav1 url = false
   /\ number_unparsable RePattern.search nav1 url = false
   /\ next_url_unchanged RePattern.search nav1 url = false)
  /\ get_next_chapter_url RePattern.search nav2 url = Raised TypeError.
Proof. repeat split; reflexivity. Qed.

(** C3, amended: when the pattern compiles and the groups the method
    reads took part in the match, the call returns [None] exactly when
    the pattern is not found in the URL, or the pattern has no capturing
    group, or the number group is not the text of an integer, or the
    computed next URL is the current URL; in every other case it returns
    the computed next URL; and it raises nothing. *)
Theorem next_url_outcome_cases
    (re_search : string -> string -> outcome (option Re.Match))
    (self : URLChapterNavigator) (url : string) :
  groups_took_part re_search self url = true ->
  let ends :=
    (pattern_unmatched re_search self url || lacks_group re_search self url
     || number_unparsable re_search self url || next_url_unchanged re_search self url)%bool in
  (get_next_chapter_url re_search self url = Returned None <-> ends = true)
  /\ (ends = false ->
      exists next_url,
        get_next_chapter_url re_search self url = Returned (Some next_url)
        /\ computed_next_url re_search self url = Some next_url
        /\ next_url <> url)
  /\ (forall e, get_next_chapter_url re_search self url <> Raised e).
Proof.
  unfold groups_took_part, pattern_unmatched, lacks_group, number_unparsable,
    next_url_unchanged, computed_next_url.
  destruct (re_search (url_pattern self) url) as [[m |] | e] eqn:Hs; intros Hpart; [| | discriminate].
  2:{ rewrite (get_next_unmatched _ _ _ Hs). cbn. repeat split; [discriminate.. | discriminate]. }
  rewrite (get_next_matched _ _ _ _ Hs). destruct m as [gs].
  destruct gs as [| g1 gs].
  { cbn. repeat split; [discriminate.. | discriminate]. }
  assert (Hcase : exists g segment,
             number_group {| Re.groups := g1 :: gs |} = Returned (Some g)
             /\ Re.group {| Re.groups := g1 :: gs |} 1 = Returned (Some segment)).
  { destruct g1 as [s1 |]; [| discriminate Hpart].
    destruct gs as [| g2 gs]; [exists s1, s1; split; reflexivity |].
    destruct g2 as [s2 |]; [| discriminate Hpart].
    exists s2, s1; split; reflexivity. }
  destruct Hcase as (g & segment & Hg & Hseg).
  rewrite (next_url_body_text self _ _ _ url Hg Hseg), Hg, Hseg.
  cbn [orb].
  destruct (int_of_str g) as [n |] eqn:Hint.
  - cbn zeta.
    set (next := replace_first segment _ url).
    rewrite bool_decide_eq_false_2 by discriminate. cbn [orb].
    destruct (String.eqb next url) eqn:Heq; cbn [catch_value_index].
    + apply String.eqb_eq in Heq. rewrite Heq.
      rewrite bool_decide_eq_true_2 by reflexivity.
      repeat split; [discriminate.. | discriminate].
    + apply String.eqb_neq in Heq.
      rewrite bool_decide_eq_false_2 by congruence.
      split; [split; discriminate |].
      split; [| discriminate].
      intros _. exists next. repeat split; assumption.
  - rewrite bool_decide_eq_true_2 by reflexivity. cbn.
    repeat split; [discriminate.. | discriminate].
Qed.

Lemma next_url_outcome_cases_witness :
  let url := "https://x.test/chapter-7.html" in
  let nav := navigator "(/chapter-(\d+)\.html)" 1 in
  get_next_chapter_url RePattern.search nav url = Returned (Some "https://x.test/chapter-8.html")
  /\ forall e, get_next_chapter_url RePattern.search nav url <> Raised e.
Proof.
  intros url nav.
  destruct (next_url_outcome_cases RePattern.search nav url eq_refl) as (_ & Hsome & Hno).
  split; [| exact Hno].
  destruct (Hsome eq_refl) as (next_url & Hnext & Hcomp & _).
  rewrite Hnext. f_equal. f_equal.
  assert (Hc : computed_next_url RePattern.search nav url = Some "https://x.test/chapter-8.html")
    by reflexivity.
  congruence.
Defined.

(** ** The extractor *)

(** C9: on an empty markup string [extract_content] returns
    [(None, None)] at once: whatever the parser and the selector engine
    would do, even raise, they are not called. *)
Theorem extract_content_falsy_markup
    (parse_html : string -> Dom.node) (css : string -> option (Dom.node -> nat -> bool))
    (self : ContentExtractor) (html : string) :
  truthy html = false ->
  extract_content parse_html css self html = Returned (None, None).
Proof. intros H. unfold extract_content. rewrite H. reflexivity. Qed.

Lemma extract_content_falsy_markup_witness :
  extract_content Fixture.parse_html (fun _ => None) Fixture.extractor EmptyString
  = Returned (None, None).
Proof.
  apply (extract_content_falsy_markup Fixture.parse_html (fun _ => None)
           Fixture.extractor EmptyString).
  reflexivity.
Defined.

Section ExtractorFacts.

Variable parse_html : string -> Dom.node.
Variable css : string -> option (Dom.node -> nat -> bool).

(** A rule that is skipped is passed over, whatever its selector. *)
Lemma find_main_content_skipped r rest soup :
  rule_skipped r = true ->
  find_main_content css (r :: rest) soup = find_main_content css rest soup.
Proof.
  unfold rule_skipped. intros H. cbn [find_main_content].
  destruct (negb (truthy_opt (rule_type r)) || negb (truthy_opt (rule_selector r)))%bool;
    [reflexivity |].
  cbn [orb] in H. apply negb_true_iff in H. rewrite H. reflexivity.
Qed.

(** A rule that yields nothing hands over to the rules after it. *)
Lemma find_main_content_misses r rest soup :
  rule_misses css soup r = true ->
  find_main_content css (r :: rest) soup = find_main_content css rest soup.
Proof.
  unfold rule_misses. intros H.
  destruct (rule_skipped r) eqn:Hskip; [now apply find_main_content_skipped |].
  cbn [orb] in H. unfold rule_skipped in Hskip.
  apply orb_false_iff in Hskip as [Hfields Htype].
  apply negb_false_iff in Htype.
  cbn [find_main_content]. rewrite Hfields, Htype.
  destruct (select_one css (default EmptyString (rule_selector r)) soup) as [[tag |] | e];
    [discriminate | reflexivity | discriminate].
Qed.

(** A rule that finds an element ends the loop with it. *)
Lemma find_main_content_hits r rest soup tag :
  rule_hits css soup r tag ->
  find_main_content css (r :: rest) soup = Returned (Some tag).
Proof.
  intros [Hskip Hsel]. unfold rule_skipped in Hskip.
  apply orb_false_iff in Hskip as [Hfields Htype].
  apply negb_false_iff in Htype.
  cbn [find_main_content]. rewrite Hfields, Htype, Hsel. reflexivity.
Qed.

Lemma find_main_content_first_hit pre r post soup tag :
  forallb (rule_misses css soup) pre = true ->
  rule_hits css soup r tag ->
  find_main_content css (pre ++ r :: post)%list soup = Returned (Some tag).
Proof.
  induction pre as [| r0 pre IH]; intros Hpre Hhit.
  - now apply find_main_content_hits.
  - cbn [forallb] in Hpre. apply andb_true_iff in Hpre as [H0 Hpre].
    change ((r0 :: pre) ++ r :: post)%list with (r0 :: (pre ++ r :: post))%list.
    rewrite find_main_content_misses by exact H0. now apply IH.
Qed.

End ExtractorFacts.

(** C5: the content rules are tried in their order and the first one
    whose query finds an element decides.  When the rules before [r]
    yield nothing (they are skipped for a missing field or a type other
    than [css_selector], or their query finds no element) and [r] finds
    [tag], then [tag] is the content tag whatever rules follow [r], and
    the result of [extract_content] is built from [tag] alone: the rules
    after [r] are not consulted.  A skipped rule never ends or aborts
    the loop. *)
Theorem first_matching_rule_wins
    (parse_html : string -> Dom.node) (css : string -> option (Dom.node -> nat -> bool))
    (remove : list string) (title_sel : option string)
    (pre post : list SelectorRule) (r : SelectorRule) (html : string) (tag : Dom.node) :
  let soup := parse_html html in
  let self :=
    {| content_selectors := (pre ++ r :: post)%list;
       remove_elements := remove;
       chapter_title_selector := title_sel |} in
  truthy html = true ->
  forallb (rule_misses css soup) pre = true ->
  rule_hits css soup r tag ->
  find_main_content css (pre ++ r :: post)%list soup = Returned (Some tag)
  /\ extract_content parse_html css self html =
       bind (extract_title css self soup) (fun extracted_title =>
       bind (_remove_unwanted_elements css remove (soup, tag)) (fun st =>
       Returned (extracted_title, Some (Dom.str (snd st)))))
  /\ (forall r' rest,
        rule_skipped r' = true ->
        find_main_content css (r' :: rest) soup = find_main_content css rest soup).
Proof.
  intros soup self Hhtml Hpre Hhit.
  pose proof (find_main_content_first_hit css pre r post soup tag Hpre Hhit) as Hmain.
  split; [exact Hmain |]. split.
  - unfold extract_content. rewrite Hhtml. cbn [negb].
    fold soup. cbn [content_selectors remove_elements self].
    rewrite Hmain.
    destruct (extract_title css self soup) as [t | e]; reflexivity.
  - intros r' rest Hskip. now apply find_main_content_skipped.
Qed.

Lemma first_matching_rule_wins_witness :
  let rules_before :=
    [ {| rule_type := None; rule_selector := Some "article" |};
      {| rule_type := Some "xpath"; rule_selector := Some "//article" |};
      Fixture.css_rule "section" ] in
  let rules_after := [ Fixture.css_rule "p"; Fixture.css_rule "p >" ] in
  extract_content Fixture.parse_html SimpleCss.css
    {| content_selectors := (rules_before ++ Fixture.css_rule "article" :: rules_after)%list;
       remove_elements := [".ad"];
       chapter_title_selector := Some "h1" |} Fixture.page_full
  = Returned (Some "One", Some "<article><p>Text</p></article>").
Proof.
  intros rules_before rules_after.
  destruct (first_matching_rule_wins Fixture.parse_html SimpleCss.css [".ad"] (Some "h1")
              rules_before rules_after (Fixture.css_rule "article") Fixture.page_full
              (Dom.Elem 4 "article" []
                 [Dom.Elem 5 "p" [] [Dom.Text "Text"];
                  Dom.Elem 6 "div" [("class", "ad")] [Dom.Text "Buy"]]))
    as (_ & Hcontent & _).
  - reflexivity.
  - reflexivity.
  - split; reflexivity.
  - rewrite Hcontent. reflexivity.
Defined.

(** *** Removing elements from a document *)

Section DecomposeFacts.
Import Dom.

Lemma ids_below_elem i nm at_ cs :
  ids_below (Elem i nm at_ cs) = flat_map below_child cs.
Proof.
  unfold ids_below. cbn [subtrees].
  induction cs as [| c cs IH]; [reflexivity |].
  cbn [flat_map]. rewrite <- IH, map_app. f_equal.
  unfold below_child. destruct (is_elem c); reflexivity.
Qed.

Lemma decompose_elem e i nm at_ cs :
  decompose e (Elem i nm at_ cs) = Elem i nm at_ (flat_map (pruned_child e) cs).
Proof.
  cbn [decompose]. f_equal.
  induction cs as [| c cs IH]; [reflexivity |].
  cbn [flat_map]. rewrite <- IH. unfold pruned_child.
  destruct (is_elem c && Nat.eqb (node_id c) e)%bool; reflexivity.
Qed.

Lemma decompose_is_elem e n : is_elem (decompose e n) = is_elem n.
Proof. destruct n; reflexivity. Qed.

(** The element a tag is stays what it is: [decompose] acts below it. *)
Lemma decompose_node_id e n : node_id (decompose e n) = node_id n.
Proof. destruct n; reflexivity. Qed.

(** After [decompose e], what is left below [n] was there before, and
    [e] is not among it. *)
Lemma ids_below_decompose e n x :
  In x (ids_below (decompose e n)) -> In x (ids_below n) /\ x <> e.
Proof.
  revert x. induction n as [s | i nm at_ cs IH] using node_ind'; intros x.
  - intros [].
  - rewrite decompose_elem, !ids_below_elem.
    induction IH as [| c cs Hc _ IHcs]; [intros [] |].
    cbn [flat_map]. rewrite flat_map_app, !in_app_iff.
    intros [Hhere | Hrest].
    + unfold pruned_child in Hhere.
      destruct (is_elem c && Nat.eqb (node_id c) e)%bool eqn:Hdrop; [destruct Hhere |].
      cbn [flat_map] in Hhere. rewrite app_nil_r in Hhere.
      unfold below_child in Hhere |- *.
      rewrite decompose_is_elem, decompose_node_id in Hhere.
      destruct (is_elem c); [| destruct Hhere].
      cbn [andb] in Hdrop. apply Nat.eqb_neq in Hdrop.
      destruct Hhere as [<- | Hbelow].
      * split; [left; now left | exact Hdrop].
      * destruct (Hc x Hbelow) as [Hin Hne].
        split; [left; now right | exact Hne].
    + destruct (IHcs Hrest) as [Hin Hne]. split; [now right | exact Hne].
Qed.

Variable css : string -> option (node -> nat -> bool).

Lemma decompose_all_cons e es st :
  decompose_all (e :: es) st = decompose_all es (decompose e (fst st), decompose e (snd st)).
Proof. reflexivity. Qed.

Lemma decompose_all_node_id es st : node_id (snd (decompose_all es st)) = node_id (snd st).
Proof.
  revert st. induction es as [| e es IH]; intros st; [reflexivity |].
  rewrite decompose_all_cons, IH. apply decompose_node_id.
Qed.

(** The inner loop: what is left was there before and is none of the
    elements removed. *)
Lemma ids_below_decompose_all es st x :
  In x (ids_below (snd (decompose_all es st))) ->
  In x (ids_below (snd st)) /\ ~ In x es.
Proof.
  revert st. induction es as [| e es IH]; intros st Hx; [split; [exact Hx | intros []] |].
  rewrite decompose_all_cons in Hx.
  destruct (IH _ Hx) as [Hin Hnot]. cbn [snd] in Hin.
  destruct (ids_below_decompose _ _ _ Hin) as [Hin' Hne].
  split; [exact Hin' |]. intros [-> | H]; [now apply Hne | now apply Hnot].
Qed.

Lemma remove_unwanted_cons sel rest st :
  _remove_unwanted_elements css (sel :: rest) st =
    match select css sel (fst st) (snd st) with
    | Raised e => Raised e
    | Returned es => _remove_unwanted_elements css rest (decompose_all es st)
    end.
Proof. reflexivity. Qed.

(** Removal never brings an element back. *)
Lemma remove_unwanted_shrinks sels st st' x :
  _remove_unwanted_elements css sels st = Returned st' ->
  In x (ids_below (snd st')) -> In x (ids_below (snd st)).
Proof.
  revert st. induction sels as [| sel rest IH]; intros st Hrun Hx.
  - cbn in Hrun. now inversion Hrun; subst.
  - rewrite remove_unwanted_cons in Hrun.
    destruct (select css sel (fst st) (snd st)) as [es | e]; [| discriminate].
    apply (ids_below_decompose_all es st x). now apply (IH _ Hrun).
Qed.

Lemma remove_unwanted_node_id sels st st' :
  _remove_unwanted_elements css sels st = Returned st' ->
  node_id (snd st') = node_id (snd st).
Proof.
  revert st. induction sels as [| sel rest IH]; intros st Hrun.
  - cbn in Hrun. now inversion Hrun; subst.
  - rewrite remove_unwanted_cons in Hrun.
    destruct (select css sel (fst st) (snd st)) as [es | e]; [| discriminate].
    rewrite (IH _ Hrun). apply decompose_all_node_id.
Qed.

(** The state between two selectors of the list. *)
Lemma remove_unwanted_app pre post st :
  _remove_unwanted_elements css (pre ++ post)%list st =
    bind (_remove_unwanted_elements css pre st) (_remove_unwanted_elements css post).
Proof.
  revert st. induction pre as [| sel pre IH]; intros st; [reflexivity |].
  change ((sel :: pre) ++ post)%list with (sel :: (pre ++ post))%list.
  rewrite !remove_unwanted_cons.
  destruct (select css sel (fst st) (snd st)) as [es | e]; [apply IH | reflexivity].
Qed.

(** When every selector compiles, the removal returns. *)
Lemma remove_unwanted_returns sels st :
  forallb (compiles css) sels = true ->
  exists st', _remove_unwanted_elements css sels st = Returned st'.
Proof.
  revert st. induction sels as [| sel rest IH]; intros st Hc; [now exists st |].
  cbn [forallb] in Hc. apply andb_true_iff in Hc as [Hsel Hrest].
  rewrite remove_unwanted_cons. unfold select, compiles in *.
  destruct (css sel); [now apply IH | discriminate].
Qed.

(** One selector: the elements it matched below the tag are gone when
    the remaining selectors are done. *)
Lemma remove_unwanted_matched_gone sel rest st st' m e :
  _remove_unwanted_elements css (sel :: rest) st = Returned st' ->
  css sel = Some m ->
  In e (ids_below (snd st)) -> m (fst st) e = true ->
  ~ In e (ids_below (snd st')).
Proof.
  intros Hrun Hm Hin Hmatch Hleft.
  rewrite remove_unwanted_cons in Hrun. unfold select in Hrun. rewrite Hm in Hrun.
  pose proof (remove_unwanted_shrinks _ _ _ _ Hrun Hleft) as Hmid.
  apply ids_below_decompose_all in Hmid as [_ Hnot].
  apply Hnot, filter_In. now split.
Qed.

End DecomposeFacts.

(** C6, as stated, fails on two inputs.  With the content rule [div]
    and the remove selector [div] on the markup
    [<div><p>Text</p><div class='ad'>Buy</div></div>], the inner [div] is
    removed, but the returned string is the outer [div], an element that
    matches the remove selector.  With the remove selectors [p:empty]
    and [span] on [<article><p><span>Share</span></p><p>Text</p></article>],
    no paragraph is empty when [p:empty] is applied; removing the [span]
    then empties the first paragraph, which stays in the returned
    string and matches [p:empty]. *)
Lemma removal_leaves_matching_elements :
  (let soup := Fixture.parse_html Fixture.page_nested in
   exists tag st',
     find_main_content SimpleCss.css (content_selectors Fixture.div_extractor) soup
       = Returned (Some tag)
     /\ _remove_unwanted_elements SimpleCss.css (remove_elements Fixture.div_extractor)
          (soup, tag) = Returned st'
     /\ extract_content Fixture.parse_html SimpleCss.css Fixture.div_extractor
          Fixture.page_nested = Returned (None, Some (Dom.str (snd st')))
     /\ Dom.str (snd st') = "<div><p>Text</p></div>"
     /\ some_element_matches SimpleCss.css (remove_elements Fixture.div_extractor)
          (fst st') (snd st') = true)
  /\
  (let soup := Fixture.parse_html Fixture.page_widget in
   exists tag st' m,
     find_main_content SimpleCss.css (content_selectors Fixture.widget_extractor) soup
       = Returned (Some tag)
     /\ _remove_unwanted_elements SimpleCss.css (remove_elements Fixture.widget_extractor)
          (soup, tag) = Returned st'
     /\ extract_content Fixture.parse_html SimpleCss.css Fixture.widget_extractor
          Fixture.page_widget = Returned (None, Some (Dom.str (snd st')))
     /\ Dom.str (snd st') = "<article><p></p><p>Text</p></article>"
     /\ SimpleCss.css "p:empty" = Some m
     /\ existsb (m (fst st')) (Dom.ids_below (snd st')) = true).
Proof.
  split.
  - eexists; eexists.
    split; [reflexivity |]. split; [reflexivity |]. repeat split; reflexivity.
  - eexists; eexists; eexists.
    split; [reflexivity |]. split; [reflexivity |]. split; [reflexivity |].
    split; [reflexivity |]. split; reflexivity.
Qed.

(** C6, amended: once a content tag is selected and the remove
    selectors compile, [extract_content] returns the serialized content
    tag after the removals, and every element below the content tag that
    matches a remove selector at the moment that selector is applied is
    absent from what is serialized; the content tag itself is kept. *)
Theorem removed_elements_absent
    (parse_html : string -> Dom.node) (css : string -> option (Dom.node -> nat -> bool))
    (self : ContentExtractor) (html : string) (extracted_title : option string)
    (tag : Dom.node) :
  let soup := parse_html html in
  truthy html = true ->
  extract_title css self soup = Returned extracted_title ->
  find_main_content css (content_selectors self) soup = Returned (Some tag) ->
  forallb (compiles css) (remove_elements self) = true ->
  exists st',
    _remove_unwanted_elements css (remove_elements self) (soup, tag) = Returned st'
    /\ extract_content parse_html css self html
       = Returned (extracted_title, Some (Dom.str (snd st')))
    /\ Dom.node_id (snd st') = Dom.node_id tag
    /\ (forall pre sel post st_pre m e,
          remove_elements self = (pre ++ sel :: post)%list ->
          _remove_unwanted_elements css pre (soup, tag) = Returned st_pre ->
          css sel = Some m ->
          In e (Dom.ids_below (snd st_pre)) ->
          m (fst st_pre) e = true ->
          ~ In e (Dom.ids_below (snd st'))).
Proof.
  intros soup Hhtml Htitle Hmain Hcompile.
  destruct (remove_unwanted_returns css _ (soup, tag) Hcompile) as [st' Hrun].
  exists st'. split; [exact Hrun |]. split; [| split].
  - unfold extract_content. rewrite Hhtml. cbn [negb]. fold soup.
    rewrite Htitle. cbn [bind]. rewrite Hmain. cbn [bind]. rewrite Hrun. reflexivity.
  - apply (remove_unwanted_node_id css _ _ _ Hrun).
  - intros pre sel post st_pre m e Hsplit Hpre Hm Hin Hmatch.
    rewrite Hsplit, remove_unwanted_app, Hpre in Hrun. cbn [bind] in Hrun.
    exact (remove_unwanted_matched_gone css _ _ _ _ _ _ Hrun Hm Hin Hmatch).
Qed.

Lemma removed_elements_absent_witness :
  exists st' : Dom.node * Dom.node,
    extract_content Fixture.parse_html SimpleCss.css Fixture.extractor Fixture.page_full
    = Returned (Some "One", Some (Dom.str (snd st')))
    /\ ~ In 6%nat (Dom.ids_below (snd st')).
Proof.
  destruct (removed_elements_absent Fixture.parse_html SimpleCss.css Fixture.extractor
              Fixture.page_full (Some "One")
              (Dom.Elem 4 "article" []
                 [Dom.Elem 5 "p" [] [Dom.Text "Text"];
                  Dom.Elem 6 "div" [("class", "ad")] [Dom.Text "Buy"]]))
    as (st' & _ & Hout & _ & Hgone); [reflexivity.. |].
  exists st'. split; [exact Hout |].
  eapply (Hgone [] ".ad" []).
  - reflexivity.
  - reflexivity.
  - reflexivity.
  - cbn. right. left. reflexivity.
  - reflexivity.
Defined.

(** ** The traversal loop *)

Section TraversalFacts.

Variable fetch_page : list string -> string -> option string.
Variable extract : string -> outcome (option string * option string).
Variable next_chapter_url : string -> outcome (option string).
Variable empty_chapter_threshold : Z.

Abbreviation step := (loop_iteration fetch_page extract next_chapter_url empty_chapter_threshold).
Abbreviation run_loop := (run fetch_page extract next_chapter_url empty_chapter_threshold).
Abbreviation go_on := (advance next_chapter_url).

(** [advance] touches the current URL and the chapter number only, and
    the latter by one exactly when the loop goes on. *)
Lemma advance_cases st :
  match go_on st with
  | Continue st' =>
      exists next_url,
        next_chapter_url (current_chapter_url st) = Returned (Some next_url)
        /\ st' = move_to next_url st
  | Break r st' => r = NavigatorEnd /\ st' = st
  | Abort _ st' => st' = st
  end.
Proof.
  unfold advance.
  destruct (next_chapter_url (current_chapter_url st)) as [[u |] | e]; eauto.
Qed.

Lemma loop_iteration_pass st :
  match step st with
  | Continue st' =>
      exists mid next_url, pass st mid /\ mid <> st /\ st' = move_to next_url mid
  | Break _ st' | Abort _ st' => pass st st'
  end.
Proof.
  unfold loop_iteration.
  destruct (truthy (current_chapter_url st)) eqn:Hurl; cbn [negb]; [| constructor].
  destruct (bool_decide (current_chapter_url st ∈ processed_urls st)) eqn:Hin; [constructor |].
  apply bool_decide_eq_false in Hin.
  assert (Hvisit : forall s, trace s = trace (visit st) -> s <> st).
  { intros s Htr ->. cbn in Htr.
    apply (f_equal (@length event)) in Htr. cbn in Htr. lia. }
  destruct (truthy_opt _); [| now constructor].
  destruct (extract _) as [[t c] | e]; [| now constructor].
  destruct (truthy_opt c).
  - pose proof (advance_cases (record_chapter t (default EmptyString c) (visit st))) as Hadv.
    destruct (go_on _) as [st' | r st' | e st'].
    + destruct Hadv as (u & _ & ->). eexists; eexists.
      split; [now apply (pass_chapter st t (default EmptyString c)) |].
      split; [apply Hvisit; reflexivity | reflexivity].
    + destruct Hadv as [_ ->]. now constructor.
    + subst st'. now constructor.
  - cbn zeta. destruct (_ >=? _); [now constructor |].
    pose proof (advance_cases (count_empty (visit st))) as Hadv.
    destruct (go_on _) as [st' | r st' | e st'].
    + destruct Hadv as (u & _ & ->). eexists; eexists.
      split; [now apply pass_empty |].
      split; [apply Hvisit; reflexivity | reflexivity].
    + destruct Hadv as [_ ->]. now constructor.
    + subst st'. now constructor.
Qed.

(** The chapter number moves by one when the loop goes on, and not at
    all when it stops. *)
Lemma pass_chapter_number st mid : pass st mid -> chapter_number mid = chapter_number st.
Proof. intros []; reflexivity. Qed.

Lemma loop_iteration_chapter_number st :
  match step st with
  | Continue st' => chapter_number st' = chapter_number st + 1
  | Break _ st' | Abort _ st' => chapter_number st' = chapter_number st
  end.
Proof.
  pose proof (loop_iteration_pass st) as H.
  destruct (step st) as [st' | r st' | e st'].
  - destruct H as (mid & u & Hp & _ & ->). cbn. now rewrite (pass_chapter_number _ _ Hp).
  - now apply pass_chapter_number.
  - now apply pass_chapter_number.
Qed.

Lemma run_chapter_number n st st' :
  run_loop n st = Continue st' -> chapter_number st' = chapter_number st + Z.of_nat n.
Proof.
  revert st. induction n as [| n IH]; intros st Hrun.
  - cbn in Hrun. inversion Hrun; subst. lia.
  - cbn [run] in Hrun. pose proof (loop_iteration_chapter_number st) as Hstep.
    destruct (step st) as [mid | |]; [| discriminate..].
    rewrite (IH _ Hrun), Hstep. lia.
Qed.

(** A page with content and no usable title is recorded under the
    number of its pass. *)
Lemma loop_iteration_default_title st html t content :
  truthy (current_chapter_url st) = true ->
  current_chapter_url st ∉ processed_urls st ->
  fetch_page (fetched (trace st)) (current_chapter_url st) = Some html ->
  truthy html = true ->
  extract html = Returned (t, Some content) ->
  truthy content = true ->
  truthy_opt t = false ->
  chapter_contents (state_of (step st)) =
    (chapter_contents st ++
       [{| title := "Chapter " ++ str_of_int (chapter_number st);
           html_content := content |}])%list.
Proof.
  intros Hurl Hnew Hfetch Hhtml Hext Hcontent Htitle.
  unfold loop_iteration. rewrite Hurl. cbn [negb].
  rewrite bool_decide_eq_false_2 by exact Hnew.
  rewrite Hfetch. cbn [truthy_opt default from_option id]. rewrite Hhtml, Hext.
  cbn [truthy_opt]. rewrite Hcontent.
  pose proof (advance_cases (record_chapter t content (visit st))) as Hadv.
  destruct (go_on _) as [st' | r st' | e st'].
  - destruct Hadv as (u & _ & ->). cbn. now rewrite Htitle.
  - destruct Hadv as [_ ->]. cbn. now rewrite Htitle.
  - subst st'. cbn. now rewrite Htitle.
Qed.

(** A page with content resets the count of empty pages. *)
Lemma loop_iteration_resets_count st html t content :
  truthy (current_chapter_url st) = true ->
  current_chapter_url st ∉ processed_urls st ->
  fetch_page (fetched (trace st)) (current_chapter_url st) = Some html ->
  truthy html = true ->
  extract html = Returned (t, Some content) ->
  truthy content = true ->
  consecutive_empty_chapters (state_of (step st)) = 0.
Proof.
  intros Hurl Hnew Hfetch Hhtml Hext Hcontent.
  unfold loop_iteration. rewrite Hurl. cbn [negb].
  rewrite bool_decide_eq_false_2 by exact Hnew.
  rewrite Hfetch. cbn [truthy_opt default from_option id]. rewrite Hhtml, Hext.
  cbn [truthy_opt]. rewrite Hcontent.
  pose proof (advance_cases (record_chapter t content (visit st))) as Hadv.
  destruct (go_on _) as [st' | r st' | e st'].
  - destruct Hadv as (u & _ & ->). reflexivity.
  - destruct Hadv as [_ ->]. reflexivity.
  - subst st'. reflexivity.
Qed.

End TraversalFacts.

(** C7: the chapter index is 1 at the start; a pass of the loop that
    advances to a next URL adds exactly 1 to it, with or without
    content on the page, and a pass that stops leaves it alone, so after
    [n] advances it is [1 + n]; and a page with content for which the
    extractor returned no title is recorded with the title
    "Chapter " followed by the index of that pass. *)
Theorem chapter_index_counts_advances
    (fetch_page : list string -> string -> option string)
    (extract : string -> outcome (option string * option string))
    (next_chapter_url : string -> outcome (option string))
    (threshold : Z) (start : string) :
  chapter_number (initial_state start) = 1
  /\ (forall st,
        match loop_iteration fetch_page extract next_chapter_url threshold st with
        | Continue st' => chapter_number st' = chapter_number st + 1
        | Break _ st' | Abort _ st' => chapter_number st' = chapter_number st
        end)
  /\ (forall n st,
        run fetch_page extract next_chapter_url threshold n (initial_state start) = Continue st ->
        chapter_number st = 1 + Z.of_nat n)
  /\ (forall st html content,
        truthy (current_chapter_url st) = true ->
        current_chapter_url st ∉ processed_urls st ->
        fetch_page (fetched (trace st)) (current_chapter_url st) = Some html ->
        truthy html = true ->
        extract html = Returned (None, Some content) ->
        truthy content = true ->
        chapter_contents
          (state_of (loop_iteration fetch_page extract next_chapter_url threshold st)) =
          (chapter_contents st ++
             [{| title := "Chapter " ++ str_of_int (chapter_number st);
                 html_content := content |}])%list).
Proof.
  split; [reflexivity |]. split; [| split].
  - intros st. apply loop_iteration_chapter_number.
  - intros n st Hrun. now rewrite (run_chapter_number _ _ _ _ _ _ _ Hrun).
  - intros st html content Hurl Hnew Hfetch Hhtml Hext Hcontent.
    now apply (loop_iteration_default_title _ _ _ _ st html None content).
Qed.

Lemma chapter_index_counts_advances_witness :
  let extract := extract_content Fixture.parse_html SimpleCss.css Fixture.untitled_extractor in
  let next := get_next_chapter_url RePattern.search Fixture.site_navigator in
  let st := initial_state "https://x.test/c-1.html" in
  (exists st2, run Fixture.site extract next 3 2 st = Continue st2 /\ chapter_number st2 = 3)
  /\ map title (chapter_contents (state_of (loop_iteration Fixture.site extract next 3 st)))
     = ["Chapter 1"].
Proof.
  intros extract next st.
  destruct (chapter_index_counts_advances Fixture.site extract next 3 "https://x.test/c-1.html")
    as (_ & _ & Hrun & Htitle).
  split.
  - destruct (run Fixture.site extract next 3 2 st) as [st2 | |] eqn:E; [| discriminate E..].
    exists st2. split; [reflexivity |]. now rewrite (Hrun 2%nat st2 E).
  - rewrite (Htitle st Fixture.page_full "<article><p>Text</p></article>");
      [reflexivity | reflexivity | set_solver | reflexivity | reflexivity | reflexivity
       | reflexivity].
Defined.

Section VisitedFacts.

Variable fetch_page : list string -> string -> option string.
Variable extract : string -> outcome (option string * option string).
Variable next_chapter_url : string -> outcome (option string).
Variable empty_chapter_threshold : Z.

Abbreviation step1 := (loop_iteration fetch_page extract next_chapter_url empty_chapter_threshold).
Abbreviation run1 := (run fetch_page extract next_chapter_url empty_chapter_threshold).

Lemma fetched_In tr u : In u (fetched tr) <-> In (EvFetch u) tr.
Proof.
  induction tr as [| [v | v] tr IH]; cbn; [tauto | |].
  - rewrite IH. split; [tauto | intros [H | H]; [discriminate | exact H]].
  - rewrite IH. split; [intros [-> | H]; tauto | intros [H | H]; [inversion H |]; tauto].
Qed.

Lemma visited_inv_initial start : visited_inv (initial_state start).
Proof.
  repeat split; [intros u [] | constructor | intros u Hu; cbn in Hu; set_solver].
Qed.

Lemma visited_inv_visit st :
  truthy (current_chapter_url st) = true ->
  current_chapter_url st ∉ processed_urls st -> visited_inv st -> visited_inv (visit st).
Proof.
  intros Hurl Hnew (Hord & Hsub & Hnodup & Htruthy).
  assert (Hfresh : ~ In (EvFetch (current_chapter_url st)) (trace st)).
  { intros H. apply Hnew, Hsub, H. }
  split; [| split; [| split]].
  - cbn. split; [now left |]. split; [| exact Hord].
    intros [H | H]; [discriminate | now apply Hfresh].
  - cbn. intros u [H | [H | H]]; [inversion H; set_solver | discriminate |].
    apply Hsub in H. set_solver.
  - cbn. apply NoDup_cons_2; [| exact Hnodup].
    rewrite list_elem_of_In, fetched_In. exact Hfresh.
  - cbn. intros u Hu. apply elem_of_union in Hu as [Hu | Hu]; [| now apply Htruthy].
    apply elem_of_singleton in Hu. now subst u.
Qed.

Lemma visited_inv_pass st st' : pass st st' -> visited_inv st -> visited_inv st'.
Proof.
  intros [st0 | st0 Hurl Hnew | st0 t c Hurl Hnew | st0 Hurl Hnew] Hinv;
    [exact Hinv | now apply visited_inv_visit | |];
    apply (visited_inv_visit _ Hurl Hnew) in Hinv; exact Hinv.
Qed.

Lemma pass_grows st st' : pass st st' -> processed_urls st ⊆ processed_urls st'.
Proof. intros []; cbn; set_solver. Qed.

Lemma visited_inv_step st : visited_inv st -> visited_inv (state_of (step1 st)).
Proof.
  intros Hinv. pose proof (loop_iteration_pass fetch_page extract next_chapter_url
                             empty_chapter_threshold st) as H.
  destruct (step1 st) as [st' | r st' | e st']; cbn [state_of].
  - destruct H as (mid & u & Hp & _ & ->). exact (visited_inv_pass _ _ Hp Hinv).
  - exact (visited_inv_pass _ _ H Hinv).
  - exact (visited_inv_pass _ _ H Hinv).
Qed.

Lemma step_grows st : processed_urls st ⊆ processed_urls (state_of (step1 st)).
Proof.
  pose proof (loop_iteration_pass fetch_page extract next_chapter_url
                empty_chapter_threshold st) as H.
  destruct (step1 st) as [st' | r st' | e st']; cbn [state_of].
  - destruct H as (mid & u & Hp & _ & ->). exact (pass_grows _ _ Hp).
  - exact (pass_grows _ _ H).
  - exact (pass_grows _ _ H).
Qed.

Lemma run_unfold n st :
  run1 (S n) st = match step1 st with Continue st' => run1 n st' | r => r end.
Proof. reflexivity. Qed.

Lemma visited_inv_run n st : visited_inv st -> visited_inv (state_of (run1 n st)).
Proof.
  revert st. induction n as [| n IH]; intros st Hinv; [exact Hinv |].
  rewrite run_unfold. pose proof (visited_inv_step st Hinv) as Hstep.
  destruct (step1 st) as [st' | r st' | e st']; [now apply IH | exact Hstep..].
Qed.

Lemma run_grows n st : processed_urls st ⊆ processed_urls (state_of (run1 n st)).
Proof.
  revert st. induction n as [| n IH]; intros st; [reflexivity |].
  rewrite run_unfold. pose proof (step_grows st) as Hstep.
  destruct (step1 st) as [st' | r st' | e st']; [| exact Hstep..].
  cbn [state_of] in Hstep. etransitivity; [exact Hstep | apply IH].
Qed.

(** A URL of the visited set is not fetched again: the loop is left
    with the state, and so the trace, as they were. *)
Lemma step_revisit st :
  truthy (current_chapter_url st) = true ->
  current_chapter_url st ∈ processed_urls st ->
  step1 st = Break UrlLoop st.
Proof.
  intros Hurl Hin. unfold loop_iteration. rewrite Hurl. cbn [negb].
  now rewrite bool_decide_eq_true_2 by exact Hin.
Qed.

End VisitedFacts.

Section RunFacts.

Variable fetch_page : list string -> string -> option string.
Variable extract : string -> outcome (option string * option string).
Variable next_chapter_url : string -> outcome (option string).
Variable empty_chapter_threshold : Z.

Abbreviation step2 := (loop_iteration fetch_page extract next_chapter_url empty_chapter_threshold).
Abbreviation run2 := (run fetch_page extract next_chapter_url empty_chapter_threshold).

(** One more pass after [n] passes. *)
Lemma run_snoc n st :
  run2 (S n) st = match run2 n st with Continue st' => step2 st' | r => r end.
Proof.
  revert st. induction n as [| n IH]; intros st.
  - cbn. now destruct (step2 st).
  - rewrite run_unfold. destruct (step2 st) as [st' | r st' | e st'] eqn:E.
    + rewrite IH. cbn [run]. now rewrite E.
    + cbn [run]. now rewrite E.
    + cbn [run]. now rewrite E.
Qed.

(** Reaching a visited URL ends the loop on the spot. *)
Lemma run_revisit n st0 st :
  visited_inv st0 ->
  run2 n st0 = Continue st ->
  current_chapter_url st ∈ processed_urls st ->
  run2 (S n) st0 = Break UrlLoop st.
Proof.
  intros Hinv Hrun Hin. rewrite run_snoc, Hrun.
  apply step_revisit; [| exact Hin].
  pose proof (visited_inv_run fetch_page extract next_chapter_url empty_chapter_threshold
                n st0 Hinv) as (_ & _ & _ & Htruthy).
  rewrite Hrun in Htruthy. now apply Htruthy.
Qed.

End RunFacts.

(** C2: in a traversal run no URL is fetched twice.  After any number
    of passes from the initial state, the fetched URLs are pairwise
    distinct, and in the order of events every fetch of a URL comes
    after the URL joined the visited set; the visited set only grows;
    and when the loop arrives at a URL that is already in the visited
    set (the navigator returned it), the next pass leaves the loop at
    the loop guard with the state unchanged, so without a fetch. *)
Theorem no_url_fetched_twice
    (fetch_page : list string -> string -> option string)
    (extract : string -> outcome (option string * option string))
    (next_chapter_url : string -> outcome (option string))
    (threshold : Z) (start : string) (n : nat) :
  let run_n := run fetch_page extract next_chapter_url threshold in
  let final := state_of (run_n n (initial_state start)) in
  NoDup (fetched (trace final))
  /\ added_before_fetched_once (trace final)
  /\ (forall u, In u (fetched (trace final)) -> u ∈ processed_urls final)
  /\ (forall k st, processed_urls st ⊆ processed_urls (state_of (run_n k st)))
  /\ (forall st,
        run_n n (initial_state start) = Continue st ->
        current_chapter_url st ∈ processed_urls st ->
        run_n (S n) (initial_state start) = Break UrlLoop st).
Proof.
  intros run_n final.
  destruct (visited_inv_run fetch_page extract next_chapter_url threshold n
              (initial_state start) (visited_inv_initial start))
    as (Hord & Hsub & Hnodup & _).
  split; [exact Hnodup |]. split; [exact Hord |]. split; [| split].
  - intros u Hu. apply Hsub. now apply fetched_In.
  - intros k st. apply run_grows.
  - intros st Hrun Hin. apply run_revisit; [apply visited_inv_initial | exact Hrun | exact Hin].
Qed.

Lemma no_url_fetched_twice_witness :
  let extract := extract_content Fixture.parse_html SimpleCss.css Fixture.extractor in
  let back_to_start := fun _ : string => Returned (Some "https://x.test/c-1.html") in
  let run_n := run Fixture.site extract back_to_start 3 in
  exists st,
    run_n 2%nat (initial_state "https://x.test/c-1.html") = Break UrlLoop st
    /\ fetched (trace st) = ["https://x.test/c-1.html"]
    /\ NoDup (fetched (trace st)).
Proof.
  intros extract back_to_start run_n.
  destruct (no_url_fetched_twice Fixture.site extract back_to_start 3
              "https://x.test/c-1.html" 1) as (_ & _ & _ & _ & Hloop).
  destruct (run_n 1%nat (initial_state "https://x.test/c-1.html")) as [st | |] eqn:E;
    [| discriminate E..].
  assert (Hst : current_chapter_url st ∈ processed_urls st).
  { vm_compute in E. inversion E; subst st. cbn. set_solver. }
  exists st. split; [exact (Hloop st E Hst) |].
  assert (Hf : fetched (trace st) = ["https://x.test/c-1.html"]).
  { vm_compute in E. inversion E; subst st. reflexivity. }
  split; [exact Hf |].
  rewrite Hf. apply NoDup_singleton.
Defined.

Section EmptyRunFacts.

Variable fetch_page : list string -> string -> option string.
Variable extract : string -> outcome (option string * option string).
Variable next_chapter_url : string -> outcome (option string).
Variable empty_chapter_threshold : Z.

Abbreviation step3 := (loop_iteration fetch_page extract next_chapter_url empty_chapter_threshold).
Abbreviation run3 := (run fetch_page extract next_chapter_url empty_chapter_threshold).
Abbreviation is_empty_page := (empty_page fetch_page extract).
Abbreviation is_empty_run := (empty_run fetch_page extract next_chapter_url).

(** A pass on a page without content: the page is counted, and the
    count decides between stopping and advancing. *)
Lemma step_empty_page st :
  is_empty_page st = true ->
  step3 st =
    let st1 := count_empty (visit st) in
    if consecutive_empty_chapters st1 >=? empty_chapter_threshold
    then Break EmptyStreak st1
    else advance next_chapter_url st1.
Proof.
  unfold empty_page, loop_iteration. intros H.
  apply andb_true_iff in H as [H Hpage]. apply andb_true_iff in H as [Hurl Hnew].
  rewrite Hurl. cbn [negb]. apply negb_true_iff in Hnew. rewrite Hnew.
  destruct (fetch_page _ _) as [html |]; [| discriminate].
  apply andb_true_iff in Hpage as [Hhtml Hext].
  cbn [truthy_opt default from_option id]. rewrite Hhtml.
  destruct (extract html) as [[t c] | e]; [| discriminate].
  apply negb_true_iff in Hext. rewrite Hext. reflexivity.
Qed.

(** A run of pages without content that brings the count to the
    threshold: the loop stops on its last page. *)
Lemma empty_run_reaches_threshold us : forall u st,
  0 <= consecutive_empty_chapters st ->
  consecutive_empty_chapters st + Z.of_nat (length (u :: us)) = empty_chapter_threshold ->
  is_empty_run st (u :: us) = true ->
  exists st',
    run3 (length (u :: us)) st = Break EmptyStreak st'
    /\ chapter_contents st' = chapter_contents st
    /\ consecutive_empty_chapters st' = empty_chapter_threshold
    /\ fetched (trace st') = (rev (u :: us) ++ fetched (trace st))%list.
Proof.
  induction us as [| u' us IH]; intros u st Hc Hlen Hrun.
  - cbn [empty_run] in Hrun. rewrite andb_true_r in Hrun.
    apply andb_true_iff in Hrun as [Hu Hpage]. apply String.eqb_eq in Hu.
    cbn [length] in Hlen. cbn [length run]. rewrite (step_empty_page _ Hpage). cbn zeta.
    assert (Hge : (consecutive_empty_chapters (count_empty (visit st))
                   >=? empty_chapter_threshold) = true).
    { cbn. rewrite Z.geb_leb. apply Z.leb_le. lia. }
    rewrite Hge. eexists. split; [reflexivity |].
    cbn. rewrite Hu. repeat split. lia.
  - cbn [empty_run] in Hrun.
    apply andb_true_iff in Hrun as [Hrun Hnext].
    apply andb_true_iff in Hrun as [Hu Hpage]. apply String.eqb_eq in Hu.
    destruct (next_chapter_url u) as [[v |] | e] eqn:Hnav; [| discriminate..].
    apply andb_true_iff in Hnext as [Hv Hrest]. apply String.eqb_eq in Hv. subst v.
    change (length (u :: u' :: us)) with (S (length (u' :: us))) in *.
    rewrite run_unfold, (step_empty_page _ Hpage). cbn zeta.
    assert (Hlt : (consecutive_empty_chapters (count_empty (visit st))
                   >=? empty_chapter_threshold) = false).
    { cbn [consecutive_empty_chapters count_empty visit].
      rewrite Z.geb_leb. apply Z.leb_gt. cbn [length] in Hlen |- *. lia. }
    rewrite Hlt. unfold advance.
    cbn [current_chapter_url count_empty visit]. rewrite Hu, Hnav.
    destruct (IH u' (move_to u' (count_empty (visit st)))) as (st' & Hst' & Hcont & Hcount & Hf).
    + cbn. lia.
    + cbn [consecutive_empty_chapters move_to count_empty visit]. lia.
    + exact Hrest.
    + exists st'. split; [exact Hst' |]. split; [exact Hcont |]. split; [exact Hcount |].
      rewrite Hf. cbn [trace move_to count_empty visit fetched].
      rewrite Hu. cbn [rev]. now rewrite <- !app_assoc.
Qed.

(** With a threshold of 0 or less the first page without content ends
    the loop, whatever the count was. *)
Lemma nonpositive_threshold_stops st :
  empty_chapter_threshold <= 0 ->
  0 <= consecutive_empty_chapters st ->
  is_empty_page st = true ->
  step3 st = Break EmptyStreak (count_empty (visit st)).
Proof.
  intros HT Hc Hpage. rewrite (step_empty_page _ Hpage). cbn zeta.
  assert (Hge : (consecutive_empty_chapters (count_empty (visit st))
                 >=? empty_chapter_threshold) = true).
  { cbn. rewrite Z.geb_leb. apply Z.leb_le. lia. }
  now rewrite Hge.
Qed.

End EmptyRunFacts.

(** C1: for every threshold [T], when the traversal, its count of
    empty pages being 0 (as at the start and after a page with content),
    meets a run of exactly [T] pages in a row (the run [u :: us] has [T]
    pages) that are fetched with success and yield no content, the loop is left at the last page of the run because of
    the streak: exactly these pages were fetched, the count is [T], and
    the list of chapters is what it was before the run. *)
Theorem empty_run_stops_traversal
    (fetch_page : list string -> string -> option string)
    (extract : string -> outcome (option string * option string))
    (next_chapter_url : string -> outcome (option string))
    (T : Z) (st : TraversalState) (u : string) (us : list string) :
  consecutive_empty_chapters st = 0 ->
  Z.of_nat (length (u :: us)) = T ->
  empty_run fetch_page extract next_chapter_url st (u :: us) = true ->
  exists st',
    run fetch_page extract next_chapter_url T (length (u :: us)) st = Break EmptyStreak st'
    /\ chapter_contents st' = chapter_contents st
    /\ consecutive_empty_chapters st' = T
    /\ fetched (trace st') = (rev (u :: us) ++ fetched (trace st))%list.
Proof.
  intros Hzero Hlen Hrun.
  apply empty_run_reaches_threshold; [lia | lia | exact Hrun].
Qed.

Lemma empty_run_stops_traversal_witness :
  let extract := extract_content Fixture.parse_html SimpleCss.css Fixture.extractor in
  let next := get_next_chapter_url RePattern.search Fixture.site_navigator in
  exists st',
    run Fixture.site extract next 2 2 (initial_state "https://x.test/c-3.html")
    = Break EmptyStreak st'
    /\ chapter_contents st' = []
    /\ consecutive_empty_chapters st' = 2
    /\ fetched (trace st') = ["https://x.test/c-4.html"; "https://x.test/c-3.html"].
Proof.
  intros extract next.
  apply (empty_run_stops_traversal Fixture.site extract next 2
           (initial_state "https://x.test/c-3.html")
           "https://x.test/c-3.html" ["https://x.test/c-4.html"]).
  - reflexivity.
  - reflexivity.
  - vm_compute. reflexivity.
Defined.

(** * The rest of the program: properties *)

Example splitext_ex :
  map PyStr.splitext_ext
    ["/a/b.jpg"; "/a/b"; "/a/.hidden"; "/a/..x.png"; "/a.b/c"; "/a/b.tar.gz"; "/a/b.";
     "/a/..."; "/a/b.JPEG"; "x.y/"; "/cover.png"]
  = [".jpg"; EmptyString; EmptyString; ".png"; EmptyString; ".gz"; "."; EmptyString;
     ".JPEG"; EmptyString; ".png"].
Proof. reflexivity. Qed.

Example replace_all_ex :
  PyStr.replace_all ".epub" EmptyString "a.epub.epub" = "a"
  /\ PyStr.replace_all EmptyString "-" "abc" = "-a-b-c-"
  /\ PyStr.replace_all "aa" "b" "aaa" = "ba"
  /\ PyStr.after_last "/" "x/y/z.epub" = "z.epub"
  /\ PyStr.after_last "/" "x/" = EmptyString.
Proof. repeat split; reflexivity. Qed.

(** ** The output file name, for every title *)

Section StringFacts.
Import PyStr.

Lemma append_cons c s1 s2 : String c s1 ++ s2 = String c (s1 ++ s2).
Proof. reflexivity. Qed.

Lemma append_nil_l s : EmptyString ++ s = s.
Proof. reflexivity. Qed.

Lemma all_chars_app p s1 s2 :
  all_chars p (s1 ++ s2) = (all_chars p s1 && all_chars p s2)%bool.
Proof.
  induction s1 as [| c s1 IH]; [reflexivity |].
  rewrite append_cons. cbn [all_chars]. now rewrite IH, andb_assoc.
Qed.

Lemma all_chars_filter_map (p q : ascii -> bool) (f : ascii -> ascii) s :
  (forall c, p (f c) = true -> q (f c) = true) ->
  all_chars q (filter_chars p (map_chars f s)) = true.
Proof.
  intros H. induction s as [| c s IH]; cbn; [reflexivity |].
  destruct (p (f c)) eqn:E; [| exact IH]. cbn. now rewrite (H c E), IH.
Qed.

Lemma squeeze_cons c x s :
  squeeze c (String x s) =
    if (Ascii.eqb x c && match first_char s with Some y => Ascii.eqb y c | None => false end)%bool
    then squeeze c s else String x (squeeze c s).
Proof.
  cbn [squeeze]. destruct (Ascii.eqb x c); [| reflexivity].
  destruct s as [| y s]; [reflexivity |]. cbn [first_char andb].
  destruct (Ascii.eqb y c); reflexivity.
Qed.

Lemma all_chars_squeeze p c s : all_chars p s = true -> all_chars p (squeeze c s) = true.
Proof.
  induction s as [| x s IH]; [reflexivity |].
  intros H. cbn [all_chars] in H. apply andb_true_iff in H as [Hx Hs].
  rewrite squeeze_cons. destruct (_ && _)%bool; [now apply IH |].
  cbn [all_chars]. now rewrite Hx, IH.
Qed.

Lemma all_chars_lstrip p q s : all_chars p s = true -> all_chars p (lstrip q s) = true.
Proof.
  induction s as [| x s IH]; [reflexivity |].
  intros H. cbn [lstrip]. destruct (q x); [| exact H].
  cbn [all_chars] in H. apply andb_true_iff in H as [_ Hs]. now apply IH.
Qed.

Lemma rstrip_cons q x s :
  rstrip q (String x s) =
    match rstrip q s with
    | EmptyString => if q x then EmptyString else String x EmptyString
    | r => String x r
    end.
Proof. reflexivity. Qed.

Lemma all_chars_rstrip p q s : all_chars p s = true -> all_chars p (rstrip q s) = true.
Proof.
  induction s as [| x s IH]; [reflexivity |].
  intros H. cbn [all_chars] in H. apply andb_true_iff in H as [Hx Hs].
  rewrite rstrip_cons. specialize (IH Hs).
  destruct (rstrip q s) as [| y r].
  - destruct (q x); [reflexivity |]. cbn. now rewrite Hx.
  - cbn [all_chars] in IH |- *. now rewrite Hx, IH.
Qed.

Lemma all_chars_strip p q s : all_chars p s = true -> all_chars p (strip q s) = true.
Proof. intros H. unfold strip. now apply all_chars_rstrip, all_chars_lstrip. Qed.

(** What [strip] leaves neither begins nor ends with a stripped
    character. *)
Lemma lstrip_first q s :
  match first_char (lstrip q s) with Some c => q c = false | None => True end.
Proof.
  induction s as [| x s IH]; [exact I |].
  cbn [lstrip]. destruct (q x) eqn:E; [exact IH | exact E].
Qed.

Lemma rstrip_first q s :
  match first_char s with Some c => q c = false | None => True end ->
  first_char (rstrip q s) = first_char s.
Proof.
  destruct s as [| x s]; [reflexivity |]. cbn [first_char]. intros Hx.
  rewrite rstrip_cons. destruct (rstrip q s); [now rewrite Hx | reflexivity].
Qed.

Lemma rstrip_last q s :
  match last_char (rstrip q s) with Some c => q c = false | None => True end.
Proof.
  induction s as [| x s IH]; [exact I |].
  rewrite rstrip_cons. destruct (rstrip q s) as [| y r].
  - destruct (q x) eqn:E; [exact I | exact E].
  - exact IH.
Qed.

Lemma strip_edges q s :
  match first_char (strip q s) with Some c => q c = false | None => True end
  /\ match last_char (strip q s) with Some c => q c = false | None => True end.
Proof.
  unfold strip. split; [| apply rstrip_last].
  rewrite rstrip_first by apply lstrip_first. apply lstrip_first.
Qed.

End StringFacts.

Lemma sanitize_char_kept (c : ascii) :
  let c' := (fun c => if Ascii.eqb c " " then "_"%char else c) (lower_char c) in
  (is_word c' || Ascii.eqb c' "-")%bool = true -> filename_char c' = true.
Proof.
  destruct c as [[] [] [] [] [] [] [] []]; vm_compute; intros H; first [reflexivity | discriminate H].
Qed.

Lemma map_chars_compose f g s : map_chars g (map_chars f s) = map_chars (fun c => g (f c)) s.
Proof. induction s as [| c s IH]; cbn; [reflexivity | now rewrite IH]. Qed.


(** X2: the stem of the file name neither begins nor ends with an
    underscore or a hyphen. *)
Theorem sanitize_filename_edges (title : string) :
  exists stem,
    _sanitize_filename title = stem ++ ".epub"
    /\ match first_char stem with Some c => is_edge c = false | None => True end
    /\ match last_char stem with Some c => is_edge c = false | None => True end.
Proof.
  unfold _sanitize_filename. eexists. split; [reflexivity |].
  apply (strip_edges is_edge).
Qed.

Section PairFacts.
Import PyStr.

Lemma has_pair_cons c x s :
  has_pair c (String x s) =
    ((Ascii.eqb x c && match first_char s with Some y => Ascii.eqb y c | None => false end)
     || has_pair c s)%bool.
Proof. destruct s as [| y s]; cbn; [now rewrite andb_false_r | reflexivity]. Qed.

Lemma squeeze_first c s : first_char (squeeze c s) = first_char s.
Proof.
  induction s as [| x s IH]; [reflexivity |].
  rewrite squeeze_cons. destruct (Ascii.eqb x c) eqn:Ex; [| reflexivity].
  cbn [andb]. destruct (first_char s) as [y |] eqn:Ey; [| reflexivity].
  destruct (Ascii.eqb y c) eqn:Eyc; [| reflexivity].
  rewrite IH. cbn. apply Ascii.eqb_eq in Ex, Eyc. congruence.
Qed.

(** Squeezing [c] leaves no pair of [c], and makes no pair of any
    other character. *)
Lemma squeeze_no_pair c s : has_pair c (squeeze c s) = false.
Proof.
  induction s as [| x s IH]; [reflexivity |].
  rewrite squeeze_cons.
  destruct (Ascii.eqb x c && _)%bool eqn:E; [exact IH |].
  now rewrite has_pair_cons, squeeze_first, E, IH.
Qed.

Lemma squeeze_keeps_no_pair a c s : has_pair a s = false -> has_pair a (squeeze c s) = false.
Proof.
  induction s as [| x s IH]; [reflexivity |].
  rewrite has_pair_cons. intros H. apply orb_false_iff in H as [Hx Hs].
  rewrite squeeze_cons. destruct (Ascii.eqb x c && _)%bool; [now apply IH |].
  now rewrite has_pair_cons, squeeze_first, Hx, IH.
Qed.

Lemma lstrip_keeps_no_pair a q s : has_pair a s = false -> has_pair a (lstrip q s) = false.
Proof.
  induction s as [| x s IH]; [reflexivity |].
  intros H. cbn [lstrip]. destruct (q x); [| exact H].
  rewrite has_pair_cons in H. apply orb_false_iff in H as [_ Hs]. now apply IH.
Qed.

Lemma rstrip_first_of q s y r : rstrip q s = String y r -> first_char s = Some y.
Proof.
  destruct s as [| x s]; [discriminate |].
  rewrite rstrip_cons. destruct (rstrip q s); [destruct (q x) |]; intros H; inversion H; reflexivity.
Qed.

Lemma rstrip_keeps_no_pair a q s : has_pair a s = false -> has_pair a (rstrip q s) = false.
Proof.
  induction s as [| x s IH]; [reflexivity |].
  rewrite has_pair_cons. intros H. apply orb_false_iff in H as [Hx Hs].
  rewrite rstrip_cons. specialize (IH Hs).
  destruct (rstrip q s) as [| y r] eqn:E; [destruct (q x); reflexivity |].
  rewrite has_pair_cons, IH. cbn [first_char].
  rewrite (rstrip_first_of _ _ _ _ E) in Hx. now rewrite Hx.
Qed.

Lemma strip_keeps_no_pair a q s : has_pair a s = false -> has_pair a (strip q s) = false.
Proof. intros H. unfold strip. now apply rstrip_keeps_no_pair, lstrip_keeps_no_pair. Qed.

End PairFacts.

(** X3: in the stem of the file name no two underscores and no two
    hyphens stand next to each other. *)
Theorem sanitize_filename_no_runs (title : string) :
  exists stem,
    _sanitize_filename title = stem ++ ".epub"
    /\ has_pair "_" stem = false
    /\ has_pair "-" stem = false.
Proof.
  unfold _sanitize_filename. eexists. split; [reflexivity |]. split.
  - apply strip_keeps_no_pair, squeeze_keeps_no_pair, squeeze_no_pair.
  - apply strip_keeps_no_pair, squeeze_no_pair.
Qed.

Section AlnumFacts.
Import PyStr.










Lemma length_append s1 s2 :
  String.length (s1 ++ s2) = (String.length s1 + String.length s2)%nat.
Proof.
  induction s1 as [| c s1 IH]; [reflexivity |].
  rewrite append_cons. cbn [String.length]. now rewrite IH.
Qed.

End AlnumFacts.


(** ** The navigator, for every pattern and URL *)

Section NavigatorMore.

Variable re_search : string -> string -> outcome (option Re.Match).
Variable self : URLChapterNavigator.

(** How the [try] block can end. *)
Lemma next_url_body_cases m url :
  match next_url_body self m url with
  | Returned (Some next_url) => next_url <> url
  | Returned None => True
  | Raised e => e = ValueError \/ e = IndexError \/ e = TypeError
  end.
Proof.
  unfold next_url_body, number_group, Re.group, py_int, re_sub_digits, str_replace1.
  destruct (if (1 <? length (Re.groups m))%nat then _ else _) as [[g |] | e] eqn:Hg; cbn [bind].
  - destruct (int_of_str g) as [n |]; cbn [bind]; [| now left].
    destruct (nth_error (Re.groups m) (Nat.pred 1)) as [[segment |] |]; cbn [bind];
      [| now right; right | now right; left].
    destruct (String.eqb _ url) eqn:E; [exact I | now apply String.eqb_neq].
  - now right; right.
  - destruct (1 <? length (Re.groups m))%nat;
      destruct (nth_error (Re.groups m) _); inversion Hg; now right; left.
Qed.

End NavigatorMore.

(** X5: whatever the pattern, the engine and the URL, a URL returned by
    the navigator differs from the current one. *)
Theorem next_url_differs
    (re_search : string -> string -> outcome (option Re.Match))
    (self : URLChapterNavigator) (url next_url : string) :
  get_next_chapter_url re_search self url = Returned (Some next_url) ->
  next_url <> url.
Proof.
  unfold get_next_chapter_url.
  destruct (re_search (url_pattern self) url) as [[m |] | e]; [| discriminate..].
  pose proof (next_url_body_cases self m url) as H.
  destruct (next_url_body self m url) as [[u |] | e]; cbn.
  - intros E. inversion E; subst. exact H.
  - discriminate.
  - destruct e; discriminate.
Qed.

Lemma next_url_differs_witness :
  "https://x.test/chapter-8.html" <> "https://x.test/chapter-7.html".
Proof.
  apply (next_url_differs RePattern.search (navigator "(/chapter-(\d+)\.html)" 1)).
  reflexivity.
Defined.

(** X6: the only exceptions that leave [get_next_chapter_url] are the
    one [re.search] raised and [TypeError]; [ValueError] and
    [IndexError] from the body never reach the caller. *)
Theorem next_url_raises_only
    (re_search : string -> string -> outcome (option Re.Match))
    (self : URLChapterNavigator) (url : string) (e : exn) :
  get_next_chapter_url re_search self url = Raised e ->
  re_search (url_pattern self) url = Raised e
  \/ (e = TypeError /\ exists m, re_search (url_pattern self) url = Returned (Some m)).
Proof.
  unfold get_next_chapter_url.
  destruct (re_search (url_pattern self) url) as [[m |] | e0];
    [| discriminate | intros E; inversion E; now left].
  pose proof (next_url_body_cases self m url) as H.
  destruct (next_url_body self m url) as [[u |] | e1]; cbn; [discriminate.. |].
  destruct H as [-> | [-> | ->]]; [discriminate.. |].
  intros E. inversion E; subst. right. split; [reflexivity | now exists m].
Qed.

Lemma next_url_raises_only_witness :
  RePattern.search "(vol-)?chapter-(\d+)" "https://x.test/chapter-7.html" = Raised TypeError
  \/ (TypeError = TypeError
      /\ exists m, RePattern.search "(vol-)?chapter-(\d+)" "https://x.test/chapter-7.html"
                   = Returned (Some m)).
Proof.
  apply (next_url_raises_only RePattern.search (navigator "(vol-)?chapter-(\d+)" 1)
           "https://x.test/chapter-7.html" TypeError).
  reflexivity.
Defined.

(** ** Integers and their text *)

Section IntFacts.
Import PyStr.

Lemma digit_char_spec d :
  0 <= d <= 9 -> is_digit (digit_char d) = true /\ digit_value (digit_char d) = d.
Proof.
  intros H.
  assert (Hd : d = 0 \/ d = 1 \/ d = 2 \/ d = 3 \/ d = 4 \/ d = 5 \/ d = 6 \/ d = 7
               \/ d = 8 \/ d = 9) by lia.
  repeat (destruct Hd as [-> | Hd]; [split; reflexivity |]). subst d. split; reflexivity.
Qed.

Lemma append_assoc s1 s2 s3 : (s1 ++ s2) ++ s3 = s1 ++ (s2 ++ s3).
Proof.
  induction s1 as [| c s1 IH]; [reflexivity |]. rewrite !append_cons. now rewrite IH.
Qed.

Lemma append_nil_r s : s ++ EmptyString = s.
Proof. induction s as [| c s IH]; [reflexivity |]. rewrite append_cons. now rewrite IH. Qed.

Lemma parse_digits_digit a p c s :
  is_digit c = true ->
  parse_digits a p (String c s) = parse_digits (a * 10 + digit_value c) true s.
Proof. intros H. cbn [parse_digits]. now rewrite H. Qed.

Lemma digits_of_S fuel n acc :
  digits_of (S fuel) n acc =
    if n <? 10 then String (digit_char (n mod 10)) acc
    else digits_of fuel (n / 10) (String (digit_char (n mod 10)) acc).
Proof. reflexivity. Qed.

(** The digits [digits_of] puts before [acc]: they are read back as
    [n], whatever follows them. *)
Lemma digits_of_spec fuel : forall n acc,
  0 <= n < 10 ^ Z.of_nat (S fuel) ->
  exists ds,
    digits_of (S fuel) n acc = ds ++ acc
    /\ ds <> EmptyString
    /\ all_chars is_digit ds = true
    /\ forall a p rest,
         parse_digits a p (ds ++ rest)
         = parse_digits (a * 10 ^ Z.of_nat (String.length ds) + n) true rest.
Proof.
  induction fuel as [| fuel IH]; intros n acc Hn.
  all: rewrite digits_of_S; destruct (n <? 10) eqn:Hlt.
  1, 3: apply Z.ltb_lt in Hlt; exists (String (digit_char (n mod 10)) EmptyString);
    rewrite Z.mod_small by lia;
    destruct (digit_char_spec n ltac:(lia)) as [Hd Hv];
    (split; [reflexivity |]); (split; [discriminate |]); (split; [cbn; now rewrite Hd |]);
    intros a p rest; rewrite append_cons, append_nil_l, (parse_digits_digit _ _ _ _ Hd), Hv;
    cbn [String.length]; f_equal; lia.
  - apply Z.ltb_ge in Hlt. cbn in Hn. lia.
  - apply Z.ltb_ge in Hlt.
    assert (Hm : 0 <= n mod 10 <= 9) by (pose proof (Z.mod_pos_bound n 10); lia).
    destruct (digit_char_spec (n mod 10) Hm) as [Hd Hv].
    assert (Hq : 0 <= n / 10 < 10 ^ Z.of_nat (S fuel)).
    { split; [apply Z.div_pos; lia |].
      apply Z.div_lt_upper_bound; [lia |].
      replace (Z.of_nat (S (S fuel))) with (Z.of_nat (S fuel) + 1) in Hn by lia.
      rewrite Z.pow_add_r in Hn by lia. lia. }
    destruct (IH (n / 10) (String (digit_char (n mod 10)) acc) Hq)
      as (ds & Heq & Hne & Hall & Hparse).
    exists (ds ++ String (digit_char (n mod 10)) EmptyString).
    split; [rewrite Heq, append_assoc; reflexivity |].
    split; [destruct ds; [now contradiction Hne | discriminate] |].
    split; [rewrite all_chars_app, Hall; cbn; now rewrite Hd |].
    intros a p rest. rewrite append_assoc, append_cons, append_nil_l, Hparse.
    rewrite (parse_digits_digit _ _ _ _ Hd), Hv, length_append. cbn [String.length].
    f_equal.
    replace (Z.of_nat (String.length ds + 1)) with (Z.of_nat (String.length ds) + 1) by lia.
    rewrite Z.pow_add_r by lia.
    pose proof (Z.div_mod n 10 ltac:(lia)). lia.
Qed.

(** [str(n)] gives [digits_of] fuel enough. *)
Lemma fuel_shape n : (Z.to_nat (Z.log2 n) + 1 = S (Z.to_nat (Z.log2 n)))%nat.
Proof. lia. Qed.

Lemma fuel_enough n : 0 <= n -> n < 10 ^ Z.of_nat (Z.to_nat (Z.log2 n) + 1).
Proof.
  intros Hn.
  replace (Z.of_nat (Z.to_nat (Z.log2 n) + 1)) with (Z.log2 n + 1)
    by (pose proof (Z.log2_nonneg n); lia).
  destruct (Z.eq_dec n 0) as [-> | Hne]; [reflexivity |].
  pose proof (Z.log2_spec n ltac:(lia)) as [_ Hup].
  pose proof (Z.log2_nonneg n).
  assert (2 ^ Z.succ (Z.log2 n) <= 10 ^ Z.succ (Z.log2 n))
    by (apply Z.pow_le_mono_l; lia).
  unfold Z.succ in *. lia.
Qed.

(** The text of a natural number: digits only, read back as the
    number. *)
Lemma str_of_int_nonneg n :
  0 <= n ->
  str_of_int n <> EmptyString
  /\ all_chars is_digit (str_of_int n) = true
  /\ parse_digits 0 false (str_of_int n) = Some n.
Proof.
  intros Hn. unfold str_of_int.
  assert (Hlt : (n <? 0) = false) by (apply Z.ltb_ge; lia). rewrite Hlt.
  pose proof (fuel_enough n Hn) as Hfuel. rewrite fuel_shape in Hfuel |- *.
  destruct (digits_of_spec _ n EmptyString (conj Hn Hfuel))
    as (ds & Heq & Hne & Hall & Hparse).
  rewrite Heq, append_nil_r. split; [exact Hne |]. split; [exact Hall |].
  specialize (Hparse 0 false EmptyString). rewrite append_nil_r in Hparse.
  rewrite Hparse. cbn [parse_digits]. apply f_equal. lia.
Qed.

Lemma digit_not_space c : is_digit c = true -> is_space c = false.
Proof. destruct c as [[] [] [] [] [] [] [] []]; vm_compute; congruence. Qed.

Lemma lstrip_id q s :
  match first_char s with Some c => q c = false | None => True end -> lstrip q s = s.
Proof. destruct s as [| c s]; [reflexivity |]. cbn. now intros ->. Qed.

Lemma rstrip_id q s : all_chars (fun c => negb (q c)) s = true -> rstrip q s = s.
Proof.
  induction s as [| c s IH]; [reflexivity |].
  cbn [all_chars]. intros H. apply andb_true_iff in H as [Hc Hs].
  apply negb_true_iff in Hc. rewrite rstrip_cons, (IH Hs), Hc. now destruct s.
Qed.

Lemma all_chars_impl (p q : ascii -> bool) s :
  (forall c, p c = true -> q c = true) -> all_chars p s = true -> all_chars q s = true.
Proof.
  intros H. induction s as [| c s IH]; [reflexivity |].
  cbn. intros Hs. apply andb_true_iff in Hs as [Hc Hs]. now rewrite (H c Hc), IH.
Qed.

(** [int()] on a string of digits reads the digits. *)
Lemma int_of_str_digits s :
  all_chars is_digit s = true -> int_of_str s = parse_digits 0 false s.
Proof.
  intros H. unfold int_of_str, strip.
  assert (Hns : all_chars (fun c => negb (is_space c)) s = true).
  { apply (all_chars_impl is_digit); [| exact H].
    intros c Hc. now rewrite (digit_not_space c Hc). }
  rewrite lstrip_id, (rstrip_id _ _ Hns).
  - destruct s as [| c s]; [reflexivity |].
    cbn [all_chars] in H. apply andb_true_iff in H as [Hc _].
    destruct c as [[] [] [] [] [] [] [] []]; try discriminate Hc; reflexivity.
  - destruct s as [| c s]; [exact I |]. cbn [first_char].
    cbn [all_chars] in H. apply andb_true_iff in H as [Hc _]. now apply digit_not_space.
Qed.

(** [int(str(n)) = n] *)
Lemma int_of_str_of_int n : int_of_str (str_of_int n) = Some n.
Proof.
  destruct (Z.ltb_spec n 0) as [Hneg | Hpos].
  - unfold str_of_int. assert (Hlt : (n <? 0) = true) by now apply Z.ltb_lt. rewrite Hlt.
    destruct (str_of_int_nonneg (- n) ltac:(lia)) as (Hne & Hall & Hparse).
    unfold str_of_int in Hne, Hall, Hparse.
    assert (Hlt' : (- n <? 0) = false) by (apply Z.ltb_ge; lia). rewrite Hlt' in *.
    set (ds := digits_of _ _ _) in *.
    unfold int_of_str, strip.
    assert (Hns : all_chars (fun c => negb (is_space c)) (String "-" ds) = true).
    { cbn [all_chars]. apply andb_true_iff. split; [reflexivity |].
      apply (all_chars_impl is_digit); [| exact Hall].
      intros c Hc. now rewrite (digit_not_space c Hc). }
    rewrite lstrip_id by reflexivity. rewrite (rstrip_id _ _ Hns), Hparse.
    cbn. f_equal. lia.
  - destruct (str_of_int_nonneg n Hpos) as (_ & Hall & Hparse).
    now rewrite (int_of_str_digits _ Hall).
Qed.

Lemma str_of_int_inj m n : str_of_int m = str_of_int n -> m = n.
Proof.
  intros H. apply (f_equal int_of_str) in H. rewrite !int_of_str_of_int in H. congruence.
Qed.

End IntFacts.

Section SingleGroup.
Import PyStr.

Lemma parse_digits_some s : forall a p,
  all_chars is_digit s = true -> s <> EmptyString \/ p = true ->
  exists n, parse_digits a p s = Some n.
Proof.
  induction s as [| c s IH]; intros a p Hall Hne.
  - destruct Hne as [Hne | ->]; [now contradiction Hne | now exists a].
  - cbn [all_chars] in Hall. apply andb_true_iff in Hall as [Hc Hs].
    rewrite (parse_digits_digit _ _ _ _ Hc). apply IH; [exact Hs | now right].
Qed.

Lemma skip_digits_all s : all_chars is_digit s = true -> Re.skip_digits s = EmptyString.
Proof.
  induction s as [| c s IH]; [reflexivity |].
  cbn. intros H. apply andb_true_iff in H as [Hc Hs]. rewrite Hc. now apply IH.
Qed.

Lemma sub_first_digits_all repl s :
  s <> EmptyString -> all_chars is_digit s = true -> Re.sub_first_digits repl s = repl.
Proof.
  destruct s as [| c s]; [intros H; now contradiction H |].
  intros _ H. cbn [all_chars] in H. apply andb_true_iff in H as [Hc Hs].
  cbn [Re.sub_first_digits]. now rewrite Hc, (skip_digits_all _ Hs), append_nil_r.
Qed.

End SingleGroup.

(** X7: with a pattern of one group that captured a plain number, the
    next URL is the current URL in which the first occurrence of that
    number's text, wherever it stands, is replaced by the text of the
    number plus the increment; [None] if that changes nothing. *)
Theorem next_url_single_group
    (re_search : string -> string -> outcome (option Re.Match))
    (self : URLChapterNavigator) (url g : string) :
  re_search (url_pattern self) url = Returned (Some {| Re.groups := [Some g] |}) ->
  g <> EmptyString ->
  PyStr.all_chars is_digit g = true ->
  exists n,
    int_of_str g = Some n
    /\ get_next_chapter_url re_search self url =
         let next_url := replace_first g (str_of_int (n + increment_by self)) url in
         if String.eqb next_url url then Returned None else Returned (Some next_url).
Proof.
  intros Hs Hne Hall.
  destruct (parse_digits_some g 0 false Hall (or_introl Hne)) as [n Hn].
  exists n. rewrite (int_of_str_digits _ Hall). split; [exact Hn |].
  rewrite (get_next_matched _ _ _ _ Hs).
  rewrite (next_url_body_text self [Some g] g g url eq_refl eq_refl).
  rewrite (int_of_str_digits _ Hall), Hn. cbn zeta.
  rewrite (sub_first_digits_all _ _ Hne Hall).
  now destruct (String.eqb _ url).
Qed.

Lemma next_url_single_group_witness :
  get_next_chapter_url RePattern.search (navigator "chapter-(\d+)" 1)
    "https://site7.test/chapter-7" = Returned (Some "https://site8.test/chapter-7").
Proof.
  destruct (next_url_single_group RePattern.search (navigator "chapter-(\d+)" 1)
              "https://site7.test/chapter-7" "7") as (n & Hn & Hnext).
  - reflexivity.
  - discriminate.
  - reflexivity.
  - assert (n = 7) by (cbv in Hn; congruence). subst n. rewrite Hnext. reflexivity.
Defined.

(** ** The extractor, for every document *)

Section ExtractorMore.
Import Dom.

Variable parse_html : string -> node.
Variable css : string -> option (node -> nat -> bool).

Lemma subtrees_elem i nm at_ cs :
  subtrees (Elem i nm at_ cs)
  = flat_map (fun c => if is_elem c then c :: subtrees c else []) cs.
Proof.
  cbn [subtrees]. induction cs as [| c cs IH]; [reflexivity |].
  cbn [flat_map]. now rewrite <- IH.
Qed.

(** What is found below a node is an element. *)
Lemma subtrees_are_elems n t : In t (subtrees n) -> is_elem t = true.
Proof.
  induction n as [s | i nm at_ cs IH] using node_ind'; [intros [] |].
  rewrite subtrees_elem. induction IH as [| c cs Hc _ IHcs]; [intros [] |].
  cbn [flat_map]. rewrite in_app_iff. intros [H | H]; [| now apply IHcs].
  destruct (is_elem c) eqn:E; [| destruct H].
  destruct H as [<- | H]; [exact E | now apply Hc].
Qed.

Lemma select_one_in sel soup tag :
  select_one css sel soup = Returned (Some tag) -> In tag (subtrees soup).
Proof.
  unfold select_one. destruct (css sel) as [m |]; [| discriminate].
  intros H. inversion H as [Hhead]. clear H.
  destruct (List.filter _ _) as [| t l] eqn:E; [discriminate |].
  cbn in Hhead. inversion Hhead; subst t.
  assert (Hin : In tag (List.filter (λ t : node, m soup (node_id t)) (subtrees soup)))
    by (rewrite E; now left).
  now apply filter_In in Hin.
Qed.

Lemma find_main_content_in rules soup tag :
  find_main_content css rules soup = Returned (Some tag) -> In tag (subtrees soup).
Proof.
  induction rules as [| r rules IH]; [discriminate |].
  cbn [find_main_content].
  destruct (_ || _)%bool; [exact IH |].
  destruct (bool_decide _); [| exact IH].
  destruct (select_one css _ soup) as [[t |] | e] eqn:E; [| exact IH | discriminate].
  intros H. inversion H; subst t. now apply (select_one_in _ _ _ E).
Qed.

Lemma decompose_all_is_elem es st :
  is_elem (snd (decompose_all es st)) = is_elem (snd st).
Proof.
  revert st. induction es as [| e es IH]; intros st; [reflexivity |].
  rewrite decompose_all_cons, IH. apply decompose_is_elem.
Qed.

Lemma remove_unwanted_is_elem sels st st' :
  _remove_unwanted_elements css sels st = Returned st' ->
  is_elem (snd st') = is_elem (snd st).
Proof.
  revert st. induction sels as [| sel rest IH]; intros st Hrun.
  - cbn in Hrun. now inversion Hrun; subst.
  - rewrite remove_unwanted_cons in Hrun.
    destruct (select css sel (fst st) (snd st)) as [es | e]; [| discriminate].
    rewrite (IH _ Hrun). apply decompose_all_is_elem.
Qed.

Lemma str_elem_truthy n : is_elem n = true -> truthy (str n) = true.
Proof.
  destruct n as [s | i nm at_ cs]; [discriminate |]. intros _.
  cbn [str]. destruct cs; [destruct (is_void nm) |]; reflexivity.
Qed.

(** The ways [extract_content] returns on a non-empty markup. *)
Lemma extract_content_returned self html t c :
  truthy html = true ->
  extract_content parse_html css self html = Returned (t, c) ->
  extract_title css self (parse_html html) = Returned t
  /\ ((c = None
       /\ find_main_content css (content_selectors self) (parse_html html) = Returned None)
      \/ exists tag st',
           find_main_content css (content_selectors self) (parse_html html)
             = Returned (Some tag)
           /\ _remove_unwanted_elements css (remove_elements self) (parse_html html, tag)
              = Returned st'
           /\ c = Some (str (snd st'))).
Proof.
  intros Hhtml. unfold extract_content. rewrite Hhtml. cbn [negb].
  destruct (extract_title css self _) as [t0 | e]; [| discriminate]. cbn [bind].
  destruct (find_main_content css _ _) as [[tag |] | e]; [| | discriminate]; cbn [bind].
  - destruct (_remove_unwanted_elements css _ _) as [st' | e] eqn:E; [| discriminate].
    cbn [bind]. intros H. inversion H; subst. split; [reflexivity |].
    right. now exists tag, st'.
  - intros H. inversion H; subst. split; [reflexivity |]. now left.
Qed.

End ExtractorMore.

(** X8: content that [extract_content] returns is never the empty
    string, so the test [if extracted_content] of the loop lets every
    content through that the extractor found. *)
Theorem extracted_content_truthy
    (parse_html : string -> Dom.node) (css : string -> option (Dom.node -> nat -> bool))
    (self : ContentExtractor) (html : string) (t : option string) (c : string) :
  extract_content parse_html css self html = Returned (t, Some c) ->
  truthy c = true.
Proof.
  intros H. destruct (truthy html) eqn:Hhtml.
  - destruct (extract_content_returned parse_html css self html t (Some c) Hhtml H)
      as [_ [[Hc _] | (tag & st' & Hmain & Hrun & Hc)]]; [discriminate |].
    inversion Hc; subst c. apply str_elem_truthy.
    rewrite (remove_unwanted_is_elem css _ _ _ Hrun). cbn [snd].
    apply (subtrees_are_elems (parse_html html)).
    now apply (find_main_content_in css (content_selectors self)).
  - unfold extract_content in H. rewrite Hhtml in H. discriminate.
Qed.

Lemma extracted_content_truthy_witness : truthy "<article><p>Text</p></article>" = true.
Proof.
  apply (extracted_content_truthy Fixture.parse_html SimpleCss.css Fixture.extractor
           Fixture.page_full (Some "One")).
  reflexivity.
Defined.

Section RulesMiss.

Variable css : string -> option (Dom.node -> nat -> bool).

Lemma find_main_content_all_miss rules soup :
  forallb (rule_misses css soup) rules = true ->
  find_main_content css rules soup = Returned None.
Proof.
  induction rules as [| r rules IH]; [reflexivity |].
  cbn [forallb]. intros H. apply andb_true_iff in H as [Hr Hrest].
  rewrite (find_main_content_misses css r rules soup Hr). now apply IH.
Qed.

End RulesMiss.

(** X9: when every content rule is skipped or finds nothing, the
    result is the title alone, [(title, None)]; the remove selectors
    are not applied, so an ill-formed one does no harm. *)
Theorem no_rule_matches_title_only
    (parse_html : string -> Dom.node) (css : string -> option (Dom.node -> nat -> bool))
    (self : ContentExtractor) (html : string) (t : option string) :
  truthy html = true ->
  extract_title css self (parse_html html) = Returned t ->
  forallb (rule_misses css (parse_html html)) (content_selectors self) = true ->
  extract_content parse_html css self html = Returned (t, None).
Proof.
  intros Hhtml Ht Hmiss. unfold extract_content. rewrite Hhtml. cbn [negb].
  rewrite Ht. cbn [bind]. now rewrite (find_main_content_all_miss css _ _ Hmiss).
Qed.

Lemma no_rule_matches_title_only_witness :
  extract_content Fixture.parse_html SimpleCss.css
    {| content_selectors := [Fixture.css_rule "section"; Fixture.css_rule "#content"];
       remove_elements := ["p >"];
       chapter_title_selector := Some "h1" |} Fixture.page_full
  = Returned (Some "One", None).
Proof.
  apply no_rule_matches_title_only; reflexivity.
Defined.

Section OnlyMatchedRemoved.
Import Dom.

Lemma within_elem e i nm at_ cs :
  within e (Elem i nm at_ cs)
  = flat_map (fun c =>
      if is_elem c
      then ((if Nat.eqb (node_id c) e then node_id c :: ids_below c else []) ++ within e c)%list
      else []) cs.
Proof.
  unfold within. rewrite subtrees_elem.
  induction cs as [| c cs IH]; [reflexivity |].
  cbn [flat_map]. rewrite flat_map_app, IH. f_equal.
  destruct (is_elem c); reflexivity.
Qed.

(** An element that [decompose e] takes from below [n] is at or below
    an element of identity [e]. *)
Lemma decompose_removes_within e n x :
  In x (ids_below n) -> In x (ids_below (decompose e n)) \/ In x (within e n).
Proof.
  revert x. induction n as [s | i nm at_ cs IH] using node_ind'; intros x; [intros [] |].
  rewrite decompose_elem, !ids_below_elem, within_elem.
  induction IH as [| c cs Hc _ IHcs]; [intros [] |].
  cbn [flat_map]. rewrite flat_map_app, !in_app_iff.
  intros [Hhere | Hrest]; [| destruct (IHcs Hrest); tauto].
  unfold below_child in Hhere. unfold pruned_child.
  destruct (is_elem c) eqn:Ec; [| destruct Hhere]. cbn [andb].
  destruct (Nat.eqb (node_id c) e) eqn:Ee.
  - right. left. apply in_app_iff. now left.
  - cbn [flat_map]. rewrite app_nil_r. unfold below_child.
    rewrite decompose_is_elem, decompose_node_id, Ec.
    destruct Hhere as [<- | Hbelow]; [left; left; now left |].
    destruct (Hc x Hbelow) as [H | H].
    + left. left. now right.
    + right. left. apply in_app_iff. now right.
Qed.

(** The elements of a pruned tree are pruned elements of the tree. *)
Lemma subtrees_decompose e n t' :
  In t' (subtrees (decompose e n)) -> exists t, In t (subtrees n) /\ t' = decompose e t.
Proof.
  revert t'. induction n as [s | i nm at_ cs IH] using node_ind'; intros t'; [intros [] |].
  rewrite decompose_elem, !subtrees_elem.
  induction IH as [| c cs Hc _ IHcs]; [intros [] |].
  cbn [flat_map]. rewrite flat_map_app, in_app_iff.
  intros [Hhere | Hrest].
  - unfold pruned_child in Hhere.
    destruct (is_elem c && Nat.eqb (node_id c) e)%bool; [destruct Hhere |].
    cbn [flat_map] in Hhere. rewrite app_nil_r, decompose_is_elem in Hhere.
    destruct (is_elem c) eqn:Ec; [| destruct Hhere].
    destruct Hhere as [<- | Hbelow].
    + exists c. split; [| reflexivity]. apply in_app_iff. left. now left.
    + destruct (Hc t' Hbelow) as (t & Ht & ->). exists t. split; [| reflexivity].
      apply in_app_iff. left. now right.
  - destruct (IHcs Hrest) as (t & Ht & ->). exists t. split; [| reflexivity].
    apply in_app_iff. now right.
Qed.

Lemma ids_below_decompose_incl e n x :
  In x (ids_below (decompose e n)) -> In x (ids_below n).
Proof. intros H. now apply ids_below_decompose in H. Qed.

Lemma within_decompose e e' n x : In x (within e (decompose e' n)) -> In x (within e n).
Proof.
  unfold within. rewrite !in_flat_map. intros (t' & Ht' & Hx).
  destruct (subtrees_decompose _ _ _ Ht') as (t & Ht & ->).
  exists t. split; [exact Ht |].
  rewrite decompose_node_id in Hx. destruct (Nat.eqb (node_id t) e); [| destruct Hx].
  destruct Hx as [<- | Hx]; [now left | right; now apply (ids_below_decompose_incl e')].
Qed.

Lemma decompose_all_removes_within es : forall st x,
  In x (ids_below (snd st)) ->
  In x (ids_below (snd (decompose_all es st)))
  \/ exists e, In e es /\ In x (within e (snd st)).
Proof.
  induction es as [| e es IH]; intros st x Hx; [now left |].
  rewrite decompose_all_cons.
  destruct (decompose_removes_within e (snd st) x Hx) as [Hkept | Hgone].
  - destruct (IH (decompose e (fst st), decompose e (snd st)) x Hkept)
      as [H | (e' & He' & H)]; [now left |].
    right. exists e'. split; [now right |]. now apply (within_decompose e' e).
  - right. exists e. split; [now left | exact Hgone].
Qed.

End OnlyMatchedRemoved.

(** X10: the removal takes nothing else away.  An element below the
    content tag that is gone after [_remove_unwanted_elements] was, at
    the moment one of the selectors was applied, an element matching
    that selector or a descendant of one. *)
Theorem only_matched_elements_removed
    (css : string -> option (Dom.node -> nat -> bool))
    (sels : list string) (st st' : Dom.node * Dom.node) (x : nat) :
  _remove_unwanted_elements css sels st = Returned st' ->
  In x (Dom.ids_below (snd st)) ->
  ~ In x (Dom.ids_below (snd st')) ->
  exists pre sel post st_pre m e,
    sels = (pre ++ sel :: post)%list
    /\ _remove_unwanted_elements css pre st = Returned st_pre
    /\ css sel = Some m
    /\ In e (Dom.ids_below (snd st_pre))
    /\ m (fst st_pre) e = true
    /\ In x (within e (snd st_pre)).
Proof.
  revert st. induction sels as [| sel rest IH]; intros st Hrun Hin Hgone.
  - cbn in Hrun. inversion Hrun; subst. now contradiction Hgone.
  - rewrite remove_unwanted_cons in Hrun. unfold select in Hrun.
    destruct (css sel) as [m |] eqn:Hm; [| discriminate].
    set (es := List.filter (m (fst st)) (Dom.ids_below (snd st))) in Hrun.
    destruct (decompose_all_removes_within es st x Hin) as [Hkept | (e & He & Hx)].
    + destruct (IH _ Hrun Hkept Hgone)
        as (pre & sel' & post & st_pre & m' & e & -> & Hpre & Hm' & He & Hmatch & Hx).
      exists (sel :: pre), sel', post, st_pre, m', e.
      split; [reflexivity |]. split; [| now repeat split].
      rewrite remove_unwanted_cons. unfold select. now rewrite Hm.
    + apply filter_In in He as [He Hmatch].
      exists [], sel, rest, st, m, e. now repeat split.
Qed.

Lemma only_matched_elements_removed_witness :
  exists pre sel post st_pre m e,
    [".ad"] = (pre ++ sel :: post)%list
    /\ _remove_unwanted_elements SimpleCss.css pre
         (Fixture.doc_full,
          Dom.Elem 4 "article" []
            [Dom.Elem 5 "p" [] [Dom.Text "Text"];
             Dom.Elem 6 "div" [("class", "ad")] [Dom.Text "Buy"]]) = Returned st_pre
    /\ SimpleCss.css sel = Some m
    /\ In e (Dom.ids_below (snd st_pre))
    /\ m (fst st_pre) e = true
    /\ In 6%nat (within e (snd st_pre)).
Proof.
  eapply (only_matched_elements_removed SimpleCss.css [".ad"]).
  - reflexivity.
  - cbn. right. now left.
  - cbn. intros [H | []]. discriminate H.
Defined.

Section ExtractorRaises.

Variable parse_html : string -> Dom.node.
Variable css : string -> option (Dom.node -> nat -> bool).

Lemma select_one_cases sel soup :
  match select_one css sel soup with
  | Returned _ => compiles css sel = true
  | Raised e => e = SelectorSyntaxError /\ compiles css sel = false
  end.
Proof. unfold select_one, compiles. now destruct (css sel). Qed.

Lemma find_main_content_cases rules soup :
  match find_main_content css rules soup with
  | Returned _ => True
  | Raised e =>
      e = SelectorSyntaxError
      /\ forallb (fun r => rule_skipped r || compiles css (default EmptyString (rule_selector r)))
           rules = false
  end.
Proof.
  induction rules as [| r rules IH]; [exact I |].
  cbn [find_main_content forallb]. unfold rule_skipped.
  destruct (_ || _)%bool eqn:Efields; cbn [orb].
  - destruct (find_main_content css rules soup); [exact I |].
    split; [apply IH | apply IH].
  - destruct (bool_decide _) eqn:Etype; cbn [negb orb].
    + pose proof (select_one_cases (default EmptyString (rule_selector r)) soup) as Hsel.
      destruct (select_one css _ soup) as [[t |] | e]; [exact I | |].
      * rewrite Hsel. cbn [andb].
        destruct (find_main_content css rules soup); [exact I | apply IH].
      * destruct Hsel as [-> ->]. now split.
    + destruct (find_main_content css rules soup); [exact I |].
      split; [apply IH | apply IH].
Qed.

Lemma remove_unwanted_cases sels st :
  match _remove_unwanted_elements css sels st with
  | Returned _ => True
  | Raised e => e = SelectorSyntaxError /\ forallb (compiles css) sels = false
  end.
Proof.
  revert st. induction sels as [| sel rest IH]; intros st; [exact I |].
  rewrite remove_unwanted_cons. unfold select. cbn [forallb].
  destruct (css sel) as [m |] eqn:Hm.
  - assert (Hc : compiles css sel = true) by (unfold compiles; now rewrite Hm).
    rewrite Hc. cbn [andb]. apply IH.
  - assert (Hc : compiles css sel = false) by (unfold compiles; now rewrite Hm).
    rewrite Hc. now split.
Qed.

Lemma extract_title_cases self soup :
  match extract_title css self soup with
  | Returned _ => True
  | Raised e =>
      e = SelectorSyntaxError
      /\ (negb (truthy_opt (chapter_title_selector self))
          || compiles css (default EmptyString (chapter_title_selector self)))%bool = false
  end.
Proof.
  unfold extract_title. destruct (truthy_opt _); [| exact I]. cbn [negb orb].
  pose proof (select_one_cases (default EmptyString (chapter_title_selector self)) soup) as H.
  destruct (select_one css _ soup) as [[t |] | e]; [exact I | exact I | exact H].
Qed.

End ExtractorRaises.

(** X11: [extract_content] raises nothing but the selector engine's
    syntax error, and only when one of the configured selectors does
    not compile: with selectors that all compile it returns. *)
Theorem extract_content_raises_only
    (parse_html : string -> Dom.node) (css : string -> option (Dom.node -> nat -> bool))
    (self : ContentExtractor) (html : string) (e : exn) :
  extract_content parse_html css self html = Raised e ->
  e = SelectorSyntaxError /\ selectors_compile css self = false.
Proof.
  unfold extract_content, selectors_compile.
  destruct (negb (truthy html)); [discriminate |].
  pose proof (extract_title_cases css self (parse_html html)) as Ht.
  destruct (extract_title css self _) as [t | e0]; cbn [bind].
  2:{ intros H. inversion H; subst. destruct Ht as [-> ->]. now split. }
  pose proof (find_main_content_cases css (content_selectors self) (parse_html html)) as Hm.
  destruct (find_main_content css _ _) as [[tag |] | e0]; cbn [bind]; [| discriminate |].
  - pose proof (remove_unwanted_cases css (remove_elements self) (parse_html html, tag)) as Hr.
    destruct (_remove_unwanted_elements css _ _) as [st' | e0]; cbn [bind]; [discriminate |].
    intros H. inversion H; subst. destruct Hr as [-> ->].
    split; [reflexivity | now rewrite andb_false_r].
  - intros H. inversion H; subst. destruct Hm as [-> ->].
    split; [reflexivity | now rewrite andb_false_r].
Qed.

Lemma extract_content_raises_only_witness :
  SelectorSyntaxError = SelectorSyntaxError
  /\ selectors_compile SimpleCss.css
       {| content_selectors := [Fixture.css_rule "article"];
          remove_elements := ["p >"];
          chapter_title_selector := None |} = false.
Proof.
  apply (extract_content_raises_only Fixture.parse_html SimpleCss.css _ Fixture.page_full).
  reflexivity.
Defined.

(** ** The loop, pass by pass *)

Section LoopMore.

Variable fetch_page : list string -> string -> option string.
Variable extract : string -> outcome (option string * option string).
Variable next_chapter_url : string -> outcome (option string).
Variable empty_chapter_threshold : Z.

Abbreviation step4 := (loop_iteration fetch_page extract next_chapter_url empty_chapter_threshold).
Abbreviation run4 := (run fetch_page extract next_chapter_url empty_chapter_threshold).
Abbreviation pass4 :=
  (iteration fetch_page extract next_chapter_url empty_chapter_threshold).

(** [loop_iteration] goes one of the seven ways of [iteration]. *)
Lemma loop_iteration_spec st : pass4 st (step4 st).
Proof.
  unfold loop_iteration.
  destruct (truthy (current_chapter_url st)) eqn:Hurl; cbn [negb]; [| now constructor].
  destruct (bool_decide _) eqn:Hin.
  { apply bool_decide_eq_true in Hin. now constructor. }
  apply bool_decide_eq_false in Hin.
  destruct (fetch_page _ _) as [html |] eqn:Hfetch; cbn [truthy_opt default from_option id].
  2:{ apply it_fetch_failed; [exact Hurl | exact Hin | now rewrite Hfetch]. }
  destruct (truthy html) eqn:Hhtml.
  2:{ apply it_fetch_failed; [exact Hurl | exact Hin | now rewrite Hfetch]. }
  destruct (extract html) as [[t c] | e] eqn:Hext.
  2:{ now apply (it_extract_raised _ _ _ _ _ html e). }
  destruct (truthy_opt c) eqn:Hc.
  - destruct c as [c |]; [| discriminate]. cbn [default from_option id].
    now apply (it_chapter _ _ _ _ _ html t c).
  - cbn zeta. destruct (_ >=? _) eqn:Hge.
    + apply (it_empty_stop _ _ _ _ _ html t c); try assumption.
      rewrite Z.geb_leb in Hge. apply Z.leb_le in Hge. exact Hge.
    + apply (it_empty_go _ _ _ _ _ html t c); try assumption.
      rewrite Z.geb_leb in Hge. apply Z.leb_gt in Hge. exact Hge.
Qed.

(** [advance] changes the current URL and the chapter number only. *)
Lemma advance_keeps s :
  let s' := state_of (advance next_chapter_url s) in
  chapter_contents s' = chapter_contents s
  /\ processed_urls s' = processed_urls s
  /\ trace s' = trace s
  /\ consecutive_empty_chapters s' = consecutive_empty_chapters s.
Proof.
  unfold advance. destruct (next_chapter_url _) as [[u |] | e]; cbn; repeat split.
Qed.

(** A property of states that every pass keeps holds all along a run. *)
Lemma run_invariant (P : TraversalState -> Prop) :
  (forall st, P st -> P (state_of (step4 st))) ->
  forall n st, P st -> P (state_of (run4 n st)).
Proof.
  intros Hstep. induction n as [| n IH]; intros st HP; [exact HP |].
  rewrite run_unfold. pose proof (Hstep st HP) as H.
  destruct (step4 st) as [st' | r st' | e st']; [now apply IH | exact H..].
Qed.

Lemma record_chapter_ok t c s :
  truthy c = true ->
  Forall record_ok (chapter_contents s) ->
  Forall record_ok (chapter_contents (record_chapter t c s)).
Proof.
  intros Hc Hs. cbn [chapter_contents record_chapter]. apply Forall_app. split; [exact Hs |].
  constructor; [| constructor]. split; cbn [title html_content]; [| exact Hc].
  destruct (truthy_opt t) eqn:Ht; [| reflexivity].
  destruct t as [s0 |]; [exact Ht | discriminate].
Qed.

Lemma step_records_ok st :
  Forall record_ok (chapter_contents st) ->
  Forall record_ok (chapter_contents (state_of (step4 st))).
Proof.
  intros H. destruct (loop_iteration_spec st); cbn [state_of]; try exact H.
  - destruct (advance_keeps (record_chapter t c (visit st))) as (-> & _).
    now apply record_chapter_ok.
  - now destruct (advance_keeps (count_empty (visit st))) as (-> & _).
Qed.

(** The chapters of a state stay, in their order, at the head of the
    list. *)
Lemma step_appends st :
  exists new, chapter_contents (state_of (step4 st)) = (chapter_contents st ++ new)%list.
Proof.
  destruct (loop_iteration_spec st); cbn [state_of];
    try (exists []; now rewrite app_nil_r).
  - destruct (advance_keeps (record_chapter t c (visit st))) as (-> & _). now eexists.
  - destruct (advance_keeps (count_empty (visit st))) as (-> & _).
    exists []. now rewrite app_nil_r.
Qed.

Lemma run_appends n : forall st,
  exists new, chapter_contents (state_of (run4 n st)) = (chapter_contents st ++ new)%list.
Proof.
  induction n as [| n IH]; intros st; [exists []; now rewrite app_nil_r |].
  rewrite run_unfold. destruct (step_appends st) as [new1 H1].
  destruct (step4 st) as [st' | r st' | e st']; cbn [state_of] in H1; [| now exists new1..].
  destruct (IH st') as [new2 H2]. exists (new1 ++ new2)%list.
  now rewrite H2, H1, app_assoc.
Qed.

Lemma fetch_inv_visit st : fetch_inv st -> fetch_inv (visit st).
Proof.
  intros [Hset Hlen]. split.
  - intros u. cbn. rewrite elem_of_union, elem_of_singleton, Hset. intuition congruence.
  - cbn. lia.
Qed.

Lemma step_fetch_inv st : fetch_inv st -> fetch_inv (state_of (step4 st)).
Proof.
  intros H. pose proof (fetch_inv_visit st H) as [Hset Hlen].
  pose proof H as [_ Hlen0].
  destruct (loop_iteration_spec st); cbn [state_of]; try exact H; try (now split).
  - destruct (advance_keeps (record_chapter t c (visit st))) as (Hc & Hp & Ht & _).
    split.
    + intros u. rewrite Hp, Ht. apply Hset.
    + rewrite Hc, Ht. cbn [chapter_contents record_chapter trace visit fetched] in *.
      rewrite length_app. cbn [length]. lia.
  - destruct (advance_keeps (count_empty (visit st))) as (Hc & Hp & Ht & _).
    split.
    + intros u. rewrite Hp, Ht. apply Hset.
    + rewrite Hc, Ht. exact Hlen.
Qed.

End LoopMore.

(** X12: every chapter the loop records has a title and a content
    that are not empty, whatever the site, the extractor and the
    navigator do. *)
Theorem recorded_chapters_nonempty
    (fetch_page : list string -> string -> option string)
    (extract : string -> outcome (option string * option string))
    (next_chapter_url : string -> outcome (option string))
    (threshold : Z) (start : string) (n : nat) :
  Forall record_ok
    (chapter_contents
       (state_of (run fetch_page extract next_chapter_url threshold n (initial_state start)))).
Proof.
  apply (run_invariant fetch_page extract next_chapter_url threshold
           (fun st => Forall record_ok (chapter_contents st))).
  - apply step_records_ok.
  - constructor.
Qed.

(** X13: between two passes the visited set is exactly the set of the
    URLs fetched so far, and it has as many members as there were
    fetches. *)
Theorem visited_set_is_fetched
    (fetch_page : list string -> string -> option string)
    (extract : string -> outcome (option string * option string))
    (next_chapter_url : string -> outcome (option string))
    (threshold : Z) (start : string) (n : nat) :
  let final :=
    state_of (run fetch_page extract next_chapter_url threshold n (initial_state start)) in
  (forall u, u ∈ processed_urls final <-> In u (fetched (trace final)))
  /\ size (processed_urls final) = length (fetched (trace final)).
Proof.
  intros final.
  assert (Hset : forall u, u ∈ processed_urls final <-> In u (fetched (trace final))).
  { apply (run_invariant fetch_page extract next_chapter_url threshold fetch_inv).
    - apply step_fetch_inv.
    - split; [| cbn; lia]. intros u. cbn. split; [set_solver | intros []]. }
  split; [exact Hset |].
  destruct (visited_inv_run fetch_page extract next_chapter_url threshold n
              (initial_state start) (visited_inv_initial start)) as (_ & _ & Hnodup & _).
  fold final in Hnodup.
  rewrite <- (size_list_to_set (C := gset string) _ Hnodup). f_equal.
  apply set_eq. intros u. rewrite elem_of_list_to_set, list_elem_of_In. apply Hset.
Qed.

(** X14: the loop never records more chapters than it fetched pages. *)
Theorem chapters_at_most_fetches
    (fetch_page : list string -> string -> option string)
    (extract : string -> outcome (option string * option string))
    (next_chapter_url : string -> outcome (option string))
    (threshold : Z) (start : string) (n : nat) :
  let final :=
    state_of (run fetch_page extract next_chapter_url threshold n (initial_state start)) in
  (length (chapter_contents final) <= length (fetched (trace final)))%nat.
Proof.
  intros final.
  apply (run_invariant fetch_page extract next_chapter_url threshold fetch_inv).
  - apply step_fetch_inv.
  - split; [| cbn; lia]. intros u. cbn. split; [set_solver | intros []].
Qed.

Section CountFacts.

Variable fetch_page : list string -> string -> option string.
Variable extract : string -> outcome (option string * option string).
Variable next_chapter_url : string -> outcome (option string).
Variable empty_chapter_threshold : Z.

Abbreviation step5 := (loop_iteration fetch_page extract next_chapter_url empty_chapter_threshold).
Abbreviation run5 := (run fetch_page extract next_chapter_url empty_chapter_threshold).

(** What a pass that goes on did: it visited the current URL, recorded
    a chapter or counted an empty page below the threshold, and moved
    to the URL the navigator gave. *)
Lemma step_continue st st' :
  step5 st = Continue st' ->
  (current_chapter_url st ∉ processed_urls st)
  /\ processed_urls st' = {[ current_chapter_url st ]} ∪ processed_urls st
  /\ next_chapter_url (current_chapter_url st) = Returned (Some (current_chapter_url st'))
  /\ (consecutive_empty_chapters st' = 0
      \/ (consecutive_empty_chapters st' = consecutive_empty_chapters st + 1
          /\ consecutive_empty_chapters st' < empty_chapter_threshold)).
Proof.
  intros Hstep. pose proof (loop_iteration_spec fetch_page extract next_chapter_url
                              empty_chapter_threshold st) as H.
  rewrite Hstep in H. clear Hstep.
  inversion H as [ | | | | html t c Hurl Hnew Hf Hh He Hc Hadv
                 | | html t c Hurl Hnew Hf Hh He Hc Hlt Hadv ].
  - pose proof (advance_cases next_chapter_url (record_chapter t c (visit st))) as Ha.
    rewrite Hadv in Ha. destruct Ha as (u & Hu & ->). cbn. repeat split; try assumption.
    now left.
  - pose proof (advance_cases next_chapter_url (count_empty (visit st))) as Ha.
    rewrite Hadv in Ha. destruct Ha as (u & Hu & ->). cbn. repeat split; try assumption.
    right. split; [reflexivity | exact Hlt].
Qed.

Lemma run_count_bound n : forall st st',
  0 <= consecutive_empty_chapters st ->
  consecutive_empty_chapters st = 0 \/ consecutive_empty_chapters st < empty_chapter_threshold ->
  run5 n st = Continue st' ->
  0 <= consecutive_empty_chapters st'
  /\ (consecutive_empty_chapters st' = 0
      \/ consecutive_empty_chapters st' < empty_chapter_threshold).
Proof.
  induction n as [| n IH]; intros st st' H0 Hb Hrun.
  - cbn in Hrun. inversion Hrun; subst. now split.
  - rewrite run_unfold in Hrun.
    destruct (step5 st) as [mid | |] eqn:Hstep; [| discriminate..].
    destruct (step_continue _ _ Hstep) as (_ & _ & _ & Hc).
    apply (IH mid st'); [lia | | exact Hrun].
    destruct Hc as [Hc | [_ Hc]]; [now left | now right].
Qed.

(** Passes add up. *)
Lemma run_add n m st :
  run5 (n + m) st = match run5 n st with Continue st' => run5 m st' | r => r end.
Proof.
  revert st. induction n as [| n IH]; intros st; [reflexivity |].
  change (S n + m)%nat with (S (n + m)). rewrite !run_unfold.
  destruct (step5 st) as [st' | |]; [apply IH | reflexivity..].
Qed.

End CountFacts.

(** X15: as long as the loop is running, the count of consecutive
    empty pages is 0 or below the threshold, and never negative. *)
Theorem empty_count_below_threshold
    (fetch_page : list string -> string -> option string)
    (extract : string -> outcome (option string * option string))
    (next_chapter_url : string -> outcome (option string))
    (threshold : Z) (start : string) (n : nat) (st : TraversalState) :
  run fetch_page extract next_chapter_url threshold n (initial_state start) = Continue st ->
  0 <= consecutive_empty_chapters st
  /\ (consecutive_empty_chapters st = 0 \/ consecutive_empty_chapters st < threshold).
Proof.
  apply run_count_bound; cbn; [lia | now left].
Qed.

Lemma empty_count_below_threshold_witness :
  exists st,
    run Fixture.site (extract_content Fixture.parse_html SimpleCss.css Fixture.extractor)
      (get_next_chapter_url RePattern.search Fixture.site_navigator) 3 4
      (initial_state "https://x.test/c-1.html") = Continue st
    /\ 0 <= consecutive_empty_chapters st
    /\ (consecutive_empty_chapters st = 0 \/ consecutive_empty_chapters st < 3).
Proof.
  destruct (run Fixture.site (extract_content Fixture.parse_html SimpleCss.css Fixture.extractor)
              (get_next_chapter_url RePattern.search Fixture.site_navigator) 3 4
              (initial_state "https://x.test/c-1.html")) as [st | |] eqn:E;
    [| discriminate E..].
  exists st. split; [reflexivity |].
  exact (empty_count_below_threshold _ _ _ _ _ _ _ E).
Defined.

(** X16: the list of chapters only grows at its end: what is recorded
    after [n] passes is still there, in the same order, after [n + m]
    passes. *)
Theorem chapters_append_only
    (fetch_page : list string -> string -> option string)
    (extract : string -> outcome (option string * option string))
    (next_chapter_url : string -> outcome (option string))
    (threshold : Z) (start : string) (n m : nat) :
  let run_k := fun k => run fetch_page extract next_chapter_url threshold k (initial_state start) in
  exists new,
    chapter_contents (state_of (run_k (n + m)%nat))
    = (chapter_contents (state_of (run_k n)) ++ new)%list.
Proof.
  intros run_k. unfold run_k. rewrite run_add.
  destruct (run _ _ _ _ n _) as [st' | r st' | e st']; cbn [state_of].
  - apply run_appends.
  - exists []. now rewrite app_nil_r.
  - exists []. now rewrite app_nil_r.
Qed.

Section FiniteSite.

Variable fetch_page : list string -> string -> option string.
Variable extract : string -> outcome (option string * option string).
Variable next_chapter_url : string -> outcome (option string).
Variable empty_chapter_threshold : Z.
Variable urls : gset string.

Hypothesis navigator_stays :
  forall u v, next_chapter_url u = Returned (Some v) -> v ∈ urls.

Abbreviation run6 := (run fetch_page extract next_chapter_url empty_chapter_threshold).

(** After [n] passes that all went on, [n] URLs of the site are
    visited. *)
Lemma run_continue_visited n : forall start st,
  start ∈ urls ->
  run6 n (initial_state start) = Continue st ->
  size (processed_urls st) = n
  /\ processed_urls st ⊆ urls
  /\ current_chapter_url st ∈ urls.
Proof.
  induction n as [| n IH]; intros start st Hstart Hrun.
  - cbn in Hrun. inversion Hrun; subst. cbn. split; [apply size_empty |].
    split; [set_solver | exact Hstart].
  - rewrite run_snoc in Hrun.
    destruct (run6 n (initial_state start)) as [mid | |] eqn:Hmid; [| discriminate..].
    destruct (IH start mid Hstart Hmid) as (Hsize & Hsub & Hcur).
    destruct (step_continue _ _ _ _ _ _ Hrun) as (Hnew & Hproc & Hnav & _).
    rewrite Hproc. split; [| split].
    + rewrite size_union by (apply disjoint_singleton_l; exact Hnew).
      rewrite size_singleton, Hsize. lia.
    + apply union_subseteq. split; [| exact Hsub].
      apply singleton_subseteq_l. exact Hcur.
    + exact (navigator_stays _ _ Hnav).
Qed.

End FiniteSite.

(** X17: on a finite site the loop ends.  When the start URL and every
    URL the navigator returns belong to a finite set of URLs, the loop
    has stopped after at most one pass more than the set has
    members. *)
Theorem loop_ends_on_finite_site
    (fetch_page : list string -> string -> option string)
    (extract : string -> outcome (option string * option string))
    (next_chapter_url : string -> outcome (option string))
    (threshold : Z) (urls : gset string) (start : string) :
  start ∈ urls ->
  (forall u v, next_chapter_url u = Returned (Some v) -> v ∈ urls) ->
  exists st,
    (exists r, run fetch_page extract next_chapter_url threshold (S (size urls))
                 (initial_state start) = Break r st)
    \/ (exists e, run fetch_page extract next_chapter_url threshold (S (size urls))
                    (initial_state start) = Abort e st).
Proof.
  intros Hstart Hnav.
  destruct (run _ _ _ _ (S (size urls)) _) as [st | r st | e st] eqn:Hrun.
  - destruct (run_continue_visited fetch_page extract next_chapter_url threshold urls Hnav
                _ start st Hstart Hrun) as (Hsize & Hsub & _).
    apply subseteq_size in Hsub. lia.
  - exists st. left. now exists r.
  - exists st. right. now exists e.
Qed.

Lemma loop_ends_on_finite_site_witness :
  let a := "https://x.test/c-1.html" in
  let b := "https://x.test/c-2.html" in
  let swap := fun u : string => Returned (Some (if String.eqb u a then b else a)) in
  exists st,
    (exists r, run Fixture.site
                 (extract_content Fixture.parse_html SimpleCss.css Fixture.extractor)
                 swap 3 (S (size ({[ a; b ]} : gset string))) (initial_state a) = Break r st)
    \/ (exists e, run Fixture.site
                    (extract_content Fixture.parse_html SimpleCss.css Fixture.extractor)
                    swap 3 (S (size ({[ a; b ]} : gset string))) (initial_state a)
                  = Abort e st).
Proof.
  intros a b swap.
  apply (loop_ends_on_finite_site Fixture.site
           (extract_content Fixture.parse_html SimpleCss.css Fixture.extractor)
           swap 3 {[ a; b ]} a).
  - set_solver.
  - intros u v H. unfold swap in H. inversion H. destruct (String.eqb u a); set_solver.
Defined.

(** The program on the site of the fixtures: two chapters, then the
    streak of two pages without content; the book has the two
    chapters and is named after the title. *)
Example main_ex1 :
  exists st book,
    MainFixture.main "output.epub" MainFixture.config 6 = Some (Wrote st book)
    /\ Epub.output_path book = "the_wandering_inn.epub"
    /\ Epub.identifier book = "the_wandering_inn"
    /\ map Epub.file_name (Epub.chapters book) = ["chapter_1.xhtml"; "chapter_2.xhtml"]
    /\ map Epub.link_title (Epub.toc_items book) = ["One"; "One"]
    /\ map Epub.content (Epub.chapters book)
       = ["<body><article><p>Text</p></article></body>";
          "<body><article><p>Text</p></article></body>"].
Proof.
  eexists; eexists. split; [vm_compute; reflexivity |]. repeat split; reflexivity.
Qed.

Example main_ex2 : MainFixture.main "output.epub" MainFixture.config 3 = None.
Proof. vm_compute. reflexivity. Qed.

(** ** The generator *)

Section EpubFacts.

Variable html_parser : string -> Dom.node.

Abbreviation add_from := (Epub.add_chapters_from html_parser).

Lemma add_chapters_from_cons i d rest self :
  add_from i (d :: rest) self =
    if negb (truthy_opt (Epub.data_html_content d)) then add_from (S i) rest self
    else add_from (S i) rest (with_chapter html_parser i d self).
Proof. reflexivity. Qed.

(** Files and links after [add_chapters]: those there before, then one
    of each per entry that is kept, named after its index. *)
Lemma add_chapters_from_files l : forall i self,
  map Epub.file_name (Epub.chapters (add_from i l self))
  = (map Epub.file_name (Epub.chapters self) ++ map chapter_file_name (kept_indices i l))%list
  /\ map Epub.href (Epub.toc_items (add_from i l self))
     = (map Epub.href (Epub.toc_items self) ++ map chapter_file_name (kept_indices i l))%list.
Proof.
  induction l as [| d rest IH]; intros i self.
  - cbn. now rewrite !app_nil_r.
  - rewrite add_chapters_from_cons. cbn [kept_indices].
    destruct (truthy_opt (Epub.data_html_content d)); cbn [negb]; [| apply IH].
    destruct (IH (S i) (with_chapter html_parser i d self)) as [Hf Hh].
    rewrite Hf, Hh. cbn [with_chapter Epub.chapters Epub.toc_items].
    rewrite !map_app. cbn [map Epub.file_name Epub.href]. now rewrite <- !app_assoc.
Qed.

(** What [add_chapters] leaves alone. *)
Lemma add_chapters_from_keeps l : forall i self,
  Epub.output_path (add_from i l self) = Epub.output_path self
  /\ Epub.identifier (add_from i l self) = Epub.identifier self
  /\ Epub.cover_image_url (add_from i l self) = Epub.cover_image_url self
  /\ Epub.language (add_from i l self) = Epub.language self.
Proof.
  induction l as [| d rest IH]; intros i self; [now repeat split |].
  rewrite add_chapters_from_cons.
  destruct (negb _); [apply IH |].
  destruct (IH (S i) (with_chapter html_parser i d self)) as (-> & -> & -> & ->).
  now repeat split.
Qed.

Lemma kept_indices_ge l : forall i k, In k (kept_indices i l) -> (i <= k)%nat.
Proof.
  induction l as [| d rest IH]; intros i k; [intros [] |].
  cbn [kept_indices]. destruct (truthy_opt _).
  - intros [<- | H]; [lia | apply IH in H; lia].
  - intros H. apply IH in H. lia.
Qed.

Lemma kept_indices_NoDup l : forall i, NoDup (kept_indices i l).
Proof.
  induction l as [| d rest IH]; intros i; [constructor |].
  cbn [kept_indices]. destruct (truthy_opt _); [| apply IH].
  apply NoDup_cons_2; [| apply IH].
  rewrite list_elem_of_In. intros H. apply kept_indices_ge in H. lia.
Qed.

Lemma kept_indices_length l : forall i, (length (kept_indices i l) <= length l)%nat.
Proof.
  induction l as [| d rest IH]; intros i; [reflexivity |].
  cbn [kept_indices length]. destruct (truthy_opt _); cbn [length]; specialize (IH (S i)); lia.
Qed.

Lemma append_inj_r t : forall s1 s2, s1 ++ t = s2 ++ t -> s1 = s2.
Proof.
  induction s1 as [| c s1 IH]; intros s2 H.
  - destruct s2 as [| d s2]; [reflexivity |].
    apply (f_equal String.length) in H. rewrite !length_append in H. cbn in H. lia.
  - destruct s2 as [| d s2].
    + apply (f_equal String.length) in H. rewrite !length_append in H. cbn in H. lia.
    + rewrite !append_cons in H. inversion H. f_equal. now apply IH.
Qed.

Lemma append_inj_l t : forall s1 s2, t ++ s1 = t ++ s2 -> s1 = s2.
Proof.
  induction t as [| c t IH]; intros s1 s2 H; [exact H |].
  rewrite !append_cons in H. inversion H. now apply IH.
Qed.

Lemma chapter_file_name_inj i j : chapter_file_name i = chapter_file_name j -> i = j.
Proof.
  unfold chapter_file_name, Epub.number. intros H.
  apply append_inj_l, append_inj_r, str_of_int_inj in H. lia.
Qed.

End EpubFacts.

(** X18: after [add_chapters] on a new generator, the entries of the
    table of contents point, in order, at the files of the chapters;
    the file names are pairwise distinct; and there are no more
    chapters than entries given. *)
Theorem toc_points_at_distinct_files
    (html_parser : string -> Dom.node) (chapter_data_list : list Epub.ChapterData)
    (novel_title novel_author language output_path : string)
    (cover_image_url : option string) (has_page_loader : bool) :
  let self :=
    Epub.add_chapters html_parser chapter_data_list
      (Epub.init novel_title novel_author language output_path cover_image_url
         has_page_loader) in
  map Epub.href (Epub.toc_items self) = map Epub.file_name (Epub.chapters self)
  /\ NoDup (map Epub.file_name (Epub.chapters self))
  /\ (length (Epub.chapters self) <= length chapter_data_list)%nat.
Proof.
  intros self. unfold self, Epub.add_chapters.
  destruct (add_chapters_from_files html_parser chapter_data_list 0
              (Epub.init novel_title novel_author language output_path cover_image_url
                 has_page_loader)) as [Hf Hh].
  cbn [Epub.init Epub.chapters Epub.toc_items map app] in Hf, Hh.
  split; [now rewrite Hf, Hh |]. split.
  - rewrite Hf. change (map chapter_file_name ?l) with (chapter_file_name <$> l).
    apply NoDup_fmap_2; [| apply kept_indices_NoDup].
    intros i j. apply chapter_file_name_inj.
  - rewrite <- (length_map Epub.file_name), Hf, length_map. apply kept_indices_length.
Qed.

Section EpubRecords.

Variable html_parser : string -> Dom.node.

(** With records that all have a content, [add_chapters] skips none:
    titles and numbers follow the records. *)
Lemma add_chapters_from_records rs : forall i self,
  Forall record_ok rs ->
  let g := Epub.add_chapters_from html_parser i (map chapter_data rs) self in
  map Epub.html_title (Epub.chapters g)
  = (map Epub.html_title (Epub.chapters self) ++ map title rs)%list
  /\ map Epub.link_title (Epub.toc_items g)
     = (map Epub.link_title (Epub.toc_items self) ++ map title rs)%list
  /\ map Epub.file_name (Epub.chapters g)
     = (map Epub.file_name (Epub.chapters self)
        ++ map chapter_file_name (seq i (length rs)))%list.
Proof.
  induction rs as [| r rs IH]; intros i self Hok; cbn zeta.
  - cbn. now rewrite !app_nil_r.
  - inversion Hok as [| r' rs' [Ht Hc] Hrest]; subst.
    cbn [map]. rewrite add_chapters_from_cons.
    cbn [chapter_data Epub.data_html_content truthy_opt]. rewrite Hc. cbn [negb].
    destruct (IH (S i) (with_chapter html_parser i (chapter_data r) self) Hrest)
      as (H1 & H2 & H3).
    rewrite H1, H2, H3. cbn [with_chapter Epub.chapters Epub.toc_items].
    rewrite !map_app. cbn [map Epub.html_title Epub.link_title Epub.file_name length seq].
    cbn [chapter_data Epub.data_title default from_option id].
    now rewrite <- !app_assoc.
Qed.

End EpubRecords.

(** X19: given chapters that all have a content (as the loop records
    them), [add_chapters] on a new generator skips none: the chapters
    and the table of contents carry the titles of the records in
    their order, in the files [chapter_1.xhtml], [chapter_2.xhtml],
    ... without a gap. *)
Theorem add_chapters_keeps_all_records
    (html_parser : string -> Dom.node) (records : list ChapterRecord)
    (novel_title novel_author language output_path : string)
    (cover_image_url : option string) (has_page_loader : bool) :
  Forall record_ok records ->
  let self :=
    Epub.add_chapters html_parser (map chapter_data records)
      (Epub.init novel_title novel_author language output_path cover_image_url
         has_page_loader) in
  map Epub.html_title (Epub.chapters self) = map title records
  /\ map Epub.link_title (Epub.toc_items self) = map title records
  /\ map Epub.file_name (Epub.chapters self)
     = map chapter_file_name (seq 0 (length records)).
Proof.
  intros Hok self.
  exact (add_chapters_from_records html_parser records 0 _ Hok).
Qed.

Lemma add_chapters_keeps_all_records_witness :
  let records :=
    [ {| title := "One"; html_content := "<article><p>Text</p></article>" |};
      {| title := "Two"; html_content := "<article><p>Text</p></article>" |} ] in
  let self :=
    Epub.add_chapters MainFixture.html_parser (map chapter_data records) MainFixture.generator in
  map Epub.link_title (Epub.toc_items self) = ["One"; "Two"]
  /\ map Epub.file_name (Epub.chapters self) = ["chapter_1.xhtml"; "chapter_2.xhtml"].
Proof.
  intros records self.
  destruct (add_chapters_keeps_all_records MainFixture.html_parser records
              "The Wandering Inn" "Unknown" "en" "the_wandering_inn.epub" None true)
    as (_ & Htoc & Hfiles).
  - repeat constructor.
  - split; [exact Htoc | exact Hfiles].
Defined.

Section IdentifierFacts.
Import PyStr.

Lemma after_last_go_none c s : forall cur,
  all_chars (fun x => negb (Ascii.eqb x c)) s = true ->
  after_last_go c s cur = String.rev_app cur s.
Proof.
  induction s as [| x s IH]; intros cur H; [reflexivity |].
  cbn [all_chars] in H. apply andb_true_iff in H as [Hx Hs].
  apply negb_true_iff in Hx. cbn [after_last_go]. rewrite Hx. now rewrite IH.
Qed.

Lemma after_last_none c s :
  all_chars (fun x => negb (Ascii.eqb x c)) s = true -> after_last c s = s.
Proof. intros H. unfold after_last. now rewrite after_last_go_none. Qed.

Lemma replace_epub_suffix stem :
  all_chars (fun x => negb (Ascii.eqb x ".")) stem = true ->
  replace_all ".epub" EmptyString (stem ++ ".epub") = stem.
Proof.
  unfold replace_all. induction stem as [| x stem IH]; [reflexivity |].
  cbn [all_chars]. intros H. apply andb_true_iff in H as [Hx Hs].
  apply negb_true_iff in Hx. rewrite append_cons.
  cbn [replace_go starts_with].
  rewrite Ascii.eqb_sym, Hx. cbn [andb]. f_equal. now apply IH.
Qed.

Lemma filename_char_plain c :
  filename_char c = true -> Ascii.eqb c "/" = false /\ Ascii.eqb c "." = false.
Proof.
  destruct c as [[] [] [] [] [] [] [] []]; vm_compute; intros H;
    first [discriminate H | split; reflexivity].
Qed.

End IdentifierFacts.

(** The stem of a sanitized name and its characters. *)
Lemma sanitize_filename_stem (title : string) :
  exists stem,
    _sanitize_filename title = stem ++ ".epub"
    /\ PyStr.all_chars filename_char stem = true.
Proof.
  unfold _sanitize_filename. eexists. split; [reflexivity |].
  apply all_chars_strip, all_chars_squeeze, all_chars_squeeze.
  unfold lower, replace_char. rewrite map_chars_compose.
  apply all_chars_filter_map. intros c. apply (sanitize_char_kept c).
Qed.

(** X20: when the output file is the one derived from the title, the
    identifier of the book is that file name without its extension. *)
Theorem identifier_of_sanitized_output
    (title novel_title novel_author language : string)
    (cover_image_url : option string) (has_page_loader : bool) :
  exists stem,
    _sanitize_filename title = stem ++ ".epub"
    /\ Epub.identifier
         (Epub.init novel_title novel_author language (_sanitize_filename title)
            cover_image_url has_page_loader) = stem.
Proof.
  destruct (sanitize_filename_stem title) as (stem & Heq & Hall).
  exists stem. split; [exact Heq |].
  cbn [Epub.init Epub.identifier]. rewrite Heq.
  rewrite after_last_none.
  - apply replace_epub_suffix.
    apply (all_chars_impl filename_char); [| exact Hall].
    intros c Hc. apply negb_true_iff. now apply filename_char_plain.
  - rewrite all_chars_app. apply andb_true_iff. split; [| reflexivity].
    apply (all_chars_impl filename_char); [| exact Hall].
    intros c Hc. apply negb_true_iff. now apply filename_char_plain.
Qed.

(** X21: a cover that [_add_cover_image] adds to the book is named
    [cover.jpg], [cover.png] or [cover.gif], with the media type
    [image/jpg], [image/png] or [image/gif] of the same extension, and
    holds the bytes that were fetched, which are not empty. *)
Theorem cover_has_known_format
    (fetch_image_bytes : string -> option string) (urlparse_path : string -> outcome string)
    (self : Epub.EpubGenerator) (c : Epub.Cover) :
  Epub._add_cover_image fetch_image_bytes urlparse_path self = Returned (Some c) ->
  ((Epub.cover_filename c = "cover.jpg" /\ Epub.media_type c = "image/jpg")
   \/ (Epub.cover_filename c = "cover.png" /\ Epub.media_type c = "image/png")
   \/ (Epub.cover_filename c = "cover.gif" /\ Epub.media_type c = "image/gif"))
  /\ truthy (Epub.image_bytes c) = true
  /\ exists url, Epub.cover_image_url self = Some url
                 /\ fetch_image_bytes url = Some (Epub.image_bytes c).
Proof.
  unfold Epub._add_cover_image.
  destruct (Epub.cover_image_url self) as [url |]; [| discriminate].
  cbn [truthy_opt default from_option id].
  destruct (_ || _)%bool; [discriminate |].
  destruct (fetch_image_bytes url) as [b |] eqn:Hfetch; [| discriminate].
  cbn [truthy_opt default from_option id].
  destruct (truthy b) eqn:Hb; [| discriminate].
  destruct (urlparse_path url) as [path | e]; cbn [bind]; [| discriminate].
  destruct (existsb _ _) eqn:Hext; cbn [negb]; [| discriminate].
  intros H. inversion H; subst c. clear H. cbn [Epub.cover_filename Epub.media_type Epub.image_bytes].
  split; [| split; [exact Hb | now exists url]].
  cbn [existsb] in Hext. rewrite orb_false_r in Hext.
  apply orb_true_iff in Hext as [Hext | Hext]; [| apply orb_true_iff in Hext as [Hext | Hext]];
    apply String.eqb_eq in Hext; rewrite Hext.
  - left. split; reflexivity.
  - right. left. split; reflexivity.
  - right. right. split; reflexivity.
Qed.

Lemma cover_has_known_format_witness :
  let self :=
    Epub.init "T" "A" "en" "t.epub" (Some "https://x.test/img/Cover.JPEG") true in
  let c := {| Epub.cover_filename := "cover.jpg"; Epub.media_type := "image/jpg";
              Epub.image_bytes := "bytes" |} in
  ((Epub.cover_filename c = "cover.jpg" /\ Epub.media_type c = "image/jpg")
   \/ (Epub.cover_filename c = "cover.png" /\ Epub.media_type c = "image/png")
   \/ (Epub.cover_filename c = "cover.gif" /\ Epub.media_type c = "image/gif"))
  /\ truthy (Epub.image_bytes c) = true
  /\ exists url, Epub.cover_image_url self = Some url
                 /\ (fun _ : string => Some "bytes") url = Some (Epub.image_bytes c).
Proof.
  intros self c.
  apply (cover_has_known_format (fun _ => Some "bytes") (fun _ => Returned "/img/Cover.JPEG")
           self c).
  reflexivity.
Defined.

(** ** [main] *)

Section MainFacts.

Variable re_search : string -> string -> outcome (option Re.Match).
Variable urlparse : string -> outcome (string * string * string).
Variable parse_html : string -> Dom.node.
Variable css : string -> option (Dom.node -> nat -> bool).
Variable fetch_page : list string -> string -> option string.
Variable fetch_image_bytes : string -> option string.
Variable html_parser : string -> Dom.node.
Variable write_epub : Epub.EpubGenerator -> bool.

Abbreviation main' :=
  (main re_search urlparse parse_html css fetch_page fetch_image_bytes html_parser write_epub).
Abbreviation after_loop' :=
  (after_loop urlparse fetch_image_bytes html_parser write_epub).

(** [main] is its set-up, then the loop, then what follows the loop. *)
Lemma main_setup args_output config n :
  main' args_output config n =
    match setup urlparse config with
    | None => Some (SysExit1 [])
    | Some (navigator, extractor) =>
        match run fetch_page (extract_content parse_html css extractor)
                (get_next_chapter_url re_search navigator)
                (default 3 (Config.consecutive_empty_chapters_threshold config)) n
                (initial_state (get_start_url navigator)) with
        | Continue _ => None
        | Break _ st => Some (after_loop' (output_file args_output config) config st)
        | Abort _ st => Some (SysExit1 (fetched (trace st)))
        end
    end.
Proof.
  unfold main, setup. destruct (negb (valid_config config)); [reflexivity |].
  destruct (url_pattern_config config) as [rule |]; [| reflexivity].
  destruct (Config.pattern rule) as [pattern |]; [| reflexivity].
  destruct (new_URLChapterNavigator _ _ _ _) as [nav | e]; [| reflexivity].
  destruct (new_ContentExtractor _ _ _) as [ex | e]; reflexivity.
Qed.

Lemma setup_ready config :
  config_ready urlparse config = true <-> exists p, setup urlparse config = Some p.
Proof.
  unfold config_ready, setup, new_URLChapterNavigator, _get_base_url, new_ContentExtractor.
  destruct (valid_config config); cbn [negb andb]; [| split; [discriminate | now intros [p H]]].
  destruct (url_pattern_config config) as [rule |]; cbn [andb];
    [| split; [discriminate | now intros [p H]]].
  destruct (Config.pattern rule) as [pattern |].
  2:{ rewrite bool_decide_eq_false_2 by (intros [x Hx]; discriminate).
      cbn [andb]. split; [discriminate | now intros [p H]]. }
  rewrite bool_decide_eq_true_2 by now eexists. cbn [andb].
  destruct (urlparse _) as [parsed | e]; cbn [bind andb];
    [| split; [discriminate | now intros [p H]]].
  destruct (Config.content_selectors config) as [[| r rs] |]; cbn [default from_option id];
    split; try discriminate; try (now intros [p H]); intros _; now eexists.
Qed.

End MainFacts.

(** X22: [main] enters the loop exactly when the configuration has the
    required keys, a pattern in its first [url_pattern] entry, a start
    URL that [urlparse] accepts and a non-empty list of content
    selectors; in every other case it exits with status 1, whatever
    the number of passes allowed, and no URL was fetched. *)
Theorem loop_entered_iff_config_ready
    (re_search : string -> string -> outcome (option Re.Match))
    (urlparse : string -> outcome (string * string * string))
    (parse_html : string -> Dom.node) (css : string -> option (Dom.node -> nat -> bool))
    (fetch_page : list string -> string -> option string)
    (fetch_image_bytes : string -> option string)
    (html_parser : string -> Dom.node) (write_epub : Epub.EpubGenerator -> bool)
    (args_output : string) (config : Config.t) :
  let main_n :=
    main re_search urlparse parse_html css fetch_page fetch_image_bytes html_parser write_epub
      args_output config in
  (main_n O = None <-> config_ready urlparse config = true)
  /\ (config_ready urlparse config = false -> forall n, main_n n = Some (SysExit1 [])).
Proof.
  intros main_n. unfold main_n. split.
  - rewrite setup_ready, main_setup. split.
    + destruct (setup urlparse config) as [p |]; [now exists p | discriminate].
    + intros [[nav ex] ->]. reflexivity.
  - intros Hnot n. rewrite main_setup.
    destruct (setup urlparse config) as [p |] eqn:E; [| reflexivity].
    assert (config_ready urlparse config = true) by (apply setup_ready; now exists p).
    congruence.
Qed.

Lemma loop_entered_iff_config_ready_witness :
  let config :=
    with_next_chapter_selectors MainFixture.config
      [{| Config.type := Some "url_pattern"; Config.pattern := None;
          Config.increment_by := Some 1 |}] in
  config_ready MainFixture.urlparse config = false
  /\ MainFixture.main "output.epub" config 6 = Some (SysExit1 []).
Proof.
  intros config. split; [reflexivity |].
  apply (loop_entered_iff_config_ready RePattern.search MainFixture.urlparse
           Fixture.parse_html SimpleCss.css Fixture.site (fun _ => None)
           MainFixture.html_parser (fun _ => true) "output.epub" config).
  reflexivity.
Defined.

Section FirstPattern.

Lemma find_first_url_pattern pre r post :
  forallb (fun s => negb (Config.is_url_pattern s)) pre = true ->
  Config.is_url_pattern r = true ->
  List.find Config.is_url_pattern (pre ++ r :: post) = Some r
  /\ existsb Config.is_url_pattern (pre ++ r :: post) = true.
Proof.
  intros Hpre Hr. induction pre as [| s pre IH].
  - cbn. now rewrite Hr.
  - cbn [forallb] in Hpre. apply andb_true_iff in Hpre as [Hs Hpre].
    apply negb_true_iff in Hs. cbn. rewrite Hs. now apply IH.
Qed.

End FirstPattern.

(** X23: of the entries of [next_chapter_selectors], [main] uses the
    first of type [url_pattern] and nothing else: entries of other
    types before it and all entries after it change nothing. *)
Theorem main_uses_first_url_pattern
    (re_search : string -> string -> outcome (option Re.Match))
    (urlparse : string -> outcome (string * string * string))
    (parse_html : string -> Dom.node) (css : string -> option (Dom.node -> nat -> bool))
    (fetch_page : list string -> string -> option string)
    (fetch_image_bytes : string -> option string)
    (html_parser : string -> Dom.node) (write_epub : Epub.EpubGenerator -> bool)
    (args_output : string) (config : Config.t)
    (pre post : list Config.NavRule) (r : Config.NavRule) (n : nat) :
  forallb (fun s => negb (Config.is_url_pattern s)) pre = true ->
  Config.is_url_pattern r = true ->
  main re_search urlparse parse_html css fetch_page fetch_image_bytes html_parser write_epub
    args_output (with_next_chapter_selectors config (pre ++ r :: post)) n
  = main re_search urlparse parse_html css fetch_page fetch_image_bytes html_parser write_epub
      args_output (with_next_chapter_selectors config [r]) n.
Proof.
  intros Hpre Hr.
  destruct (find_first_url_pattern pre r post Hpre Hr) as [Hfind Hex].
  destruct (find_first_url_pattern [] r [] eq_refl Hr) as [Hfind1 Hex1].
  unfold main, valid_config, url_pattern_config, output_file, after_loop.
  cbn [with_next_chapter_selectors Config.novel_title Config.start_url
       Config.content_selectors Config.next_chapter_selectors Config.remove_elements
       Config.chapter_title_selector Config.novel_author Config.language
       Config.cover_image_url Config.consecutive_empty_chapters_threshold
       default from_option id].
  cbn [app] in Hfind1, Hex1. rewrite Hfind, Hex, Hfind1, Hex1. reflexivity.
Qed.

Lemma main_uses_first_url_pattern_witness :
  MainFixture.main "output.epub" MainFixture.config 6
  = MainFixture.main "output.epub"
      (with_next_chapter_selectors MainFixture.config
         [{| Config.type := Some "url_pattern"; Config.pattern := Some "(/c-(\d+)\.html)";
             Config.increment_by := None |}]) 6.
Proof.
  apply (main_uses_first_url_pattern RePattern.search MainFixture.urlparse
           Fixture.parse_html SimpleCss.css Fixture.site (fun _ => None)
           MainFixture.html_parser (fun _ => true) "output.epub" MainFixture.config
           [{| Config.type := Some "css_selector"; Config.pattern := None;
               Config.increment_by := None |}]
           [{| Config.type := Some "url_pattern"; Config.pattern := Some "(\d+)";
               Config.increment_by := Some 10 |}]);
    reflexivity.
Defined.

Section GenerateFacts.

Variable fetch_image_bytes : string -> option string.
Variable urlparse_path : string -> outcome string.
Variable write_epub : Epub.EpubGenerator -> bool.

(** [generate_epub] touches the cover only, and returns the book it
    managed to write. *)
Lemma generate_epub_returned self book :
  Epub.generate_epub fetch_image_bytes urlparse_path write_epub self = inl book ->
  write_epub book = true
  /\ Epub.chapters book = Epub.chapters self
  /\ Epub.toc_items book = Epub.toc_items self
  /\ Epub.output_path book = Epub.output_path self
  /\ Epub.identifier book = Epub.identifier self.
Proof.
  unfold Epub.generate_epub.
  destruct (Epub._add_cover_image _ _ self) as [c | e]; [| discriminate].
  destruct (write_epub _) eqn:Hw; [| discriminate].
  intros H. inversion H; subst book. now repeat split.
Qed.

End GenerateFacts.

(** X24: when [main] has written a book, the loop had ended by a
    [break] with at least one chapter recorded, the file is the output
    file chosen from the arguments and the title, and the book holds
    exactly the recorded chapters: their titles in their order, in the
    chapters and in the table of contents, none skipped, in files
    numbered from 1 without a gap. *)
Theorem written_book_has_recorded_chapters
    (re_search : string -> string -> outcome (option Re.Match))
    (urlparse : string -> outcome (string * string * string))
    (parse_html : string -> Dom.node) (css : string -> option (Dom.node -> nat -> bool))
    (fetch_page : list string -> string -> option string)
    (fetch_image_bytes : string -> option string)
    (html_parser : string -> Dom.node) (write_epub : Epub.EpubGenerator -> bool)
    (args_output : string) (config : Config.t) (n : nat)
    (st : TraversalState) (book : Epub.EpubGenerator) :
  main re_search urlparse parse_html css fetch_page fetch_image_bytes html_parser write_epub
    args_output config n = Some (Wrote st book) ->
  (exists navigator extractor r,
     setup urlparse config = Some (navigator, extractor)
     /\ run fetch_page (extract_content parse_html css extractor)
          (get_next_chapter_url re_search navigator)
          (default 3 (Config.consecutive_empty_chapters_threshold config)) n
          (initial_state (get_start_url navigator)) = Break r st)
  /\ chapter_contents st <> []
  /\ write_epub book = true
  /\ Epub.output_path book = output_file args_output config
  /\ map Epub.html_title (Epub.chapters book) = map title (chapter_contents st)
  /\ map Epub.link_title (Epub.toc_items book) = map title (chapter_contents st)
  /\ map Epub.file_name (Epub.chapters book)
     = map chapter_file_name (seq 0 (length (chapter_contents st))).
Proof.
  rewrite main_setup.
  destruct (setup urlparse config) as [[nav ex] |] eqn:Hsetup; [| discriminate].
  destruct (run _ _ _ _ n _) as [st1 | r st1 | e st1] eqn:Hrun; [discriminate | | discriminate].
  assert (Hok : Forall record_ok (chapter_contents st1)).
  { pose proof (run_invariant fetch_page (extract_content parse_html css ex)
                  (get_next_chapter_url re_search nav)
                  (default 3 (Config.consecutive_empty_chapters_threshold config))
                  (fun s => Forall record_ok (chapter_contents s))
                  (step_records_ok _ _ _ _) n (initial_state (get_start_url nav))
                  (List.Forall_nil _)) as H.
    now rewrite Hrun in H. }
  unfold after_loop.
  destruct (chapter_contents st1) as [| r0 rs] eqn:Hch; [discriminate |].
  destruct (Epub.generate_epub _ _ _ _) as [book1 | f] eqn:Hgen; [| discriminate].
  intros H. inversion H; subst st1 book1. clear H.
  destruct (generate_epub_returned _ _ _ _ _ Hgen) as (Hw & Hc & Ht & Ho & _).
  destruct (add_chapters_from_records html_parser (r0 :: rs) 0
              (Epub.init (default EmptyString (Config.novel_title config))
                 (default "Unknown" (Config.novel_author config))
                 (default "en" (Config.language config))
                 (output_file args_output config) (Config.cover_image_url config) true) Hok)
    as (H1 & H2 & H3).
  destruct (add_chapters_from_keeps html_parser (map chapter_data (r0 :: rs)) 0
              (Epub.init (default EmptyString (Config.novel_title config))
                 (default "Unknown" (Config.novel_author config))
                 (default "en" (Config.language config))
                 (output_file args_output config) (Config.cover_image_url config) true))
    as (Hpath & _).
  split; [now exists nav, ex, r |]. rewrite Hch.
  split; [discriminate |]. split; [exact Hw |].
  unfold Epub.add_chapters in Hc, Ht, Ho.
  rewrite Hc, Ht, Ho. split; [exact Hpath |].
  split; [exact H1 |]. split; [exact H2 | exact H3].
Qed.

Lemma written_book_has_recorded_chapters_witness :
  exists st book,
    MainFixture.main "output.epub" MainFixture.config 6 = Some (Wrote st book)
    /\ Epub.output_path book = "the_wandering_inn.epub"
    /\ map Epub.link_title (Epub.toc_items book) = map title (chapter_contents st).
Proof.
  destruct (MainFixture.main "output.epub" MainFixture.config 6) as [[f | st | st book] |] eqn:E;
    [vm_compute in E; discriminate E.. | | vm_compute in E; discriminate E].
  exists st, book. split; [reflexivity |].
  destruct (written_book_has_recorded_chapters _ _ _ _ _ _ _ _ _ _ _ _ _ E)
    as (_ & _ & _ & Hpath & _ & Htoc & _).
  split; [rewrite Hpath; reflexivity | exact Htoc].
Defined.

(** An exception in the loop costs the chapters already recorded: with
    a pattern whose first group is optional the navigator raises after
    the first chapter, and [main] exits with status 1. *)
Example main_ex3 :
  MainFixture.main "output.epub"
    (with_next_chapter_selectors MainFixture.config
       [{| Config.type := Some "url_pattern"; Config.pattern := Some "(vol-)?c-(\d+)";
           Config.increment_by := None |}]) 6
  = Some (SysExit1 ["https://x.test/c-1.html"]).
Proof. vm_compute. reflexivity. Qed.

(** ** The title *)

Section TitleFacts.
Import Dom.

Lemma first_char_app s1 s2 :
  first_char (s1 ++ s2) = match first_char s1 with Some c => Some c | None => first_char s2 end.
Proof. destruct s1; reflexivity. Qed.

Lemma last_char_some s : forall d, exists x, last_char (String d s) = Some x.
Proof.
  induction s as [| e s IH]; intros d; [now exists d |].
  destruct (IH e) as [x Hx]. exists x. exact Hx.
Qed.

Lemma last_char_cons c s :
  last_char (String c s) = match last_char s with Some d => Some d | None => Some c end.
Proof.
  destruct s as [| d s]; [reflexivity |].
  change (last_char (String c (String d s))) with (last_char (String d s)).
  now destruct (last_char_some s d) as [x ->].
Qed.

Lemma last_char_app s1 s2 :
  last_char (s1 ++ s2) = match last_char s2 with Some c => Some c | None => last_char s1 end.
Proof.
  induction s1 as [| c s1 IH].
  - rewrite append_nil_l. now destruct (last_char s2).
  - rewrite append_cons, !last_char_cons, IH.
    destruct (last_char s2); [reflexivity |]. now destruct (last_char s1).
Qed.

Lemma trimmed_app s1 s2 : trimmed s1 -> trimmed s2 -> trimmed (s1 ++ s2).
Proof.
  intros [Hf1 Hl1] [Hf2 Hl2]. split.
  - rewrite first_char_app. now destruct (first_char s1).
  - rewrite last_char_app. now destruct (last_char s2).
Qed.

Lemma get_text_strip_elem i nm at_ cs :
  get_text_strip (Elem i nm at_ cs)
  = fold_right (fun c acc => get_text_strip c ++ acc) EmptyString cs.
Proof.
  cbn [get_text_strip]. induction cs as [| c cs IH]; [reflexivity |].
  cbn [fold_right]. now rewrite <- IH.
Qed.

(** The text [get_text(strip=True)] gives has no white space at its
    ends. *)
Lemma get_text_strip_trimmed n : trimmed (get_text_strip n).
Proof.
  induction n as [s | i nm at_ cs IH] using node_ind'.
  - cbn [get_text_strip]. apply (strip_edges is_pyspace).
  - rewrite get_text_strip_elem. induction IH as [| c cs Hc _ IHcs]; [now split |].
    cbn [fold_right]. now apply trimmed_app.
Qed.

End TitleFacts.

(** X25: a title that [extract_content] returns has no white space at
    its beginning nor at its end. *)
Theorem extracted_title_trimmed
    (parse_html : string -> Dom.node) (css : string -> option (Dom.node -> nat -> bool))
    (self : ContentExtractor) (html : string) (t : string) (c : option string) :
  extract_content parse_html css self html = Returned (Some t, c) ->
  trimmed t.
Proof.
  intros H. destruct (truthy html) eqn:Hhtml.
  - destruct (extract_content_returned parse_html css self html (Some t) c Hhtml H)
      as [Ht _].
    unfold extract_title in Ht. destruct (truthy_opt _); [| discriminate].
    destruct (select_one css _ _) as [[tag |] | e]; [| discriminate..].
    inversion Ht. apply get_text_strip_trimmed.
  - unfold extract_content in H. rewrite Hhtml in H. discriminate.
Qed.

Lemma extracted_title_trimmed_witness : trimmed "One".
Proof.
  apply (extracted_title_trimmed Fixture.parse_html SimpleCss.css Fixture.extractor
           Fixture.page_full "One" (Some "<article><p>Text</p></article>")).
  reflexivity.
Defined.

Section PageNumber.

Variable fetch_page : list string -> string -> option string.
Variable extract : string -> outcome (option string * option string).
Variable next_chapter_url : string -> outcome (option string).
Variable empty_chapter_threshold : Z.

Abbreviation step7 := (loop_iteration fetch_page extract next_chapter_url empty_chapter_threshold).
Abbreviation run7 := (run fetch_page extract next_chapter_url empty_chapter_threshold).

(** A pass that goes on has fetched the current URL, and only it. *)
Lemma step_continue_fetched st st' :
  step7 st = Continue st' ->
  fetched (trace st') = current_chapter_url st :: fetched (trace st).
Proof.
  intros Hstep. pose proof (loop_iteration_spec fetch_page extract next_chapter_url
                              empty_chapter_threshold st) as H.
  rewrite Hstep in H. clear Hstep.
  inversion H as [ | | | | html t c Hurl Hnew Hf Hh He Hc Hadv
                 | | html t c Hurl Hnew Hf Hh He Hc Hlt Hadv ].
  - pose proof (advance_cases next_chapter_url (record_chapter t c (visit st))) as Ha.
    rewrite Hadv in Ha. destruct Ha as (u & Hu & ->). reflexivity.
  - pose proof (advance_cases next_chapter_url (count_empty (visit st))) as Ha.
    rewrite Hadv in Ha. destruct Ha as (u & Hu & ->). reflexivity.
Qed.

Lemma run_continue_fetched n : forall st st',
  run7 n st = Continue st' ->
  length (fetched (trace st')) = (length (fetched (trace st)) + n)%nat.
Proof.
  induction n as [| n IH]; intros st st' Hrun.
  - cbn in Hrun. inversion Hrun; subst. lia.
  - rewrite run_unfold in Hrun.
    destruct (step7 st) as [mid | |] eqn:Hstep; [| discriminate..].
    rewrite (IH _ _ Hrun), (step_continue_fetched _ _ Hstep). cbn [length]. lia.
Qed.

End PageNumber.

(** X26: the chapter number counts pages, not chapters: in every
    running state it is one more than the number of URLs fetched so
    far, so a page without content uses up a number. *)
Theorem chapter_number_counts_fetches
    (fetch_page : list string -> string -> option string)
    (extract : string -> outcome (option string * option string))
    (next_chapter_url : string -> outcome (option string))
    (threshold : Z) (start : string) (n : nat) (st : TraversalState) :
  run fetch_page extract next_chapter_url threshold n (initial_state start) = Continue st ->
  chapter_number st = 1 + Z.of_nat (length (fetched (trace st)))
  /\ length (fetched (trace st)) = n.
Proof.
  intros Hrun.
  pose proof (run_continue_fetched _ _ _ _ _ _ _ Hrun) as Hlen. cbn in Hlen.
  rewrite (run_chapter_number _ _ _ _ _ _ _ Hrun), Hlen. cbn. split; [lia | reflexivity].
Qed.

Lemma chapter_number_counts_fetches_witness :
  exists st,
    run Fixture.site (extract_content Fixture.parse_html SimpleCss.css Fixture.extractor)
      (get_next_chapter_url RePattern.search Fixture.site_navigator) 3 4
      (initial_state "https://x.test/c-1.html") = Continue st
    /\ chapter_number st = 1 + Z.of_nat (length (fetched (trace st)))
    /\ length (fetched (trace st)) = 4%nat.
Proof.
  destruct (run Fixture.site (extract_content Fixture.parse_html SimpleCss.css Fixture.extractor)
              (get_next_chapter_url RePattern.search Fixture.site_navigator) 3 4
              (initial_state "https://x.test/c-1.html")) as [st | |] eqn:E;
    [| discriminate E..].
  exists st. split; [reflexivity |].
  exact (chapter_number_counts_fetches _ _ _ _ _ _ _ E).
Defined.
